(** * Document classification analytics: a shallow embedding

    The analytics code of the front end (StatisticalAnalysis.tsx,
    DocumentList.tsx, the error service and the duplicate notice) is embedded
    as Rocq functions and its specification is checked against them.

    Numbers.  A JavaScript [number] is modelled by [num]: an exact rational,
    the two infinities, or NaN.  Rounding, overflow and the sign of zero are
    outside the model; what is kept is everything the code can observe
    structurally: [undefined] read from an array or object turns into NaN in
    arithmetic, a division by zero yields an infinity or NaN, comparisons with
    NaN are false.  Rationals are kept in lowest terms, so that equal numbers
    are equal terms.  Since the model does not round, the theorems say of a
    computed number which operations yield it, in the order in which the
    code applies them, or how two numbers compare, and leave aside the
    identities of exact arithmetic that rounding breaks, such as a running
    sum of quotients being the quotient of the sum. *)

From Stdlib Require Import QArith Qreduction ZArith List Lia Bool Arith.
From Stdlib Require Import Ascii String DecimalString Permutation Sorted.
From stdpp Require Import gmap strings.
Import ListNotations.

Local Open Scope nat_scope.
Local Open Scope list_scope.

(** ** JavaScript numbers *)

Module JsNum.

Inductive num : Type :=
| Fin (q : Q)
| PInf
| NInf
| NaN.

Definition fin (q : Q) : num := Fin (Qred q).
Definition ofZ (z : Z) : num := Fin (z # 1).
Definition ofNat (n : nat) : num := ofZ (Z.of_nat n).
Definition zero : num := ofZ 0.
Definition one : num := ofZ 1.

(** The infinity with the sign of [q], NaN for [q = 0]. *)
Definition signedInf (q : Q) : num :=
  match Qnum q with
  | Z0 => NaN
  | Zpos _ => PInf
  | Zneg _ => NInf
  end.

Definition isZeroQ (q : Q) : bool :=
  match Qnum q with Z0 => true | _ => false end.

Definition neg (a : num) : num :=
  match a with
  | Fin x => fin (- x)
  | PInf => NInf
  | NInf => PInf
  | NaN => NaN
  end.

Definition add (a b : num) : num :=
  match a, b with
  | NaN, _ | _, NaN => NaN
  | Fin x, Fin y => fin (x + y)
  | PInf, NInf | NInf, PInf => NaN
  | PInf, _ | _, PInf => PInf
  | NInf, _ | _, NInf => NInf
  end.

Definition sub (a b : num) : num :=
  match a, b with
  | NaN, _ | _, NaN => NaN
  | Fin x, Fin y => fin (x - y)
  | PInf, PInf | NInf, NInf => NaN
  | PInf, _ | _, NInf => PInf
  | NInf, _ | _, PInf => NInf
  end.

Definition mul (a b : num) : num :=
  match a, b with
  | NaN, _ | _, NaN => NaN
  | Fin x, Fin y => fin (x * y)
  | Fin x, PInf | PInf, Fin x => signedInf x
  | Fin x, NInf | NInf, Fin x => signedInf (- x)
  | PInf, PInf | NInf, NInf => PInf
  | PInf, NInf | NInf, PInf => NInf
  end.

Definition div (a b : num) : num :=
  match a, b with
  | NaN, _ | _, NaN => NaN
  | Fin x, Fin y => if isZeroQ y then signedInf x else fin (x / y)
  | Fin _, _ => zero
  | PInf, Fin y => if isZeroQ y then PInf else signedInf y
  | NInf, Fin y => if isZeroQ y then NInf else signedInf (- y)
  | _, _ => NaN
  end.

(** [a > b]; false as soon as one side is NaN. *)
Definition gtb (a b : num) : bool :=
  match a, b with
  | NaN, _ | _, NaN => false
  | Fin x, Fin y => negb (Qle_bool x y)
  | PInf, PInf => false
  | PInf, _ => true
  | _, NInf => match a with NInf => false | _ => true end
  | _, _ => false
  end.

(** Truthiness of a number: [0] and NaN are falsy. *)
Definition truthy (a : num) : bool :=
  match a with
  | Fin x => negb (isZeroQ x)
  | NaN => false
  | _ => true
  end.

Definition isFinite (a : num) : bool :=
  match a with Fin _ => true | _ => false end.

Definition isNaN (a : num) : bool :=
  match a with NaN => true | _ => false end.

(** A number in lowest terms. *)
Definition canon (a : num) : Prop :=
  match a with Fin q => Qred q = q | _ => True end.

(** The rational a finite number stands for (0 otherwise). *)
Definition toQ (a : num) : Q :=
  match a with Fin q => q | _ => 0%Q end.

End JsNum.
Export JsNum.

(** ** Arrays

    Reading an array out of range gives [undefined], which every arithmetic
    operator turns into NaN. *)

Definition at_ (l : list num) (i : nat) : num := nth i l NaN.

(** [arr[j] = v]; the loops below only write inside the array. *)
Fixpoint set_at (l : list num) (j : nat) (v : num) : list num :=
  match l, j with
  | [], _ => []
  | _ :: t, O => v :: t
  | x :: t, S j' => x :: set_at t j' v
  end.

(** [arr.reduce((acc, val, i) => f acc val i, init)], and [arr.map] with its
    index argument. *)
Fixpoint reduce_from {A B : Type} (f : B -> A -> nat -> B) (i : nat)
    (l : list A) (acc : B) : B :=
  match l with
  | [] => acc
  | x :: t => reduce_from f (S i) t (f acc x i)
  end.

Definition reduce {A B : Type} (f : B -> A -> nat -> B) (l : list A) (init : B) : B :=
  reduce_from f 0 l init.

Fixpoint mapi_from {A B : Type} (f : A -> nat -> B) (i : nat) (l : list A) : list B :=
  match l with
  | [] => []
  | x :: t => f x i :: mapi_from f (S i) t
  end.

Definition mapi {A B : Type} (f : A -> nat -> B) (l : list A) : list B :=
  mapi_from f 0 l.

(** ** performPCA (StatisticalAnalysis.tsx) *)

Module PCA.

Definition matrix := list (list num).

(** Step 1, the two nested loops: [mean[j] += data[i][j] / data.length]. *)
Definition accumulateRow (n : num) (dimensions : nat) (mean row : list num) : list num :=
  fold_left (fun m j => set_at m j (add (at_ m j) (div (at_ row j) n)))
            (seq 0 dimensions) mean.

Definition columnMeans (data : matrix) (dimensions : nat) : list num :=
  fold_left (accumulateRow (ofNat (length data)) dimensions)
            data (repeat zero dimensions).

Definition centerData (data : matrix) (mean : list num) : matrix :=
  map (fun row => mapi (fun val i => sub val (at_ mean i)) row) data.

(** Step 2: the divisor of every covariance entry, [centeredData.length - 1]. *)
Definition covDivisor (centeredData : matrix) : num :=
  sub (ofNat (length centeredData)) one.

Definition covEntry (centeredData : matrix) (i j : nat) : num :=
  div (fold_left (fun sum row => add sum (mul (at_ row i) (at_ row j)))
                 centeredData zero)
      (covDivisor centeredData).

Definition covarianceMatrix (centeredData : matrix) (dimensions : nat) : matrix :=
  map (fun i => map (fun j => covEntry centeredData i j) (seq 0 dimensions))
      (seq 0 dimensions).

(** Step 3: [Array(dimensions).fill(0).map((_, i) => i === k ? 1 : 0)]. *)
Definition axis (k dimensions : nat) : list num :=
  map (fun i => if Nat.eqb i k then one else zero) (seq 0 dimensions).

(** Step 4: [point.reduce((sum, val, i) => sum + pc[i] * val, 0)]. *)
Definition project (pc point : list num) : num :=
  reduce (fun sum val i => add sum (mul (at_ pc i) val)) point zero.

(** [None] is the TypeError of [data[0].length] on an empty array. *)
Definition performPCA (data : matrix) : option matrix :=
  match data with
  | [] => None
  | row0 :: _ =>
      let dimensions := length row0 in
      let mean := columnMeans data dimensions in
      let centeredData := centerData data mean in
      let covMatrix := covarianceMatrix centeredData dimensions in
      let pc1 := axis 0 dimensions in
      let pc2 := axis 1 dimensions in
      Some (map (fun point => [project pc1 point; project pc2 point]) centeredData)
  end.

End PCA.

(** ** JavaScript objects used as ordered dictionaries

    [Object.entries] lists the string keys of an object in insertion order;
    the confidence mapping of a document, [wordCounts] and [categoryDocs] are
    kept as association lists in that order.  The keys are ordinary names:
    integer-like keys, which JavaScript lists first, are outside the model,
    and so are category names that an object inherits from its prototype.
    The words counted in [wordCounts] are any words of the documents: there
    the inherited names are modelled (see [countWord]). *)

Fixpoint getField {V : Type} (o : list (string * V)) (k : string) : option V :=
  match o with
  | [] => None
  | (k', v) :: t => if String.eqb k' k then Some v else getField t k
  end.

(** [o[k] = v]: an existing key keeps its place, a new key goes last. *)
Fixpoint setField {V : Type} (o : list (string * V)) (k : string) (v : V)
    : list (string * V) :=
  match o with
  | [] => [(k, v)]
  | (k', v') :: t =>
      if String.eqb k' k then (k', v) :: t else (k', v') :: setField t k v
  end.

(** [x || 0] on a number that may be [undefined]. *)
Definition orZero (x : option num) : num :=
  match x with
  | Some v => if truthy v then v else zero
  | None => zero
  end.

(** A number read from a dictionary and used in arithmetic. *)
Definition numOf (x : option num) : num :=
  match x with Some v => v | None => NaN end.

(** [arr.includes(s)] on an array of strings. *)
Definition includes (l : list string) (s : string) : bool :=
  existsb (String.eqb s) l.

(** ** Documents and the statistics of fetchData (StatisticalAnalysis.tsx) *)

Module Stats.

Definition VALID_CATEGORIES : list string :=
  ["Technical Documentation"; "Business Proposal"; "Legal Document";
   "Academic Paper"; "General Article"; "Other"]%string.

(** [DocumentType] of services/api.ts, with the fields the analytics read.
    [category_prediction] holds the entries of the mapping in key order. *)
Record DocumentType : Type := {
  id : Z;
  filename : string;
  size : option num;
  content : option string;
  category_prediction : option (list (string * num))
}.

Definition nonEmptyString (s : string) : bool :=
  match s with EmptyString => false | _ => true end.

(** [doc.category_prediction && Object.keys(doc.category_prediction).length > 0] *)
Definition hasPrediction (doc : DocumentType) : bool :=
  match category_prediction doc with
  | Some (_ :: _) => true
  | _ => false
  end.

(** [doc.filename || 'Unnamed document'] *)
Definition displayName (doc : DocumentType) : string :=
  if nonEmptyString (filename doc) then filename doc else "Unnamed document"%string.

Record Acc : Type := {
  counts : gmap string nat;
  totalScores : gmap string num;
  categoryOccurrences : gmap string nat;
  totalSizes : gmap string num;
  totalLengths : gmap string num;
  featureVectors : list (list num);
  docCategories : list string;
  docFilenames : list string
}.

(** "Initialize all valid categories with zero counts". *)
Definition initAcc : Acc :=
  fold_left
    (fun a category =>
       {| counts := <[category := 0]> (counts a);
          totalScores := <[category := zero]> (totalScores a);
          categoryOccurrences := <[category := 0]> (categoryOccurrences a);
          totalSizes := <[category := zero]> (totalSizes a);
          totalLengths := <[category := zero]> (totalLengths a);
          featureVectors := featureVectors a;
          docCategories := docCategories a;
          docFilenames := docFilenames a |})
    VALID_CATEGORIES
    {| counts := ∅; totalScores := ∅; categoryOccurrences := ∅;
       totalSizes := ∅; totalLengths := ∅;
       featureVectors := []; docCategories := []; docFilenames := [] |}.

(** The feature vector of a document: its confidence for each valid category,
    0 where the mapping has none. *)
Definition featureVector (prediction : list (string * num)) : list num :=
  map (fun cat =>
         if includes VALID_CATEGORIES cat
         then orZero (getField prediction cat)
         else zero)
      VALID_CATEGORIES.

(** The state of the loop over [Object.entries(doc.category_prediction)]. *)
Record EntryState : Type := {
  topCategory : string;
  topConfidence : num;
  scores : gmap string num;
  occurrences : gmap string nat
}.

Definition entryStep (st : EntryState) (entry : string * num) : EntryState :=
  let '(category, confidence) := entry in
  if includes VALID_CATEGORIES category then
    let better := gtb confidence (topConfidence st) in
    {| topCategory := if better then category else topCategory st;
       topConfidence := if better then confidence else topConfidence st;
       scores := <[category := add (orZero (scores st !! category)) confidence]> (scores st);
       occurrences := <[category := S (default 0 (occurrences st !! category))]> (occurrences st) |}
  else st.

(** [if (doc.size) totalSizes[c] = (totalSizes[c] || 0) + doc.size / 1024] *)
Definition addSize (doc : DocumentType) (c : string) (m : gmap string num) : gmap string num :=
  match size doc with
  | Some s => if truthy s then <[c := add (orZero (m !! c)) (div s (ofZ 1024))]> m else m
  | None => m
  end.

(** [if (doc.content) totalLengths[c] = (totalLengths[c] || 0) + doc.content.length] *)
Definition addLength (doc : DocumentType) (c : string) (m : gmap string num) : gmap string num :=
  match content doc with
  | Some s =>
      if nonEmptyString s
      then <[c := add (orZero (m !! c)) (ofNat (String.length s))]> m
      else m
  | None => m
  end.

Definition bump (c : string) (m : gmap string nat) : gmap string nat :=
  <[c := S (default 0 (m !! c))]> m.

(** The body of [data.forEach(doc => ...)]. *)
Definition docStep (a : Acc) (doc : DocumentType) : Acc :=
  match category_prediction doc with
  | Some ((_ :: _) as prediction) =>
      let st := fold_left entryStep prediction
                  {| topCategory := "Other"; topConfidence := zero;
                     scores := totalScores a;
                     occurrences := categoryOccurrences a |} in
      {| counts := bump (topCategory st) (counts a);
         totalScores := scores st;
         categoryOccurrences := occurrences st;
         totalSizes := addSize doc (topCategory st) (totalSizes a);
         totalLengths := addLength doc (topCategory st) (totalLengths a);
         featureVectors := featureVectors a ++ [featureVector prediction];
         docCategories := docCategories a ++ [topCategory st];
         docFilenames := docFilenames a ++ [displayName doc] |}
  | _ =>
      {| counts := bump "Other" (counts a);
         totalScores := totalScores a;
         categoryOccurrences := categoryOccurrences a;
         totalSizes := addSize doc "Other" (totalSizes a);
         totalLengths := addLength doc "Other" (totalLengths a);
         featureVectors := featureVectors a ++ [map (fun _ => zero) VALID_CATEGORIES];
         docCategories := docCategories a ++ ["Other"%string];
         docFilenames := docFilenames a ++ [displayName doc] |}
  end.

Definition accumulate (data : list DocumentType) : Acc :=
  fold_left docStep data initAcc.

(** "Calculate average scores and sizes". *)
Definition avgScore (a : Acc) (category : string) : num :=
  match categoryOccurrences a !! category with
  | Some (S n) => div (numOf (totalScores a !! category)) (ofNat (S n))
  | _ => zero
  end.

Definition avgOver (a : Acc) (totals : gmap string num) (category : string) : num :=
  match counts a !! category with
  | Some (S n) => div (numOf (totals !! category)) (ofNat (S n))
  | _ => zero
  end.

Definition averages (f : string -> num) : gmap string num :=
  fold_left (fun m category => <[category := f category]> m) VALID_CATEGORIES ∅.

(** The scatter plot: left alone below two feature vectors, otherwise the
    points of [performPCA]; [PcaThrew] is an exception escaping from it. *)
Inductive PcaOutcome : Type :=
| PcaNotRun
| PcaThrew
| PcaPoints (points : list (num * num)).

Definition pcaStep (featureVectors : list (list num)) : PcaOutcome :=
  if 2 <=? length featureVectors then
    match PCA.performPCA featureVectors with
    | Some reducedData =>
        PcaPoints (map (fun coords => (at_ coords 0, at_ coords 1)) reducedData)
    | None => PcaThrew
    end
  else PcaNotRun.

Record Report : Type := {
  categoryCounts : gmap string nat;
  categoryAverageScores : gmap string num;
  categoryAverageSizes : gmap string num;
  categoryAverageLengths : gmap string num;
  pcaCategories : list string;
  pcaFilenames : list string;
  pcaPoints : list (num * num)
}.

(** The statistics part of [fetchData], from the fetched documents on.
    [None] is the catch block: an exception aborted the report. *)
Definition fetchData (data : list DocumentType) : option Report :=
  let a := accumulate data in
  let avgScores := averages (avgScore a) in
  let avgSizes := averages (avgOver a (totalSizes a)) in
  let avgLengths := averages (avgOver a (totalLengths a)) in
  match pcaStep (featureVectors a) with
  | PcaThrew => None
  | PcaNotRun =>
      Some {| categoryCounts := counts a;
              categoryAverageScores := avgScores;
              categoryAverageSizes := avgSizes;
              categoryAverageLengths := avgLengths;
              pcaCategories := []; pcaFilenames := []; pcaPoints := [] |}
  | PcaPoints points =>
      Some {| categoryCounts := counts a;
              categoryAverageScores := avgScores;
              categoryAverageSizes := avgSizes;
              categoryAverageLengths := avgLengths;
              pcaCategories := docCategories a;
              pcaFilenames := docFilenames a;
              pcaPoints := points |}
  end.

End Stats.

(** ** The document list (DocumentList.tsx) *)

Module DocumentList.

Import Stats.

Definition topStep (st : string * num) (entry : string * num) : string * num :=
  let '(category, confidence) := entry in
  if gtb confidence (snd st) then (category, confidence) else st.

(** "Find the highest confidence category" of a table row. *)
Definition topCategory (doc : DocumentType) : string * num :=
  match category_prediction doc with
  | Some prediction => fold_left topStep prediction ("Unclassified"%string, zero)
  | None => ("Unclassified"%string, zero)
  end.

End DocumentList.

(** ** Reference labels and accuracy (fetchTargetsAndCalculateAccuracy) *)

Module Target.

Record TargetData : Type := {
  filename : string;
  category : string
}.

Definition isDot (c : ascii) : bool := Ascii.eqb c "."%char.
Definition isSlash (c : ascii) : bool := Ascii.eqb c "/"%char.

(** The characters matched by [[^/.]+] up to the end of the string. *)
Fixpoint extensionTail (s : string) : bool :=
  match s with
  | EmptyString => true
  | String c t => negb (isDot c) && negb (isSlash c) && extensionTail t
  end.

(** [name.replace(/\.[^/.]+$/, "")]: the leftmost place where a dot is
    followed, up to the end, by one or more characters other than [/] and
    [.], is cut off. *)
Fixpoint stripExt (name : string) : string :=
  match name with
  | EmptyString => EmptyString
  | String c t =>
      if isDot c && Stats.nonEmptyString t && extensionTail t
      then EmptyString
      else String c (stripExt t)
  end.

(** [targets.find(target => stripExt(target.filename) === docNameWithoutExt)] *)
Definition findTarget (targets : list TargetData) (docNameWithoutExt : string)
    : option TargetData :=
  find (fun target => String.eqb (stripExt (filename target)) docNameWithoutExt)
       targets.

End Target.

Module Accuracy.

Import Stats.

Record CategoryStat : Type := {
  correct : nat;
  total : nat;
  percentage : num
}.

Record State : Type := {
  correctPredictions : nat;
  totalLabeledDocs : nat;
  categoryStats : gmap string CategoryStat
}.

(** "Initialize stats for all valid categories". *)
Definition initState : State :=
  {| correctPredictions := 0;
     totalLabeledDocs := 0;
     categoryStats :=
       fold_left (fun m c => <[c := {| correct := 0; total := 0; percentage := zero |}]> m)
                 VALID_CATEGORIES ∅ |}.

(** "Find the category with highest confidence". *)
Definition predictedCategory (prediction : list (string * num)) : string :=
  fst (fold_left DocumentList.topStep prediction ("Other"%string, zero)).

Definition incTotal (cs : CategoryStat) : CategoryStat :=
  {| correct := correct cs; total := S (total cs); percentage := percentage cs |}.

Definition incCorrect (cs : CategoryStat) : CategoryStat :=
  {| correct := S (correct cs); total := total cs; percentage := percentage cs |}.

(** [if (categoryStats[c]) categoryStats[c].field++] *)
Definition touch (f : CategoryStat -> CategoryStat) (c : string)
    (m : gmap string CategoryStat) : gmap string CategoryStat :=
  match m !! c with
  | Some cs => <[c := f cs]> m
  | None => m
  end.

(** The body of [docs.forEach(doc => ...)]. *)
Definition docStep (targets : list Target.TargetData) (st : State)
    (doc : DocumentType) : State :=
  match category_prediction doc with
  | None => st
  | Some prediction =>
      if negb (nonEmptyString (filename doc)) then st
      else
        match Target.findTarget targets (Target.stripExt (filename doc)) with
        | None => st
        | Some matchingTarget =>
            let actual := Target.category matchingTarget in
            let stats1 := touch incTotal actual (categoryStats st) in
            if String.eqb (predictedCategory prediction) actual
            then {| correctPredictions := S (correctPredictions st);
                    totalLabeledDocs := S (totalLabeledDocs st);
                    categoryStats := touch incCorrect actual stats1 |}
            else {| correctPredictions := correctPredictions st;
                    totalLabeledDocs := S (totalLabeledDocs st);
                    categoryStats := stats1 |}
        end
  end.

(** [total > 0 ? (correct / total) * 100 : 0] *)
Definition percent (correct total : nat) : num :=
  if 0 <? total then mul (div (ofNat correct) (ofNat total)) (ofZ 100) else zero.

Definition withPercentage (cs : CategoryStat) : CategoryStat :=
  {| correct := correct cs; total := total cs;
     percentage := percent (correct cs) (total cs) |}.

Record Result : Type := {
  accuracy : option num;
  totalLabeled : nat;
  categoryAccuracy : gmap string CategoryStat
}.

(** The accuracy computation from the parsed reference labels on.  The
    overall accuracy stays unset ([None]) when no document is labelled. *)
Definition calculateAccuracy (targets : list Target.TargetData)
    (docs : list DocumentType) : Result :=
  let st := fold_left (docStep targets) docs initState in
  {| accuracy :=
       if 0 <? totalLabeledDocs st
       then Some (mul (div (ofNat (correctPredictions st)) (ofNat (totalLabeledDocs st)))
                      (ofZ 100))
       else None;
     totalLabeled := if 0 <? totalLabeledDocs st then totalLabeledDocs st else 0;
     categoryAccuracy := withPercentage <$> categoryStats st |}.

End Accuracy.

(** ** Word clouds (preprocessText, generatePlaceholderWordClouds,
       generateWordClouds and the WordCloud component)

    Text is a string of 8-bit characters; letters are the ASCII letters. *)

Module WordClouds.

Import Stats.

Record WordCloudWord : Type := {
  text : string;
  value : num
}.

Definition WordCloudData : Type := list (string * list WordCloudWord).

Definition STOP_WORDS : list string :=
  ["a"; "an"; "the"; "and"; "but"; "or"; "for"; "nor"; "on"; "at"; "to"; "by";
   "from"; "of"; "in"; "this"; "that"; "these"; "those"; "with"; "as"; "is";
   "are"; "was"; "were"; "be"; "been"; "being"; "have"; "has"; "had"; "do";
   "does"; "did"; "shall"; "will"; "should"; "would"; "may"; "might"; "must";
   "can"; "could"; "i"; "you"; "he"; "she"; "it"; "we"; "they"; "their"; "its";
   "our"; "your"; "my"; "his"; "her"; "who"; "what"; "where"; "which"; "when";
   "why"; "how"; "all"; "any"; "both"; "each"; "not"; "only"; "very"; "more";
   "most"; "some"; "such"; "no"; "nor"; "too"; "then"; "than"; "also"; "if";
   "so"; "just"; "about"; "upon"; "through"; "before"; "after"; "above"; "below";
   "over"; "under"; "again"; "once"]%string.

Definition inRange (lo hi : nat) (c : ascii) : bool :=
  let n := nat_of_ascii c in (lo <=? n) && (n <=? hi).

Definition isUpper (c : ascii) : bool := inRange 65 90 c.
Definition isLower (c : ascii) : bool := inRange 97 122 c.
Definition isDigit (c : ascii) : bool := inRange 48 57 c.

(** [\w]: letters, digits and the underscore. *)
Definition isWordChar (c : ascii) : bool :=
  isUpper c || isLower c || isDigit c || Ascii.eqb c "_"%char.

(** [\s]: space, tab, line feed, vertical tab, form feed, carriage return. *)
Definition isSpace (c : ascii) : bool :=
  let n := nat_of_ascii c in (n =? 32) || ((9 <=? n) && (n <=? 13)).

Definition lowerChar (c : ascii) : ascii :=
  if isUpper c then ascii_of_nat (nat_of_ascii c + 32) else c.

Fixpoint mapString (f : ascii -> ascii) (s : string) : string :=
  match s with
  | EmptyString => EmptyString
  | String c t => String (f c) (mapString f t)
  end.

Definition toLowerCase (s : string) : string := mapString lowerChar s.

(** [s.replace(/[^\w\s]/g, ' ')] *)
Definition replacePunctuation (s : string) : string :=
  mapString (fun c => if isWordChar c || isSpace c then c else " "%char) s.

(** [s.split(/\s+/)]: the pieces between the maximal runs of white space,
    an empty piece before a leading run and after a trailing one.  [cur] is
    the piece being read, reversed; [inRun] tells that the previous character
    was white space. *)
Fixpoint revString (acc : string) (s : string) : string :=
  match s with
  | EmptyString => acc
  | String c t => revString (String c acc) t
  end.

Fixpoint splitFrom (s : string) (cur : string) (inRun : bool) : list string :=
  match s with
  | EmptyString => [revString EmptyString cur]
  | String c t =>
      if isSpace c
      then if inRun then splitFrom t cur true
           else revString EmptyString cur :: splitFrom t EmptyString true
      else splitFrom t (String c cur) false
  end.

Definition splitWhitespace (s : string) : list string :=
  splitFrom s EmptyString false.

Fixpoint allDigits (s : string) : bool :=
  match s with
  | EmptyString => true
  | String c t => isDigit c && allDigits t
  end.

(** [/^\d+$/.test(word)] *)
Definition isNumeric (word : string) : bool :=
  nonEmptyString word && allDigits word.

Definition keepWord (word : string) : bool :=
  (2 <? String.length word) && negb (includes STOP_WORDS word) && negb (isNumeric word).

Definition preprocessText (text : string) : list string :=
  let lowerText := toLowerCase text in
  let words := splitWhitespace (replacePunctuation lowerText) in
  List.filter keepWord words.

(** [haystack.includes(needle)] on strings. *)
Fixpoint isPrefix (p s : string) : bool :=
  match p, s with
  | EmptyString, _ => true
  | String a p', String b s' => Ascii.eqb a b && isPrefix p' s'
  | String _ _, EmptyString => false
  end.

Fixpoint strIncludes (haystack needle : string) : bool :=
  isPrefix needle haystack
  || match haystack with
     | EmptyString => false
     | String _ t => strIncludes t needle
     end.

(** The vocabulary of the placeholders. *)
Definition commonWords : list (string * list string) :=
  [("Technical Documentation",
    ["code"; "function"; "class"; "method"; "library"; "api"; "interface";
     "system"; "software"; "design"; "implementation"; "documentation";
     "reference"; "guide"]);
   ("Business Proposal",
    ["business"; "proposal"; "project"; "client"; "budget"; "timeline";
     "deliverable"; "service"; "opportunity"; "strategy"; "partnership";
     "growth"; "market"; "solution"]);
   ("Legal Document",
    ["legal"; "agreement"; "contract"; "party"; "terms"; "conditions"; "clause";
     "obligation"; "rights"; "compliance"; "regulation"; "jurisdiction";
     "enforcement"; "liability"]);
   ("Academic Paper",
    ["research"; "study"; "analysis"; "data"; "method"; "result"; "conclusion";
     "literature"; "hypothesis"; "theory"; "experiment"; "finding";
     "publication"; "reference"]);
   ("General Article",
    ["article"; "information"; "topic"; "reader"; "section"; "point"; "example";
     "author"; "description"; "overview"; "summary"; "introduction";
     "conclusion"; "perspective"]);
   ("Other",
    ["document"; "content"; "information"; "section"; "page"; "text"; "topic";
     "review"; "description"; "analysis"; "overview"; "summary";
     "introduction"; "conclusion"])]%string.

(** [commonWords[category] || commonWords["Other"]] *)
Definition vocabulary (category : string) : list string :=
  match getField commonWords category with
  | Some ws => ws
  | None => default [] (getField commonWords "Other"%string)
  end.

Definition defaultCategories : list string :=
  ["Technical Documentation"; "Business Proposal"; "Legal Document";
   "Academic Paper"; "General Article"; "Other"]%string.

(** [b.value - a.value < 0]: [a] sorts strictly before [b]. *)
Definition before (a b : WordCloudWord) : bool :=
  gtb zero (sub (value b) (value a)).

(** [words.sort((a, b) => b.value - a.value)]: the sort is stable, words of
    equal value keep their order.  With a value that is no number the
    differences are NaN, the comparison is inconsistent and the order is the
    engine's own: the statements on the order are about numbers. *)
Fixpoint insertWord (x : WordCloudWord) (l : list WordCloudWord) : list WordCloudWord :=
  match l with
  | [] => [x]
  | y :: t => if before y x then y :: insertWord x t else x :: y :: t
  end.

Definition sortWords (l : list WordCloudWord) : list WordCloudWord :=
  fold_right insertWord [] l.

(** The WordCloud component: the words it displays. *)
Definition WordCloud (words : list WordCloudWord) (maxWords : nat) : list WordCloudWord :=
  firstn maxWords (sortWords words).

Definition hasContent (doc : DocumentType) : bool :=
  match content doc with
  | Some s => nonEmptyString s
  | None => false
  end.

Definition contentOf (doc : DocumentType) : string :=
  match content doc with Some s => s | None => EmptyString end.

(** [parts.join(' ')] *)
Fixpoint join (parts : list string) : string :=
  match parts with
  | [] => EmptyString
  | [s] => s
  | s :: t => String.append s (String " "%char (join t))
  end.

(** [wordCounts] starts as the object [{}], which inherits the properties of
    [Object.prototype].  Reading a word that is the name of an inherited
    function gives that function, and [(function || 0) + 1] is a text, the
    source of the function followed by [1], which is stored under the word
    and grows by a [1] at every further occurrence.  Reading [__proto__]
    gives the prototype itself, and storing a text under [__proto__] leaves
    the object as it is. *)
Inductive Tally : Type :=
| Count (n : nat)
| Garbled.

Definition inheritedFunctions : list string :=
  ["constructor"; "__defineGetter__"; "__defineSetter__"; "hasOwnProperty";
   "__lookupGetter__"; "__lookupSetter__"; "isPrototypeOf";
   "propertyIsEnumerable"; "toString"; "valueOf"; "toLocaleString"]%string.

Definition inherited (word : string) : bool :=
  String.eqb word "__proto__" || includes inheritedFunctions word.

(** The body of [words.forEach(word => ...)] counting the words of a
    category: the category name and the longer words it contains are left
    out. *)
Definition countWord (category : string) (wordCounts : list (string * Tally))
    (word : string) : list (string * Tally) :=
  if String.eqb (toLowerCase word) (toLowerCase category) then wordCounts
  else if strIncludes (toLowerCase category) (toLowerCase word)
          && (3 <? String.length word) then wordCounts
  else
    match getField wordCounts word with
    | Some (Count n) => setField wordCounts word (Count (S n))
    | Some Garbled => setField wordCounts word Garbled
    | None =>
        if String.eqb word "__proto__" then wordCounts
        else if includes inheritedFunctions word
             then setField wordCounts word Garbled
             else setField wordCounts word (Count 1)
    end.

(** The value of a word of the cloud, which the component only subtracts,
    divides and passes to [Math.max]: a text that is no numeral counts as
    NaN there. *)
Definition tallyValue (t : Tally) : num :=
  match t with
  | Count n => ofNat n
  | Garbled => NaN
  end.

(** The grouping of the documents by the category of their reference label. *)
Definition groupStep (targetData : list Target.TargetData)
    (categoryDocs : list (string * list DocumentType)) (doc : DocumentType)
    : list (string * list DocumentType) :=
  if negb (nonEmptyString (filename doc)) then categoryDocs
  else
    match Target.findTarget targetData (Target.stripExt (filename doc)) with
    | Some targetDoc =>
        let c := Target.category targetDoc in
        setField categoryDocs c (default [] (getField categoryDocs c) ++ [doc])
    | None => categoryDocs
    end.

Section Random.

(** [randomDraw k] stands for the k-th result of [Math.random() * 60] read by
    the component; [Math.floor] of it lies between 0 and 59. *)
Variable randomDraw : nat -> Z.

Definition randomValue (k : nat) : num := ofZ (randomDraw k mod 60 + 40).

Fixpoint drawWords (categoryWords : list string) (k : nat)
    : list WordCloudWord * nat :=
  match categoryWords with
  | [] => ([], k)
  | word :: rest =>
      let '(words, k') := drawWords rest (S k) in
      ({| text := word; value := randomValue k |} :: words, k')
  end.

Definition generatePlaceholderWordClouds (categories : list string) (k : nat)
    : WordCloudData * nat :=
  fold_left
    (fun (st : WordCloudData * nat) category =>
       let '(words, k') := drawWords (vocabulary category) (snd st) in
       (setField (fst st) category words, k'))
    categories ([], k).

(** The words of one category in "Process each category". *)
Definition categoryCloud (placeholderWordClouds : WordCloudData)
    (category : string) (docs : list DocumentType) : list WordCloudWord :=
  let docsWithContent := List.filter hasContent docs in
  match docsWithContent with
  | [] => default [] (getField placeholderWordClouds category)
  | _ =>
      let combinedText := join (map contentOf docsWithContent) in
      let words := preprocessText combinedText in
      let wordCounts := fold_left (countWord category) words [] in
      let wordCloudWords :=
        sortWords (map (fun e => {| text := fst e; value := tallyValue (snd e) |})
                       wordCounts) in
      match wordCloudWords with
      | [] => default [] (getField placeholderWordClouds category)
      | _ => wordCloudWords
      end
  end.

(** [generateWordClouds]: the new value of the word-cloud state, and the
    number of random draws made so far. *)
Definition generateWordClouds (targetData : list Target.TargetData)
    (docs : list DocumentType) (k : nat) : WordCloudData * nat :=
  let categoryDocs := fold_left (groupStep targetData) docs [] in
  match categoryDocs with
  | [] => generatePlaceholderWordClouds defaultCategories k
  | _ =>
      let '(placeholderWordClouds, k') :=
        generatePlaceholderWordClouds (map fst categoryDocs) k in
      if negb (existsb hasContent docs) then (placeholderWordClouds, k')
      else
        (fold_left
           (fun (wordClouds : WordCloudData) (e : string * list DocumentType) =>
              setField wordClouds (fst e)
                       (categoryCloud placeholderWordClouds (fst e) (snd e)))
           categoryDocs [],
         k')
  end.

(** The panel: one [<WordCloud words={words} maxWords={50} />] per category. *)
Definition renderWordClouds (wordCloudData : WordCloudData) : WordCloudData :=
  map (fun e => (fst e, WordCloud (snd e) 50)) wordCloudData.

End Random.

End WordClouds.

(** ** Errors: the error service, the upload form and the duplicate notice

    The values of type [any] the error code inspects are JSON-like values. *)

Module Errors.

Inductive jsval : Type :=
| JUndefined
| JNull
| JBool (b : bool)
| JNumber (n : Z)
| JString (s : string)
| JObject (fields : list (string * jsval)).

Definition jsTruthy (v : jsval) : bool :=
  match v with
  | JUndefined | JNull => false
  | JBool b => b
  | JNumber n => negb (Z.eqb n 0)
  | JString s => Stats.nonEmptyString s
  | JObject _ => true
  end.

(** [a || b] *)
Definition jsOr (a b : jsval) : jsval := if jsTruthy a then a else b.

(** [typeof v === 'object'] *)
Definition isObjectType (v : jsval) : bool :=
  match v with
  | JObject _ | JNull => true
  | _ => false
  end.

(** [v?.k]: [undefined] on [undefined] and [null]; the primitives have none
    of the properties read here. *)
Definition optGet (v : jsval) (k : string) : jsval :=
  match v with
  | JObject fields => default JUndefined (getField fields k)
  | _ => JUndefined
  end.

(** [v.k]: a TypeError ([None]) on [undefined] and [null]. *)
Definition get (v : jsval) (k : string) : option jsval :=
  match v with
  | JUndefined | JNull => None
  | _ => Some (optGet v k)
  end.

(** [v === 409] and the like. *)
Definition isNumber (v : jsval) (n : Z) : bool :=
  match v with
  | JNumber m => Z.eqb m n
  | _ => false
  end.

Definition isString (v : jsval) (s : string) : bool :=
  match v with
  | JString t => String.eqb t s
  | _ => false
  end.

(** [String(v)], also the text a template literal gives for [v]. *)
Definition toText (v : jsval) : string :=
  match v with
  | JUndefined => "undefined"
  | JNull => "null"
  | JBool true => "true"
  | JBool false => "false"
  | JNumber n => NilZero.string_of_int (Z.to_int n)
  | JString s => s
  | JObject _ => "[object Object]"
  end.

Definition doubleQuote : string := String (ascii_of_nat 34) EmptyString.

Inductive ErrorCategory : Type :=
| VALIDATION
| NETWORK
| AUTHENTICATION
| FILE_PROCESSING
| SERVER
| UNKNOWN.

(** [AppError]; an absent optional field is [JUndefined]. *)
Record AppError : Type := {
  message : jsval;
  category : ErrorCategory;
  code : jsval;
  details : jsval;
  originalError : jsval
}.

(** What [formatErrorMessage] is given: an Axios error, with the response
    when there is one, or any other thrown value. *)
Record AxiosResponse : Type := {
  status : Z;
  data : jsval
}.

Inductive Thrown : Type :=
| Axios (response : option AxiosResponse) (axiosMessage : string) (self : jsval)
| Other (error : jsval).

Definition messageOr (errorMessage : jsval) (fallback : string) : jsval :=
  jsOr errorMessage (JString fallback).

(** The Axios branch once the response is known.  [errorMessage],
    [errorCode] and [details] are the three values extracted from the
    response data. *)
Definition formatResponse (st : Z) (errorMessage errorCode details self : jsval)
    : AppError :=
  let base (cat : ErrorCategory) (msg : jsval) (cd : jsval) (det : jsval) :=
    {| message := msg; category := cat; code := cd;
       details := if jsTruthy details then details else det;
       originalError := self |} in
  if Z.eqb st 400 then
    if isString errorCode "FILE_TOO_LARGE" then
      base FILE_PROCESSING
        (messageOr errorMessage "The file exceeds the maximum allowed size of 10MB.")
        (messageOr errorCode "BAD_REQUEST") JUndefined
    else if isString errorCode "TEXT_EXTRACTION_FAILED" then
      base FILE_PROCESSING
        (messageOr errorMessage
           "Could not extract text from the file. The file may be corrupted or password protected.")
        (messageOr errorCode "BAD_REQUEST") JUndefined
    else
      base VALIDATION
        (messageOr errorMessage "The request was invalid. Please check your input.")
        (messageOr errorCode "BAD_REQUEST") JUndefined
  else if Z.eqb st 401 || Z.eqb st 403 then
    base AUTHENTICATION
      (messageOr errorMessage "You do not have permission to perform this action.")
      (messageOr errorCode "UNAUTHORIZED") JUndefined
  else if Z.eqb st 404 then
    base UNKNOWN
      (messageOr errorMessage "The requested resource was not found.")
      (messageOr errorCode "NOT_FOUND") JUndefined
  else if Z.eqb st 409 then
    base VALIDATION
      (messageOr errorMessage "A duplicate resource was detected.")
      (messageOr errorCode "DUPLICATE_RESOURCE")
      (jsOr details (JObject [("duplicate"%string, JBool true)]))
  else if Z.eqb st 413 then
    base FILE_PROCESSING
      (messageOr errorMessage "The file is too large to upload.")
      (messageOr errorCode "FILE_TOO_LARGE") JUndefined
  else if Z.eqb st 415 then
    base FILE_PROCESSING
      (messageOr errorMessage "The file type is not supported.")
      (messageOr errorCode "UNSUPPORTED_FILE_TYPE") JUndefined
  else if Z.eqb st 429 then
    base UNKNOWN
      (messageOr errorMessage "Too many requests. Please try again later.")
      (messageOr errorCode "RATE_LIMIT_EXCEEDED") JUndefined
  else if Z.eqb st 500 || Z.eqb st 502 || Z.eqb st 503 || Z.eqb st 504 then
    base SERVER
      (messageOr errorMessage "The server encountered an error. Please try again later.")
      (messageOr errorCode "SERVER_ERROR") JUndefined
  else
    base UNKNOWN
      (messageOr errorMessage "An unexpected error occurred")
      (messageOr errorCode "UNKNOWN_ERROR") JUndefined.

(** One of the three extractions
    [typeof errorDetail === 'object' ? errorDetail.k :
     typeof responseData === 'object' ? responseData.k : other]. *)
Definition extract (errorDetail responseData : jsval) (k : string) (other : jsval)
    : option jsval :=
  if isObjectType errorDetail then get errorDetail k
  else if isObjectType responseData then get responseData k
  else Some other.

Definition includesAny (msg : string) (needle : string) : bool :=
  WordClouds.strIncludes msg needle.

(** [formatErrorMessage]; [None] is a TypeError raised inside it. *)
Definition formatErrorMessage (error : Thrown) : option AppError :=
  match error with
  | Axios None _ self =>
      Some {| message :=
                JString "Unable to connect to the server. Please check your internet connection.";
              category := NETWORK; code := JUndefined; details := JUndefined;
              originalError := self |}
  | Axios (Some response) axiosMessage self =>
      let responseData := data response in
      let errorDetail := jsOr (optGet responseData "detail") responseData in
      let stringOfData :=
        JString (toText (jsOr responseData (JString axiosMessage))) in
      match extract errorDetail responseData "message" stringOfData,
            extract errorDetail responseData "error" (JString "UNKNOWN_ERROR"),
            extract errorDetail responseData "details" JNull with
      | Some errorMessage, Some errorCode, Some details =>
          Some (formatResponse (status response) errorMessage errorCode details self)
      | _, _, _ => None
      end
  | Other error =>
      match optGet error "message" with
      | JString (String _ _ as msg) =>
          let known (m : string) (c : string) :=
            Some {| message := JString m; category := FILE_PROCESSING;
                    code := JString c; details := JUndefined;
                    originalError := error |} in
          if includesAny msg "PDF extraction error" then
            known "Unable to extract text from PDF. The file may be corrupted or password-protected."
                  "PDF_EXTRACTION_ERROR"
          else if includesAny msg "DOCX extraction error" then
            known "Unable to extract text from DOCX. The file may be corrupted."
                  "DOCX_EXTRACTION_ERROR"
          else if includesAny msg "Error extracting text" then
            known "Unable to process the document. Please check the file format."
                  "TEXT_EXTRACTION_ERROR"
          else if includesAny msg "file size exceeds" then
            known "The file is too large. Maximum file size is 10MB."
                  "FILE_SIZE_EXCEEDED"
          else if includesAny msg "file type" then
            known "File type not supported. Please upload PDF, DOC, DOCX, or TXT files."
                  "INVALID_FILE_TYPE"
          else
            Some {| message := JString msg; category := UNKNOWN;
                    code := JUndefined; details := JUndefined;
                    originalError := error |}
      | _ =>
          Some {| message := JString "An unexpected error occurred";
                  category := UNKNOWN; code := JUndefined; details := JUndefined;
                  originalError := JUndefined |}
      end
  end.



(** The duplicate branch of the catch block of [uploadFiles]: whether the
    error is a duplicate ([None]: reading [err.status] raised a TypeError),
    and the error then put on display. *)
Definition isDuplicateUpload (err : jsval) : option bool :=
  match get err "status" with
  | None => None
  | Some st =>
      Some (isNumber st 409
            || isNumber (optGet (optGet (optGet err "originalError") "response") "status") 409)
  end.

Definition duplicateUploadError (err : jsval) (fileName : string) : AppError :=
  let responseData :=
    jsOr (optGet (optGet (optGet err "originalError") "response") "data")
         (optGet err "data") in
  let named := optGet (optGet responseData "data") "duplicate_filename" in
  let duplicateInfo :=
    if jsTruthy named
    then String.append " as "
           (String.append doubleQuote (String.append (toText named) doubleQuote))
    else EmptyString in
  {| message :=
       JString (String.append "Document "
                 (String.append doubleQuote
                   (String.append fileName
                     (String.append doubleQuote
                       (String.append " has already been uploaded"
                         (String.append duplicateInfo
                            ". Each document can only be uploaded once."))))));
     category := VALIDATION;
     code := JUndefined;
     details := JUndefined;
     originalError := err |}.

End Errors.

(** ** The charts of the statistics page (StatisticalAnalysis.tsx) *)

Module Charts.

Import Stats.

(** [VALID_CATEGORIES.map(category => categoryCounts[category] || 0)] *)
Definition countChartData (categoryCounts : gmap string nat) : list nat :=
  map (fun category => default 0 (categoryCounts !! category)) VALID_CATEGORIES.

(** [VALID_CATEGORIES.map(category => (categoryAverageScores[category] || 0) * 100)] *)
Definition avgScoreChartData (categoryAverageScores : gmap string num) : list num :=
  map (fun category => mul (orZero (categoryAverageScores !! category)) (ofZ 100))
      VALID_CATEGORIES.

(** One dataset of the scatter plot.  A file name read past the end of
    [pcaData.filenames] is [undefined] ([None]). *)
Record Dataset : Type := {
  label : string;
  data : list (num * num);
  filenames : list (option string)
}.

(** The loop [pcaData.points.forEach((point, idx) => ...)] of one category:
    the points whose entry of [pcaData.categories] is the category, and
    their file names. *)
Definition categoryDataset (points : list (num * num)) (categories : list string)
    (names : list string) (category : string) : Dataset :=
  let picked :=
    reduce (fun (acc : list (num * num) * list (option string)) point idx =>
              match nth_error categories idx with
              | Some c =>
                  if String.eqb c category
                  then (fst acc ++ [point], snd acc ++ [nth_error names idx])
                  else acc
              | None => acc
              end)
           points ([], []) in
  {| label := category; data := fst picked; filenames := snd picked |}.

(** [pcaChartData.datasets]: one dataset per category, the empty ones left
    out. *)
Definition pcaChartData (report : Report) : list Dataset :=
  List.filter (fun dataset => 0 <? length (data dataset))
    (map (categoryDataset (pcaPoints report) (pcaCategories report) (pcaFilenames report))
         VALID_CATEGORIES).

End Charts.

(** ** The detail page (DocumentDetail.tsx) *)

Module DocumentDetail.

(** [b[1] - a[1] < 0]: entry [a] sorts strictly before entry [b]. *)
Definition before (a b : string * num) : bool :=
  gtb zero (sub (snd b) (snd a)).

(** [Object.entries(prediction).sort((a, b) => b[1] - a[1])]; the sort is
    stable. *)
Fixpoint insertEntry (x : string * num) (l : list (string * num))
    : list (string * num) :=
  match l with
  | [] => [x]
  | y :: t => if before y x then y :: insertEntry x t else x :: y :: t
  end.

Definition sortEntries (l : list (string * num)) : list (string * num) :=
  fold_right insertEntry [] l.

(** The bars of the classification panel, top to bottom; no panel ([None])
    for a missing or empty mapping. *)
Definition classificationBars (doc : Stats.DocumentType) : option (list (string * num)) :=
  match Stats.category_prediction doc with
  | Some ((_ :: _) as prediction) => Some (sortEntries prediction)
  | _ => None
  end.

End DocumentDetail.

(** ** Retrying a failed operation (withErrorHandling) *)

Module ErrorHandling.
Import Errors.

(** How one call of [operation] settles. *)
Inductive Settled (T : Type) : Type :=
| Resolved (value : T)
| Rejected (error : Thrown).
Arguments Resolved {T} value.
Arguments Rejected {T} error.

(** How [withErrorHandling] ends: with the value of the operation, with the
    formatted error it throws, or with the TypeError raised while
    formatting. *)
Inductive Outcome (T : Type) : Type :=
| Returned (value : T)
| Threw (error : AppError)
| TypeError.
Arguments Returned {T} value.
Arguments Threw {T} error.
Arguments TypeError {T}.

Definition isCategory (a b : ErrorCategory) : bool :=
  match a, b with
  | VALIDATION, VALIDATION | NETWORK, NETWORK | AUTHENTICATION, AUTHENTICATION
  | FILE_PROCESSING, FILE_PROCESSING | SERVER, SERVER | UNKNOWN, UNKNOWN => true
  | _, _ => false
  end.

Definition isAxiosError (error : Thrown) : bool :=
  match error with
  | Axios _ _ _ => true
  | Other _ => false
  end.

(** [error.response?.status || 0] *)
Definition responseStatus (error : Thrown) : Z :=
  match error with
  | Axios (Some response) _ _ => status response
  | _ => 0
  end.

Definition includesZ (l : list Z) (x : Z) : bool := existsb (Z.eqb x) l.

(** The test guarding the retry. *)
Definition retriable (formattedError : AppError) (error : Thrown) : bool :=
  isCategory (category formattedError) NETWORK
  || (isAxiosError error && includesZ [502; 503; 504]%Z (responseStatus error)).

(** [throw formatErrorMessage(lastError)] *)
Definition throwFormatted {T : Type} (lastError : Thrown) : Outcome T :=
  match formatErrorMessage lastError with
  | Some appError => Threw appError
  | None => TypeError
  end.

Section WithOperation.

Variable T : Type.

(** The operation: how its call number [n] (from 0) settles. *)
Variable operation : nat -> Settled T.

Variable retries : Z.

(** The loop from [attempt] on; the result comes with the number of calls of
    the operation made so far.  [fuel] bounds the iterations left. *)
Fixpoint attempts (fuel : nat) (attempt : nat) (lastError : Thrown)
    : Outcome T * nat :=
  match fuel with
  | 0 => (throwFormatted lastError, attempt)
  | S fuel' =>
      if (Z.of_nat attempt <=? retries)%Z then
        match operation attempt with
        | Resolved value => (Returned value, S attempt)
        | Rejected error =>
            match formatErrorMessage error with
            | None => (TypeError, S attempt)
            | Some formattedError =>
                if retriable formattedError error then
                  if (Z.of_nat attempt <? retries)%Z
                  then attempts fuel' (S attempt) error
                  else (throwFormatted error, S attempt)
                else (throwFormatted error, S attempt)
            end
        end
      else (throwFormatted lastError, attempt)
  end.

(** [withErrorHandling(operation, { retries })]; the loop runs for the
    attempts 0 to [retries], and [lastError] starts as [undefined]. *)
Definition withErrorHandling : Outcome T * nat :=
  attempts (Z.to_nat (retries + 1)) 0 (Other JUndefined).

End WithOperation.

End ErrorHandling.

(** ** Uploading the selected files (FileUpload, [uploadFiles]) *)

Module FileUpload.
Import Errors.

(** Maximum file size in bytes (10MB). *)
Definition MAX_FILE_SIZE : Z := 10 * 1024 * 1024.

(** The fields of a [File] the component reads. *)
Record File : Type := {
  name : string;
  type : string
}.

(** How a call of [apiUploadFile] settles; what it throws is any value. *)
Inductive Settled : Type :=
| Resolved (result : Stats.DocumentType)
| Rejected (err : jsval).

(** What [setError] is given: an error built here, or the thrown value. *)
Inductive Shown : Type :=
| Built (error : AppError)
| Caught (err : jsval).

(** The state of the component, with the calls it made: of
    [apiUploadFile] ([requested]), of [onUploadSuccess] ([uploaded]) and of
    [toast.success] ([toasts]), each in order. *)
Record State : Type := {
  uploading : bool;
  error : option Shown;
  fileValidationError : option string;
  isDuplicateFile : bool;
  selectedFiles : list File;
  currentUploadIndex : Z;
  requested : list File;
  uploaded : list Stats.DocumentType;
  toasts : list string
}.

Definition quoted (s : string) : string :=
  String.append doubleQuote (String.append s doubleQuote).

Definition setError (e : option Shown) (s : State) : State :=
  {| uploading := uploading s; error := e;
     fileValidationError := fileValidationError s;
     isDuplicateFile := isDuplicateFile s; selectedFiles := selectedFiles s;
     currentUploadIndex := currentUploadIndex s; requested := requested s;
     uploaded := uploaded s; toasts := toasts s |}.

Definition setFileValidationError (e : option string) (s : State) : State :=
  {| uploading := uploading s; error := error s;
     fileValidationError := e;
     isDuplicateFile := isDuplicateFile s; selectedFiles := selectedFiles s;
     currentUploadIndex := currentUploadIndex s; requested := requested s;
     uploaded := uploaded s; toasts := toasts s |}.

Definition setIsDuplicateFile (b : bool) (s : State) : State :=
  {| uploading := uploading s; error := error s;
     fileValidationError := fileValidationError s;
     isDuplicateFile := b; selectedFiles := selectedFiles s;
     currentUploadIndex := currentUploadIndex s; requested := requested s;
     uploaded := uploaded s; toasts := toasts s |}.

Definition setUploading (b : bool) (s : State) : State :=
  {| uploading := b; error := error s;
     fileValidationError := fileValidationError s;
     isDuplicateFile := isDuplicateFile s; selectedFiles := selectedFiles s;
     currentUploadIndex := currentUploadIndex s; requested := requested s;
     uploaded := uploaded s; toasts := toasts s |}.

Definition setSelectedFiles (l : list File) (s : State) : State :=
  {| uploading := uploading s; error := error s;
     fileValidationError := fileValidationError s;
     isDuplicateFile := isDuplicateFile s; selectedFiles := l;
     currentUploadIndex := currentUploadIndex s; requested := requested s;
     uploaded := uploaded s; toasts := toasts s |}.

Definition setCurrentUploadIndex (i : Z) (s : State) : State :=
  {| uploading := uploading s; error := error s;
     fileValidationError := fileValidationError s;
     isDuplicateFile := isDuplicateFile s; selectedFiles := selectedFiles s;
     currentUploadIndex := i; requested := requested s;
     uploaded := uploaded s; toasts := toasts s |}.

(** [await apiUploadFile(file)] is called. *)
Definition request (file : File) (s : State) : State :=
  {| uploading := uploading s; error := error s;
     fileValidationError := fileValidationError s;
     isDuplicateFile := isDuplicateFile s; selectedFiles := selectedFiles s;
     currentUploadIndex := currentUploadIndex s;
     requested := requested s ++ [file];
     uploaded := uploaded s; toasts := toasts s |}.

(** [onUploadSuccess(result); toast.success(...)] *)
Definition succeed (file : File) (result : Stats.DocumentType) (s : State) : State :=
  {| uploading := uploading s; error := error s;
     fileValidationError := fileValidationError s;
     isDuplicateFile := isDuplicateFile s; selectedFiles := selectedFiles s;
     currentUploadIndex := currentUploadIndex s; requested := requested s;
     uploaded := uploaded s ++ [result];
     toasts := toasts s
               ++ [String.append "File "
                     (String.append (quoted (name file)) " uploaded successfully")] |}.

(** [err.code === c || err.originalError?.response?.data?.error === c] *)
Definition hasCode (err : jsval) (c : string) : bool :=
  isString (optGet err "code") c
  || isString (optGet (optGet (optGet (optGet err "originalError") "response") "data")
                      "error") c.

(** The catch block for the file at hand; [None] is the TypeError raised by
    reading [err.status] on [undefined] or [null]. *)
Definition handleFailure (file : File) (err : jsval) (s : State) : option State :=
  match isDuplicateUpload err with
  | None => None
  | Some true =>
      Some (setError (Some (Built (duplicateUploadError err (name file))))
              (setIsDuplicateFile true s))
  | Some false =>
      if hasCode err "FILE_TOO_LARGE" then
        Some (setFileValidationError
                (Some (String.append "File "
                         (String.append (quoted (name file))
                            (String.append " is too large. Maximum size is "
                               (String.append
                                  (toText (JNumber (MAX_FILE_SIZE / 1024 / 1024)))
                                  "MB.")))))
                s)
      else if hasCode err "TEXT_EXTRACTION_FAILED" then
        if String.eqb (type file) "application/pdf" then
          Some (setFileValidationError
                  (Some (String.append "Could not extract text from "
                           (String.append (quoted (name file))
                              ". The file may be corrupted, password protected, or contain only scanned images.")))
                  s)
        else
          Some (setFileValidationError
                  (Some (String.append "Could not extract text from "
                           (String.append (quoted (name file))
                              ". The file may be corrupted or in an unsupported format.")))
                  s)
      else Some (setError (Some (Caught err)) s)
  end.

(** How [uploadFiles] ends: it runs to its end, or a TypeError escapes from
    the catch block, the state being left as it then is. *)
Inductive Run : Type :=
| Completed (s : State)
| Raised (s : State).

Section WithApi.

(** The upload service: how the call for the file at index [i] settles. *)
Variable apiUploadFile : nat -> File -> Settled.

(** The loop over the selected files, from index [i] on. *)
Fixpoint uploadFrom (i : nat) (files : list File) (s : State) : Run :=
  match files with
  | [] => Completed s
  | file :: rest =>
      let s1 := request file (setCurrentUploadIndex (Z.of_nat i) s) in
      match apiUploadFile i file with
      | Resolved result => uploadFrom (S i) rest (succeed file result s1)
      | Rejected err =>
          match handleFailure file err s1 with
          | Some s2 => Completed s2
          | None => Raised s1
          end
      end
  end.

Definition uploadFiles (s : State) : Run :=
  match selectedFiles s with
  | [] => Completed s
  | _ :: _ =>
      match uploadFrom 0 (selectedFiles s)
              (setIsDuplicateFile false
                 (setFileValidationError None
                    (setError None (setUploading true s)))) with
      | Completed s' =>
          Completed (setSelectedFiles []
                       (setCurrentUploadIndex (-1) (setUploading false s')))
      | Raised s' => Raised s'
      end
  end.

End WithApi.

End FileUpload.

(** ** Reading the reference labels (the CSV parsing of
    fetchTargetsAndCalculateAccuracy) *)

Module TargetsCsv.
Import WordClouds.

Definition newline : ascii := "010"%char.
Definition comma : ascii := ","%char.

(** [s.split(sep)] for a separator of one character: the pieces between
    the separators.  [cur] is the piece being read, reversed. *)
Fixpoint splitOn (sep : ascii) (s : string) (cur : string) : list string :=
  match s with
  | EmptyString => [revString EmptyString cur]
  | String c t =>
      if Ascii.eqb c sep
      then revString EmptyString cur :: splitOn sep t EmptyString
      else splitOn sep t (String c cur)
  end.

Definition split (sep : ascii) (s : string) : list string :=
  splitOn sep s EmptyString.

(** [s.trim()], on the white space of ASCII. *)
Fixpoint trimStart (s : string) : string :=
  match s with
  | EmptyString => EmptyString
  | String c t => if isSpace c then trimStart t else s
  end.

Definition trim (s : string) : string :=
  revString EmptyString (trimStart (revString EmptyString (trimStart s))).

(** [l.findIndex(p)]; [None] is -1. *)
Fixpoint findIndexFrom {A : Type} (p : A -> bool) (l : list A) (i : nat)
    : option nat :=
  match l with
  | [] => None
  | x :: t => if p x then Some i else findIndexFrom p t (S i)
  end.

Definition findIndex {A : Type} (p : A -> bool) (l : list A) : option nat :=
  findIndexFrom p l 0.

Definition isFilenameHeader (h : string) : bool :=
  String.eqb (toLowerCase h) "file_name" || String.eqb (toLowerCase h) "filename".

Definition isCategoryHeader (h : string) : bool :=
  String.eqb (toLowerCase h) "category".

(** A parsed row; a value is [undefined] ([None]) when the row has fewer
    values than the index of the column. *)
Record Row : Type := {
  filename : option string;
  category : option string
}.

(** The rows pushed for one line after the first. *)
Definition parseLine (filenameIndex categoryIndex : nat) (line : string)
    : list Row :=
  if negb (Stats.nonEmptyString (trim line)) then []
  else
    let values := map trim (split comma line) in
    if 1 <? length values
    then [ {| filename := nth_error values filenameIndex;
              category := nth_error values categoryIndex |} ]
    else [].

(** The parsed reference labels; [None] when a required column is missing
    (the computation is then abandoned). *)
Definition parseTargets (csvText : string) : option (list Row) :=
  let lines := split newline csvText in
  let headers := map trim (split comma (hd EmptyString lines)) in
  match findIndex isFilenameHeader headers, findIndex isCategoryHeader headers with
  | Some filenameIndex, Some categoryIndex =>
      Some (flat_map (parseLine filenameIndex categoryIndex) (tl lines))
  | _, _ => None
  end.

End TargetsCsv.

(** ** Drawing a word cloud (the WordCloud component) *)

Module WordCloudView.
Import WordClouds.

(** [Math.max(a, b)]: NaN as soon as one side is NaN. *)
Definition max2 (a b : num) : num :=
  match a, b with
  | NaN, _ | _, NaN => NaN
  | _, _ => if gtb b a then b else a
  end.

(** [Math.max(...values)]; [-Infinity] without values. *)
Definition mathMax (values : list num) : num := fold_left max2 values NInf.

(** A word as drawn: its font size in pixels and its opacity. *)
Record Styled : Type := {
  word : WordCloudWord;
  fontSize : num;
  opacity : num
}.

Definition render (words : list WordCloudWord) (maxWords : nat) : list Styled :=
  let displayWords := WordCloud words maxWords in
  let maxFreq := mathMax (map value displayWords) in
  map (fun w =>
         {| word := w;
            fontSize := add (ofZ 12) (mul (div (value w) maxFreq) (ofZ 20));
            opacity := add (fin (6 # 10)) (mul (div (value w) maxFreq) (fin (4 # 10))) |})
      displayWords.

End WordCloudView.

(** ** The upload service (api.ts, [uploadDocument]) *)

Module UploadDocument.
Import Errors.

(** [if (v) error[k] = v] on the fields of the error object. *)
Definition setIfTruthy (fields : list (string * jsval)) (k : string) (v : jsval)
    : list (string * jsval) :=
  if jsTruthy v then setField fields k v else fields.

(** The catch block: the value thrown on, given the value caught.  [None]
    is the TypeError of reading [error.response] on [undefined] or [null].
    Only an object can carry [response.data]. *)
Definition rethrown (error : jsval) : option jsval :=
  match get error "response" with
  | None => None
  | Some response =>
      let apiError := optGet response "data" in
      if jsTruthy apiError then
        match error with
        | JObject fields =>
            Some (JObject
                    (setIfTruthy
                       (setIfTruthy
                          (setIfTruthy fields "code" (optGet apiError "error"))
                          "message" (optGet apiError "message"))
                       "details" (optGet apiError "details")))
        | _ => Some error
        end
      else Some error
  end.

End UploadDocument.

(** ** Reference definitions, in the words of the specification *)

Module Reference.

Import PCA.









End Reference.

(** * Derived notions: what the statements below are about *)

Import PCA Reference Stats WordClouds.

(** ** Finite numbers and rectangular matrices *)

Definition finite (a : num) : Prop := isFinite a = true.





(** ** The statistics, category by category *)

(** An entry of a registered category. *)
Definition validEntry (e : string * num) : bool :=
  includes VALID_CATEGORIES (fst e).

(** The entries of the confidence mapping of a document, none when it has
    no mapping. *)
Definition entriesOf (doc : DocumentType) : list (string * num) :=
  match category_prediction doc with
  | Some prediction => prediction
  | None => []
  end.

(** The top category of the statistics, read off the entry loop. *)
Definition statsTopStep (st : string * num) (entry : string * num) : string * num :=
  if validEntry entry && gtb (snd entry) (snd st) then entry else st.

Definition statsTop (prediction : list (string * num)) : string * num :=
  fold_left statsTopStep prediction ("Other"%string, zero).

Definition topOfDoc (doc : DocumentType) : string :=
  fst (statsTop (entriesOf doc)).

(** What one document contributes to the size and length totals of its top
    category. *)
Definition sizeTerm (doc : DocumentType) : list (string * num) :=
  match size doc with
  | Some s => if truthy s then [(topOfDoc doc, div s (ofZ 1024))] else []
  | None => []
  end.

Definition lengthTerm (doc : DocumentType) : list (string * num) :=
  match content doc with
  | Some s => if nonEmptyString s then [(topOfDoc doc, ofNat (String.length s))] else []
  | None => []
  end.

(** [m[k] = (m[k] || 0) + v] *)
Definition addTo (m : gmap string num) (e : string * num) : gmap string num :=
  <[fst e := add (orZero (m !! fst e)) (snd e)]> m.

(** The sum, in order, of the contributions made to category [c]. *)
Definition totalFor (c : string) (contributions : list (string * num)) : num :=
  fold_left (fun s e => if String.eqb (fst e) c then add s (snd e) else s)
            contributions zero.

(** The number of times [c] occurs among the keys. *)
Definition countFor (c : string) (keys : list string) : nat :=
  length (List.filter (String.eqb c) keys).

(** The quantities of the report, per category. *)
Definition topCount (c : string) (docs : list DocumentType) : nat :=
  countFor c (map topOfDoc docs).

Definition sizeTotal (c : string) (docs : list DocumentType) : num :=
  totalFor c (flat_map sizeTerm docs).

Definition lengthTotal (c : string) (docs : list DocumentType) : num :=
  totalFor c (flat_map lengthTerm docs).

(** The confidences given to [c] by all the documents, and how many there
    are. *)
Definition scoreTotal (c : string) (docs : list DocumentType) : num :=
  totalFor c (flat_map entriesOf docs).

Definition occurrenceCount (c : string) (docs : list DocumentType) : nat :=
  countFor c (map fst (flat_map entriesOf docs)).

Definition average (total : num) (n : nat) : num :=
  if Nat.eqb n 0 then zero else div total (ofNat n).

(** The numbers of a document are finite: its size and its confidences. *)
Definition finiteDoc (doc : DocumentType) : Prop :=
  (forall s, size doc = Some s -> finite s)
  /\ Forall (fun e => finite (snd e)) (entriesOf doc).

(** ** The top category *)

(** The step shared by the three loops that look for the top category: an
    entry admitted by [valid] replaces the current one when its confidence is
    strictly greater. *)
Definition pickStep (valid : string * num -> bool) (st entry : string * num)
    : string * num :=
  if valid entry && gtb (snd entry) (snd st) then entry else st.

(** "The argmax of the confidence distribution; ties broken by Category
    Registry declaration order (first-declared wins)": the registry is
    walked in declaration order and a category replaces the current best only
    with a strictly greater confidence. *)
Definition registryArgmax (registry : list string)
    (prediction : list (string * num)) : option string :=
  fold_left
    (fun best c =>
       match best with
       | None => Some c
       | Some b =>
           if gtb (numOf (getField prediction c)) (numOf (getField prediction b))
           then Some c else best
       end)
    registry None.

(** A document whose two best categories are tied; the mapping lists them in
    an order of its own. *)
Definition tiedDocument : DocumentType :=
  {| id := 1;
     filename := "tied.pdf";
     size := Some (ofZ 2048);
     content := None;
     category_prediction :=
       Some [("Legal Document"%string, Fin (1 # 4));
             ("Business Proposal"%string, Fin (1 # 4));
             ("Technical Documentation"%string, Fin (1 # 8));
             ("Academic Paper"%string, Fin (1 # 8));
             ("General Article"%string, Fin (1 # 8));
             ("Other"%string, Fin (1 # 8))] |}.

(** A technical document with some confidence left for the legal category. *)
Definition technicalDocument : DocumentType :=
  {| id := 2;
     filename := "manual.pdf";
     size := Some (ofZ 4096);
     content := Some "install the library"%string;
     category_prediction :=
       Some [("Technical Documentation"%string, Fin (3 # 4));
             ("Business Proposal"%string, Fin 0);
             ("Legal Document"%string, Fin (1 # 4));
             ("Academic Paper"%string, Fin 0);
             ("General Article"%string, Fin 0);
             ("Other"%string, Fin 0)] |}.

(** A document stored without a classification. *)
Definition unclassifiedDocument : DocumentType :=
  {| id := 3;
     filename := "scan.pdf";
     size := Some (ofZ 1024);
     content := None;
     category_prediction := None |}.

(** A memo with a size and a text whose confidence mapping is empty. *)
Definition unratedMemo : DocumentType :=
  {| id := 6;
     filename := "memo.txt";
     size := Some (ofZ 2048);
     content := Some "memo"%string;
     category_prediction := Some [] |}.

(** A field of the report of [fetchData], when there is a report. *)
Definition reported {A : Type} (field : Report -> gmap string A) (c : string)
    (docs : list DocumentType) : option A :=
  match fetchData docs with
  | Some report => field report !! c
  | None => None
  end.

(** ** The projection *)

(** Two documents that differ only in their confidences for "Legal Document"
    and "Academic Paper", the third and fourth categories. *)
Definition contractDocument : DocumentType :=
  {| id := 4;
     filename := "contract.pdf";
     size := Some (ofZ 2048);
     content := None;
     category_prediction :=
       Some [("Technical Documentation"%string, Fin (1 # 8));
             ("Business Proposal"%string, Fin (1 # 8));
             ("Legal Document"%string, Fin (1 # 2));
             ("Academic Paper"%string, Fin (1 # 8));
             ("General Article"%string, Fin (1 # 16));
             ("Other"%string, Fin (1 # 16))] |}.

Definition thesisDocument : DocumentType :=
  {| id := 5;
     filename := "thesis.pdf";
     size := Some (ofZ 2048);
     content := None;
     category_prediction :=
       Some [("Technical Documentation"%string, Fin (1 # 8));
             ("Business Proposal"%string, Fin (1 # 8));
             ("Legal Document"%string, Fin (1 # 8));
             ("Academic Paper"%string, Fin (1 # 2));
             ("General Article"%string, Fin (1 # 16));
             ("Other"%string, Fin (1 # 16))] |}.

Definition twoDocumentMatrix : matrix :=
  featureVectors (accumulate [contractDocument; thesisDocument]).

(** ** Accuracy *)

(** The reference label of a document: the first label whose file name,
    extension stripped, is the document's file name, extension stripped.
    Documents without a name or without a classification have none. *)
Definition labelOf (targets : list Target.TargetData) (doc : DocumentType)
    : option Target.TargetData :=
  match category_prediction doc with
  | None => None
  | Some _ =>
      if nonEmptyString (filename doc)
      then Target.findTarget targets (Target.stripExt (filename doc))
      else None
  end.

(** The matched documents, each with its label. *)
Definition labelled (targets : list Target.TargetData) (docs : list DocumentType)
    : list (DocumentType * Target.TargetData) :=
  flat_map (fun doc => match labelOf targets doc with
                       | Some t => [(doc, t)]
                       | None => []
                       end) docs.

Definition isCorrect (p : DocumentType * Target.TargetData) : bool :=
  String.eqb (Accuracy.predictedCategory (entriesOf (fst p))) (Target.category (snd p)).

Definition hasLabel (c : string) (p : DocumentType * Target.TargetData) : bool :=
  String.eqb (Target.category (snd p)) c.

Definition countIf {A : Type} (f : A -> bool) (l : list A) : nat :=
  length (List.filter f l).

(** A file extension: one or more characters other than [.] and [/]. *)
Definition isExtension (ext : string) : bool :=
  nonEmptyString ext && Target.extensionTail ext.

Definition withExtension (base ext : string) : string :=
  String.append base (String "."%char ext).

(** One matched document in the loop of the accuracy computation. *)
Definition pairStep (st : Accuracy.State) (p : DocumentType * Target.TargetData)
    : Accuracy.State :=
  let actual := Target.category (snd p) in
  let stats1 := Accuracy.touch Accuracy.incTotal actual (Accuracy.categoryStats st) in
  if isCorrect p
  then {| Accuracy.correctPredictions := S (Accuracy.correctPredictions st);
          Accuracy.totalLabeledDocs := S (Accuracy.totalLabeledDocs st);
          Accuracy.categoryStats := Accuracy.touch Accuracy.incCorrect actual stats1 |}
  else {| Accuracy.correctPredictions := Accuracy.correctPredictions st;
          Accuracy.totalLabeledDocs := S (Accuracy.totalLabeledDocs st);
          Accuracy.categoryStats := stats1 |}.

(** [correct / total], as a percentage. *)
Definition percentOf (correct total : nat) : num :=
  fin (inject_Z (Z.of_nat correct) / inject_Z (Z.of_nat total) * 100)%Q.

Definition tiedLabel : Target.TargetData :=
  {| Target.filename := "tied.txt"; Target.category := "Legal Document" |}.

Definition sampleTargets : list Target.TargetData :=
  [ tiedLabel;
    {| Target.filename := "manual"; Target.category := "Legal Document" |};
    {| Target.filename := "thesis.docx"; Target.category := "Academic Paper" |} ].

(** ** Accuracy, read off the file names and the confidences *)

(** A name cut at its last dot: what stands before the dot and what follows
    it. *)
Fixpoint splitAtLastDot (name : string) : option (string * string) :=
  match name with
  | EmptyString => None
  | String c rest =>
      match splitAtLastDot rest with
      | Some (base, ext) => Some (String c base, ext)
      | None => if Ascii.eqb c "."%char then Some (EmptyString, rest) else None
      end
  end.

Fixpoint hasSlash (s : string) : bool :=
  match s with
  | EmptyString => false
  | String c rest => Ascii.eqb c "/"%char || hasSlash rest
  end.

(** A file name without its extension: what follows the last dot is dropped
    with the dot, unless nothing follows it or a slash does. *)
Definition baseName (name : string) : string :=
  match splitAtLastDot name with
  | Some (base, String c ext) => if hasSlash (String c ext) then name else base
  | _ => name
  end.

(** The first reference label that has the base name of [name]. *)
Fixpoint firstLabel (targets : list Target.TargetData) (name : string)
    : option Target.TargetData :=
  match targets with
  | [] => None
  | target :: rest =>
      if String.eqb (baseName (Target.filename target)) (baseName name)
      then Some target
      else firstLabel rest name
  end.

(** The reference label of a document that has a name and a classification. *)
Definition referenceLabel (targets : list Target.TargetData) (doc : DocumentType)
    : option Target.TargetData :=
  match category_prediction doc, filename doc with
  | Some _, String _ _ => firstLabel targets (filename doc)
  | _, _ => None
  end.

(** The matched documents, each with its reference label. *)
Definition matchedDocuments (targets : list Target.TargetData)
    (docs : list DocumentType) : list (DocumentType * Target.TargetData) :=
  flat_map (fun doc => match referenceLabel targets doc with
                       | Some target => [(doc, target)]
                       | None => []
                       end) docs.

(** The highest confidence of a mapping, or 0 when none is positive. *)
Definition highestConfidence (entries : list (string * num)) : num :=
  fold_right (fun e best => if gtb (snd e) best then snd e else best) zero entries.

(** The top category of a mapping: the first category that reaches the
    highest confidence, "Other" when no confidence is positive. *)
Definition topConfidenceCategory (entries : list (string * num)) : string :=
  let best := highestConfidence entries in
  if gtb best zero
  then match find (fun e => negb (gtb best (snd e))) entries with
       | Some e => fst e
       | None => "Other"%string
       end
  else "Other"%string.

(** The top category of the document is [c]; it is its reference label. *)
Definition predictedAs (c : string) (p : DocumentType * Target.TargetData) : bool :=
  String.eqb (topConfidenceCategory (entriesOf (fst p))) c.

Definition predictedRight (p : DocumentType * Target.TargetData) : bool :=
  predictedAs (Target.category (snd p)) p.

(** [(correct / total) * 100] *)
Definition ratioPercent (correct total : nat) : num :=
  mul (div (ofNat correct) (ofNat total)) (ofZ 100).

(** "Per-category precision": of the matched documents predicted as [c], the
    share whose reference label is [c]. *)
Definition precisionOf (c : string) (pairs : list (DocumentType * Target.TargetData))
    : num :=
  ratioPercent (countIf (fun p => predictedAs c p && predictedRight p) pairs)
               (countIf (predictedAs c) pairs).

(** The share of correct predictions among the matched documents whose
    reference label is [c]. *)
Definition recallOf (c : string) (pairs : list (DocumentType * Target.TargetData))
    : num :=
  ratioPercent (countIf (fun p => hasLabel c p && predictedRight p) pairs)
               (countIf (hasLabel c) pairs).

(** A file extension: one or more characters, none of them a dot or a
    slash. *)
Fixpoint hasDot (s : string) : bool :=
  match s with
  | EmptyString => false
  | String c rest => Ascii.eqb c "."%char || hasDot rest
  end.

Definition plainExtension (ext : string) : Prop :=
  ext <> EmptyString /\ hasDot ext = false /\ hasSlash ext = false.

(** The numbers of the mapping of every document are finite. *)
Definition finiteConfidences (docs : list DocumentType) : Prop :=
  Forall (fun doc => Forall (fun e => finite (snd e)) (entriesOf doc)) docs.

(** ** Word clouds *)

(** A placeholder cloud: the vocabulary of its category, with finite values. *)
Definition placeholderFor (category : string) (words : list WordCloudWord) : Prop :=
  map text words = vocabulary category
  /\ Forall (fun w => finite (value w)) words.

(** The documents grouped under each reference category. *)
Definition groups (targetData : list Target.TargetData) (docs : list DocumentType)
    : list (string * list DocumentType) :=
  fold_left (groupStep targetData) docs [].

(** The member documents of a category. *)
Definition membersOf (targetData : list Target.TargetData)
    (docs : list DocumentType) (category : string) : list DocumentType :=
  default [] (getField (groups targetData docs) category).

(** [a] may stand before [b]: [b] does not sort strictly before [a]. *)
Definition precedes (a b : WordCloudWord) : Prop := before b a = false.

Definition finiteWord (w : WordCloudWord) : Prop := finite (value w).

(** The words left out of the cloud of a category: its name, and the words
    of more than three characters that occur inside its name. *)
Definition excluded (category word : string) : bool :=
  String.eqb (toLowerCase word) (toLowerCase category)
  || (strIncludes (toLowerCase category) (toLowerCase word)
      && (3 <? String.length word)).

(** [wordCounts[word] = (wordCounts[word] || 0) + 1] *)
Definition tallyStep (wordCounts : list (string * nat)) (word : string)
    : list (string * nat) :=
  setField wordCounts word (S (default 0 (getField wordCounts word))).

(** A counted word, as a word of the cloud. *)
Definition wordOf (e : string * nat) : WordCloudWord :=
  {| text := fst e; value := ofNat (snd e) |}.

(** A counted word, as a property of [wordCounts]. *)
Definition counted (e : string * nat) : string * Tally := (fst e, Count (snd e)).

(** The documents labelled with [c]: the named documents whose first
    reference label by base name has category [c]. *)
Definition labelledWith (targetData : list Target.TargetData) (c : string)
    (doc : DocumentType) : bool :=
  match filename doc with
  | EmptyString => false
  | String _ _ =>
      match firstLabel targetData (filename doc) with
      | Some target => String.eqb (Target.category target) c
      | None => false
      end
  end.

Definition memberDocuments (targetData : list Target.TargetData)
    (docs : list DocumentType) (c : string) : list DocumentType :=
  List.filter (labelledWith targetData c) docs.

(** The categories of the labels are ordinary names: none is a name that
    the objects keyed by category inherit from [Object.prototype]. *)
Definition ordinaryCategories (targetData : list Target.TargetData) : Prop :=
  Forall (fun target => inherited (Target.category target) = false) targetData.

(** The tokens counted for a category: those of the combined text of its
    members with content, without the excluded words. *)
Definition categoryTokens (category : string) (members : list DocumentType)
    : list string :=
  List.filter (fun w => negb (excluded category w))
    (preprocessText (join (map contentOf (List.filter hasContent members)))).

Definition sampleLabels : list Target.TargetData :=
  [ {| Target.filename := "contract.txt"; Target.category := "Legal Document" |};
    {| Target.filename := "scan.txt"; Target.category := "Other" |} ].

(** A contract with its text, as fetched for the word clouds. *)
Definition contractWithText : DocumentType :=
  {| id := 4;
     filename := "contract.pdf";
     size := Some (ofZ 2048);
     content := Some "Legal terms: the LEGAL contract binds 2 parties"%string;
     category_prediction := category_prediction contractDocument |}.

(** The word cloud in the words of the specification: the tokens of the
    combined text (lowercased, stop-words, short and numeric tokens removed)
    are counted and the [n] most frequent ones are reported. *)
Definition specifiedWordCloud (members : list DocumentType) (n : nat)
    : list WordCloudWord :=
  firstn n
    (sortWords
       (map wordOf
          (fold_left tallyStep
             (preprocessText (join (map contentOf (List.filter hasContent members))))
             []))).

(** Every character of the string satisfies [p]. *)
Fixpoint allChars (p : ascii -> bool) (s : string) : bool :=
  match s with
  | EmptyString => true
  | String c t => p c && allChars p t
  end.

Definition notUpper (c : ascii) : bool := negb (isUpper c).

(** ** Duplicates *)








(** ** Charts and detail page *)

(** The points of one category, read along the categories and names that
    remain from index [idx] on. *)
Fixpoint pickFrom (category : string) (points : list (num * num))
    (categories names : list string) : list (num * num) * list (option string) :=
  match points with
  | [] => ([], [])
  | point :: rest =>
      let picked := pickFrom category rest (tl categories) (tl names) in
      match categories with
      | c :: _ =>
          if String.eqb c category
          then (point :: fst picked, hd_error names :: snd picked)
          else picked
      | [] => picked
      end
  end.

(** An entry of positive confidence. *)
Definition positiveEntry (e : string * num) : bool := gtb (snd e) zero.

(** The number of matched documents the report files under a category. *)
Definition categoryTotal (result : Accuracy.Result) (c : string) : nat :=
  match Accuracy.categoryAccuracy result !! c with
  | Some cs => Accuracy.total cs
  | None => 0
  end.

(** A matched document whose reference label is no registered category. *)
Definition strayLabel (p : DocumentType * Target.TargetData) : bool :=
  negb (includes VALID_CATEGORIES (Target.category (snd p))).

(** A number between 0 and 100. *)
Definition isPercentage (a : num) : Prop :=
  exists q, a = Fin q /\ (0 <= q)%Q /\ (q <= 100)%Q.

(** A failure treated as transient by the retry loop: no response at all,
    or a response with status 502, 503 or 504 (and a body other than
    [null], on which formatting raises). *)
Definition transient (error : Errors.Thrown) : bool :=
  match error with
  | Errors.Axios None _ _ => true
  | Errors.Axios (Some response) _ _ =>
      (Z.eqb (Errors.status response) 502 || Z.eqb (Errors.status response) 503
       || Z.eqb (Errors.status response) 504)
      && match Errors.data response with Errors.JNull => false | _ => true end
  | Errors.Other _ => false
  end.

(** An operation that cannot connect twice and then answers 7. *)
Definition flakyOperation (n : nat) : ErrorHandling.Settled nat :=
  if Nat.ltb n 2
  then ErrorHandling.Rejected
         (Errors.Axios None "Network Error" (Errors.JString "Network Error"))
  else ErrorHandling.Resolved 7.

(** An operation answered by a duplicate conflict. *)
Definition conflictingOperation (n : nat) : ErrorHandling.Settled nat :=
  ErrorHandling.Rejected
    (Errors.Axios (Some {| Errors.status := 409; Errors.data := Errors.JUndefined |})
                  "Request failed with status code 409" Errors.JUndefined).

(** The files at hand resolve, in order from index [i], to the documents
    [docs]. *)
Definition resolveTo (apiUploadFile : nat -> FileUpload.File -> FileUpload.Settled)
    (i : nat) (files : list FileUpload.File) (docs : list DocumentType) : Prop :=
  length docs = length files
  /\ forall k file, nth_error files k = Some file ->
       exists doc, nth_error docs k = Some doc
                   /\ apiUploadFile (i + k) file = FileUpload.Resolved doc.

Definition reportFile : FileUpload.File :=
  {| FileUpload.name := "report.pdf"; FileUpload.type := "application/pdf" |}.

Definition notesFile : FileUpload.File :=
  {| FileUpload.name := "notes.txt"; FileUpload.type := "text/plain" |}.

Definition thesisFile : FileUpload.File :=
  {| FileUpload.name := "thesis.docx"; FileUpload.type := "application/msword" |}.

(** A service that stores the first file and refuses every other one as a
    duplicate. *)
Definition onceOnlyService (i : nat) (file : FileUpload.File) : FileUpload.Settled :=
  match i with
  | 0 => FileUpload.Resolved contractDocument
  | _ => FileUpload.Rejected
           (Errors.JObject [("status"%string, Errors.JNumber 409)])
  end.

(** A service that stores every file. *)
Definition acceptingService (i : nat) (file : FileUpload.File) : FileUpload.Settled :=
  FileUpload.Resolved contractDocument.

Definition idleUpload (files : list FileUpload.File) : FileUpload.State :=
  {| FileUpload.uploading := false; FileUpload.error := None;
     FileUpload.fileValidationError := None; FileUpload.isDuplicateFile := false;
     FileUpload.selectedFiles := files; FileUpload.currentUploadIndex := -1;
     FileUpload.requested := []; FileUpload.uploaded := [];
     FileUpload.toasts := [] |}.

(** The characters of a token: lowercase letters, digits, the underscore. *)
Definition tokenChar (c : ascii) : bool :=
  isLower c || isDigit c || Ascii.eqb c "_"%char.

(** A token in normal form: made of token characters and kept by the
    filter. *)
Definition normalToken (w : string) : Prop :=
  allChars tokenChar w = true
  /\ 2 < String.length w
  /\ includes STOP_WORDS w = false
  /\ isNumeric w = false.

(** The category of the reference label matching a document by name, for a
    document with a file name. *)
Definition referenceCategory (targetData : list Target.TargetData)
    (doc : DocumentType) : option string :=
  if nonEmptyString (filename doc)
  then option_map Target.category
         (Target.findTarget targetData (Target.stripExt (filename doc)))
  else None.

Definition groupedUnder (targetData : list Target.TargetData) (c : string)
    (doc : DocumentType) : bool :=
  match referenceCategory targetData doc with
  | Some c' => String.eqb c' c
  | None => false
  end.

Definition hasReference (targetData : list Target.TargetData)
    (doc : DocumentType) : bool :=
  match referenceCategory targetData doc with
  | Some _ => true
  | None => false
  end.

(** A field that the CSV format of the labels can carry: no comma, no line
    feed, no white space at either end. *)
Definition startsWithSpace (s : string) : bool :=
  match s with
  | String c _ => isSpace c
  | EmptyString => false
  end.

Definition fieldChar (c : ascii) : bool :=
  negb (Ascii.eqb c TargetsCsv.comma) && negb (Ascii.eqb c TargetsCsv.newline).

Definition cleanField (f : string) : bool :=
  allChars fieldChar f
  && negb (startsWithSpace f)
  && negb (startsWithSpace (revString EmptyString f)).

Definition cleanTarget (t : Target.TargetData) : Prop :=
  cleanField (Target.filename t) = true /\ cleanField (Target.category t) = true.

(** White space at the end of a line, such as the carriage return of a
    file with CRLF line ends. *)
Definition linePadding (pad : string) : bool :=
  allChars (fun c => isSpace c && fieldChar c) pad.

Definition renderRow (pad : string) (t : Target.TargetData) : string :=
  String.append (Target.filename t)
    (String TargetsCsv.comma (String.append (Target.category t) pad)).

Fixpoint renderRows (pad : string) (targets : list Target.TargetData) (final : string)
    : string :=
  match targets with
  | [] => final
  | t :: rest =>
      String TargetsCsv.newline
        (String.append (renderRow pad t) (renderRows pad rest final))
  end.

(** A CSV file of labels: the header, then one line per label, with or
    without a line feed after the last line. *)
Definition renderCsv (pad : string) (finalNewline : bool)
    (targets : list Target.TargetData) : string :=
  String.append (String.append "file_name,category" pad)
    (renderRows pad targets
       (if finalNewline then String TargetsCsv.newline EmptyString else EmptyString)).

Definition rowOf (t : Target.TargetData) : TargetsCsv.Row :=
  {| TargetsCsv.filename := Some (Target.filename t);
     TargetsCsv.category := Some (Target.category t) |}.

(** A word with a finite, strictly positive value. *)
Definition positiveWord (w : WordCloudWord) : Prop :=
  exists q, value w = Fin q /\ (0 < q)%Q.

(** A drawn word whose font size lies in (12, 32] and whose opacity lies in
    (0.6, 1]. *)
Definition withinBounds (s : WordCloudView.Styled) : Prop :=
  exists size alpha,
    WordCloudView.fontSize s = Fin size /\ (12 < size)%Q /\ (size <= 32)%Q
    /\ WordCloudView.opacity s = Fin alpha /\ (6 # 10 < alpha)%Q /\ (alpha <= 1)%Q.

Definition sampleWords : list WordCloudWord :=
  [ {| text := "clause"; value := ofZ 2 |};
    {| text := "party"; value := ofZ 4 |};
    {| text := "terms"; value := ofZ 1 |} ].

(** A number between 0 and 1. *)
Definition isProbability (a : num) : Prop :=
  exists q, a = Fin q /\ (0 <= q)%Q /\ (q <= 1)%Q.

(** A document whose confidences are probabilities. *)
Definition probabilityDoc (doc : DocumentType) : Prop :=
  finiteDoc doc /\ Forall (fun e => isProbability (snd e)) (entriesOf doc).

(** * Properties *)

(** ** Arithmetic of the number model *)

Lemma Qred_idem q : Qred (Qred q) = Qred q.
Proof. apply Qred_complete, Qred_correct. Qed.

Lemma fin_eq p q : (p == q)%Q -> fin p = fin q.
Proof. intros H. unfold fin. f_equal. now apply Qred_complete. Qed.

Lemma fin_of_canon q : Qred q = q -> fin q = Fin q.
Proof. intros H. unfold fin. now rewrite H. Qed.

Lemma add_finite a b : finite a -> finite b -> finite (add a b).
Proof. destruct a, b; simpl; intros; try discriminate; reflexivity. Qed.


Lemma add_canon a b : canon (add a b).
Proof. destruct a, b; simpl; auto using Qred_idem. Qed.


Lemma isZeroQ_ofNat n : isZeroQ (Z.of_nat (S n) # 1) = false.
Proof. reflexivity. Qed.




(** ** Arrays *)







(** ** Lemmas on performPCA *)


















(** The divisor of the covariance entries is positive from two rows on. *)
Lemma covDivisor_positive (centeredData : matrix) :
  2 <= length centeredData ->
  exists d, covDivisor centeredData = Fin d /\ (0 < d)%Q.
Proof.
  intros Hlen. unfold covDivisor. simpl. eexists; split; [reflexivity|].
  rewrite Qred_correct. unfold Qlt, Qminus, Qplus; simpl. lia.
Qed.

Lemma centerData_length data mean : length (centerData data mean) = length data.
Proof. unfold centerData. apply length_map. Qed.

(** ** Lemmas on the statistics of fetchData *)

Lemma entry_fold prediction : forall st,
  let st' := fold_left entryStep prediction st in
  (topCategory st', topConfidence st')
    = fold_left statsTopStep prediction (topCategory st, topConfidence st)
  /\ scores st' = fold_left addTo (List.filter validEntry prediction) (scores st)
  /\ occurrences st'
     = fold_left (fun m k => bump k m) (map fst (List.filter validEntry prediction))
                 (occurrences st).
Proof.
  induction prediction as [|[category confidence] p IH]; intros st; cbv zeta.
  - simpl; auto.
  - cbn [fold_left].
    destruct (IH (entryStep st (category, confidence))) as (H1 & H2 & H3).
    cbv zeta in H1, H2, H3. rewrite H1, H2, H3. clear IH H1 H2 H3.
    cbn [List.filter]. unfold entryStep, statsTopStep, validEntry. cbn [fst snd].
    destruct (includes VALID_CATEGORIES category); cbn [andb map fold_left fst];
      [|auto].
    destruct (gtb confidence (topConfidence st)); auto.
Qed.

(** One step of the loop over the documents, field by field. *)
Lemma docStep_fields a doc :
  counts (docStep a doc) = bump (topOfDoc doc) (counts a)
  /\ totalScores (docStep a doc)
     = fold_left addTo (List.filter validEntry (entriesOf doc)) (totalScores a)
  /\ categoryOccurrences (docStep a doc)
     = fold_left (fun m k => bump k m) (map fst (List.filter validEntry (entriesOf doc)))
                 (categoryOccurrences a)
  /\ totalSizes (docStep a doc) = fold_left addTo (sizeTerm doc) (totalSizes a)
  /\ totalLengths (docStep a doc) = fold_left addTo (lengthTerm doc) (totalLengths a)
  /\ featureVectors (docStep a doc)
     = featureVectors a ++ [featureVector (entriesOf doc)]
  /\ docCategories (docStep a doc) = docCategories a ++ [topOfDoc doc]
  /\ docFilenames (docStep a doc) = docFilenames a ++ [displayName doc].
Proof.
  assert (Hsize : forall c, addSize doc c (totalSizes a)
                  = fold_left addTo
                      (match size doc with
                       | Some s => if truthy s then [(c, div s (ofZ 1024))] else []
                       | None => []
                       end) (totalSizes a)).
  { intros c. unfold addSize. destruct (size doc) as [s|]; [|reflexivity].
    destruct (truthy s); reflexivity. }
  assert (Hlen : forall c, addLength doc c (totalLengths a)
                 = fold_left addTo
                     (match content doc with
                      | Some s => if nonEmptyString s
                                  then [(c, ofNat (String.length s))] else []
                      | None => []
                      end) (totalLengths a)).
  { intros c. unfold addLength. destruct (content doc) as [s|]; [|reflexivity].
    destruct (nonEmptyString s); reflexivity. }
  unfold docStep, topOfDoc, statsTop, sizeTerm, lengthTerm, topOfDoc, statsTop, entriesOf.
  destruct (category_prediction doc) as [[|e p]|]; simpl fold_left at 1.
  - cbn [counts totalScores categoryOccurrences totalSizes totalLengths
         featureVectors docCategories docFilenames List.filter map fold_left fst].
    rewrite Hsize, Hlen. repeat split; reflexivity.
  - set (st0 := {| topCategory := "Other"; topConfidence := zero;
                   scores := totalScores a;
                   occurrences := categoryOccurrences a |}).
    destruct (entry_fold (e :: p) st0) as (H1 & H2 & H3). cbv zeta in *.
    cbn [counts totalScores categoryOccurrences totalSizes totalLengths
         featureVectors docCategories docFilenames].
    assert (Ht : topCategory (fold_left entryStep (e :: p) st0)
                 = fst (fold_left statsTopStep (e :: p) ("Other"%string, zero))).
    { change ("Other"%string, zero) with (topCategory st0, topConfidence st0).
      rewrite <- H1. reflexivity. }
    cbn [fold_left] in Ht, H2, H3 |- *.
    rewrite Ht, H2, H3, Hsize, Hlen. repeat split; reflexivity.
  - cbn [counts totalScores categoryOccurrences totalSizes totalLengths
         featureVectors docCategories docFilenames List.filter map fold_left fst].
    rewrite Hsize, Hlen. repeat split; reflexivity.
Qed.

Lemma accumulate_fields docs : forall a,
  let a' := fold_left docStep docs a in
  counts a' = fold_left (fun m k => bump k m) (map topOfDoc docs) (counts a)
  /\ totalScores a'
     = fold_left addTo (List.filter validEntry (flat_map entriesOf docs)) (totalScores a)
  /\ categoryOccurrences a'
     = fold_left (fun m k => bump k m)
                 (map fst (List.filter validEntry (flat_map entriesOf docs)))
                 (categoryOccurrences a)
  /\ totalSizes a' = fold_left addTo (flat_map sizeTerm docs) (totalSizes a)
  /\ totalLengths a' = fold_left addTo (flat_map lengthTerm docs) (totalLengths a)
  /\ featureVectors a'
     = featureVectors a ++ map (fun doc => featureVector (entriesOf doc)) docs
  /\ docCategories a' = docCategories a ++ map topOfDoc docs
  /\ docFilenames a' = docFilenames a ++ map displayName docs.
Proof.
  induction docs as [|doc docs IH]; intros a; cbv zeta.
  - simpl. rewrite !app_nil_r. repeat split; reflexivity.
  - cbn [fold_left map flat_map].
    destruct (IH (docStep a doc)) as (H1 & H2 & H3 & H4 & H5 & H6 & H7 & H8).
    cbv zeta in H1, H2, H3, H4, H5, H6, H7, H8.
    destruct (docStep_fields a doc) as (E1 & E2 & E3 & E4 & E5 & E6 & E7 & E8).
    rewrite H1, H2, H3, H4, H5, H6, H7, H8, E1, E2, E3, E4, E5, E6, E7, E8.
    rewrite List.filter_app, map_app, !fold_left_app, <- !app_assoc.
    repeat split; reflexivity.
Qed.

Lemma orZero_good s : finite s -> canon s -> orZero (Some s) = s.
Proof.
  destruct s as [x| | |]; simpl; intros Hf Hc; try discriminate.
  destruct (isZeroQ x) eqn:E; simpl; [|reflexivity].
  unfold zero, ofZ. f_equal. rewrite <- Hc.
  destruct x as [n d]. unfold isZeroQ in E. simpl in E.
  destruct n; try discriminate. reflexivity.
Qed.

Lemma bump_lookup k (m : gmap string nat) c :
  bump k m !! c = if String.eqb k c then Some (S (default 0 (m !! c))) else m !! c.
Proof.
  unfold bump. destruct (String.eqb_spec k c) as [->|Hne].
  - apply lookup_insert_eq.
  - now apply lookup_insert_ne.
Qed.

Lemma addTo_lookup (m : gmap string num) e c :
  addTo m e !! c
  = if String.eqb (fst e) c then Some (add (orZero (m !! c)) (snd e)) else m !! c.
Proof.
  unfold addTo. destruct (String.eqb_spec (fst e) c) as [->|Hne].
  - apply lookup_insert_eq.
  - now apply lookup_insert_ne.
Qed.

(** Counting by repeated [m[k] = (m[k] || 0) + 1]. *)
Lemma bump_fold c keys : forall (m : gmap string nat) n,
  m !! c = Some n ->
  fold_left (fun m k => bump k m) keys m !! c = Some (n + countFor c keys).
Proof.
  unfold countFor.
  induction keys as [|k keys IH]; intros m n Hm; simpl.
  - now rewrite Nat.add_0_r.
  - rewrite (IH _ (if String.eqb k c then S n else n)).
    + rewrite (String.eqb_sym c k). destruct (String.eqb k c); simpl; f_equal; lia.
    + rewrite bump_lookup, Hm. destruct (String.eqb k c); reflexivity.
Qed.

(** Summing by repeated [m[k] = (m[k] || 0) + v], on finite numbers. *)
Lemma addTo_fold c contributions : forall (m : gmap string num) s,
  m !! c = Some s -> finite s -> canon s ->
  Forall (fun e => finite (snd e)) contributions ->
  let s' := fold_left (fun s e => if String.eqb (fst e) c then add s (snd e) else s)
                      contributions s in
  fold_left addTo contributions m !! c = Some s' /\ finite s' /\ canon s'.
Proof.
  induction contributions as [|e l IH]; intros m s Hm Hf Hc Hl; cbv zeta; simpl.
  - auto.
  - inversion Hl as [|? ? He Hl']; subst.
    apply IH; auto.
    + rewrite addTo_lookup, Hm. destruct (String.eqb (fst e) c); [|reflexivity].
      now rewrite orZero_good.
    + destruct (String.eqb (fst e) c); [now apply add_finite|assumption].
    + destruct (String.eqb (fst e) c); [apply add_canon|assumption].
Qed.

Lemma in_VALID c :
  In c VALID_CATEGORIES ->
  c = "Technical Documentation"%string \/ c = "Business Proposal"%string
  \/ c = "Legal Document"%string \/ c = "Academic Paper"%string
  \/ c = "General Article"%string \/ c = "Other"%string.
Proof.
  unfold VALID_CATEGORIES. simpl. intuition.
Qed.

Lemma initAcc_lookup c :
  In c VALID_CATEGORIES ->
  counts initAcc !! c = Some 0
  /\ totalScores initAcc !! c = Some zero
  /\ categoryOccurrences initAcc !! c = Some 0
  /\ totalSizes initAcc !! c = Some zero
  /\ totalLengths initAcc !! c = Some zero.
Proof.
  intros H. apply in_VALID in H.
  destruct H as [->|[->|[->|[->|[->| ->]]]]]; repeat split; reflexivity.
Qed.

Lemma averages_lookup f c :
  In c VALID_CATEGORIES -> averages f !! c = Some (f c).
Proof.
  intros H. apply in_VALID in H.
  destruct H as [->|[->|[->|[->|[->| ->]]]]]; reflexivity.
Qed.

Lemma includes_In l c : In c l -> includes l c = true.
Proof.
  intros H. unfold includes. apply existsb_exists. exists c. split; [assumption|].
  apply String.eqb_refl.
Qed.

Lemma valid_key c e :
  In c VALID_CATEGORIES -> validEntry e = false -> String.eqb (fst e) c = false.
Proof.
  intros Hc He. destruct (String.eqb_spec (fst e) c) as [Heq|]; [|reflexivity].
  unfold validEntry in He. rewrite Heq, (includes_In _ _ Hc) in He. discriminate.
Qed.

Lemma totalFor_valid c l : forall s,
  In c VALID_CATEGORIES ->
  fold_left (fun s e => if String.eqb (fst e) c then add s (snd e) else s)
            (List.filter validEntry l) s
  = fold_left (fun s e => if String.eqb (fst e) c then add s (snd e) else s) l s.
Proof.
  induction l as [|e l IH]; intros s Hc; simpl; [reflexivity|].
  destruct (validEntry e) eqn:E; simpl.
  - now apply IH.
  - rewrite (valid_key c e Hc E). now apply IH.
Qed.

Lemma countFor_valid c l :
  In c VALID_CATEGORIES ->
  countFor c (map fst (List.filter validEntry l)) = countFor c (map fst l).
Proof.
  intros Hc. unfold countFor.
  induction l as [|e l IH]; simpl; [reflexivity|].
  destruct (validEntry e) eqn:E; simpl.
  - destruct (String.eqb c (fst e)); simpl; now rewrite IH.
  - rewrite String.eqb_sym, (valid_key c e Hc E). exact IH.
Qed.

Lemma Forall_flat_map {A B : Type} (P : B -> Prop) (f : A -> list B) (l : list A) :
  (forall x, In x l -> Forall P (f x)) -> Forall P (flat_map f l).
Proof.
  induction l as [|x l IH]; intros H; simpl; [constructor|].
  apply Forall_app. split; [apply H; left; reflexivity|].
  apply IH. intros; apply H; right; assumption.
Qed.

Lemma sizeTerm_finite doc : finiteDoc doc -> Forall (fun e => finite (snd e)) (sizeTerm doc).
Proof.
  intros [Hs _]. unfold sizeTerm. destruct (size doc) as [s|]; [|constructor].
  destruct (truthy s); [|constructor]. constructor; [|constructor].
  specialize (Hs s eq_refl). destruct s; try discriminate. reflexivity.
Qed.

Lemma lengthTerm_finite doc : Forall (fun e => finite (snd e)) (lengthTerm doc).
Proof.
  unfold lengthTerm. destruct (content doc) as [s|]; [|constructor].
  destruct (nonEmptyString s); constructor; [reflexivity|constructor].
Qed.

Lemma Forall_filter {A : Type} (P : A -> Prop) (f : A -> bool) (l : list A) :
  Forall P l -> Forall P (List.filter f l).
Proof.
  induction 1 as [|x l Hx Hl IH]; simpl; [constructor|].
  destruct (f x); [constructor|]; assumption.
Qed.

(** [performPCA] is only reached with a row to read. *)
Lemma pcaStep_cases featureVectors :
  (length featureVectors < 2 /\ pcaStep featureVectors = PcaNotRun)
  \/ (2 <= length featureVectors
      /\ exists reducedData,
           performPCA featureVectors = Some reducedData
           /\ pcaStep featureVectors
              = PcaPoints (map (fun coords => (at_ coords 0, at_ coords 1)) reducedData)).
Proof.
  unfold pcaStep. destruct (2 <=? length featureVectors) eqn:E.
  - right. apply Nat.leb_le in E. split; [exact E|].
    destruct featureVectors as [|row0 rest]; [simpl in E; lia|].
    eexists. split; reflexivity.
  - left. apply Nat.leb_gt in E. auto.
Qed.

Lemma fetchData_report docs :
  exists report,
    fetchData docs = Some report
    /\ categoryCounts report = counts (accumulate docs)
    /\ categoryAverageScores report = averages (avgScore (accumulate docs))
    /\ categoryAverageSizes report
       = averages (avgOver (accumulate docs) (totalSizes (accumulate docs)))
    /\ categoryAverageLengths report
       = averages (avgOver (accumulate docs) (totalLengths (accumulate docs))).
Proof.
  unfold fetchData.
  destruct (pcaStep_cases (featureVectors (accumulate docs)))
    as [[_ ->]|[_ (reduced & _ & ->)]]; eexists; repeat split.
Qed.


(** The accumulated maps at a valid category. *)
Lemma accumulate_lookup docs c :
  Forall finiteDoc docs -> In c VALID_CATEGORIES ->
  let a := accumulate docs in
  counts a !! c = Some (topCount c docs)
  /\ categoryOccurrences a !! c = Some (occurrenceCount c docs)
  /\ totalScores a !! c = Some (scoreTotal c docs)
  /\ totalSizes a !! c = Some (sizeTotal c docs)
  /\ totalLengths a !! c = Some (lengthTotal c docs)
  /\ finite (scoreTotal c docs) /\ finite (sizeTotal c docs)
  /\ finite (lengthTotal c docs).
Proof.
  intros Hfin Hc. cbv zeta. unfold accumulate.
  destruct (accumulate_fields docs initAcc) as (H1 & H2 & H3 & H4 & H5 & _).
  cbv zeta in H1, H2, H3, H4, H5. rewrite H1, H2, H3, H4, H5.
  destruct (initAcc_lookup c Hc) as (I1 & I2 & I3 & I4 & I5).
  rewrite List.Forall_forall in Hfin.
  assert (Hscores : Forall (fun e => finite (snd e))
                           (List.filter validEntry (flat_map entriesOf docs))).
  { apply Forall_filter, Forall_flat_map. intros d Hd. apply (Hfin d Hd). }
  assert (Hsizes : Forall (fun e => finite (snd e)) (flat_map sizeTerm docs)).
  { apply Forall_flat_map. intros d Hd. apply sizeTerm_finite, (Hfin d Hd). }
  assert (Hlens : Forall (fun e => finite (snd e)) (flat_map lengthTerm docs)).
  { apply Forall_flat_map. intros d Hd. apply lengthTerm_finite. }
  destruct (addTo_fold c _ _ zero I2 eq_refl eq_refl Hscores) as (S1 & S2 & _).
  destruct (addTo_fold c _ _ zero I4 eq_refl eq_refl Hsizes) as (Z1 & Z2 & _).
  destruct (addTo_fold c _ _ zero I5 eq_refl eq_refl Hlens) as (L1 & L2 & _).
  cbv zeta in S1, S2, Z1, Z2, L1, L2.
  rewrite totalFor_valid in S1, S2 by assumption.
  rewrite (bump_fold c _ _ 0 I1), (bump_fold c _ _ 0 I3).
  rewrite countFor_valid by assumption.
  unfold topCount, occurrenceCount, scoreTotal, sizeTotal, lengthTotal, totalFor.
  rewrite S1, Z1, L1. repeat split; assumption.
Qed.

Lemma accumulate_counts docs c :
  In c VALID_CATEGORIES -> counts (accumulate docs) !! c = Some (topCount c docs).
Proof.
  intros Hc. unfold accumulate.
  destruct (accumulate_fields docs initAcc) as (H1 & _). cbv zeta in H1.
  destruct (initAcc_lookup c Hc) as (I1 & _).
  rewrite H1, (bump_fold c _ _ 0 I1). reflexivity.
Qed.

Lemma avgOver_average a totals c n total :
  counts a !! c = Some n -> totals !! c = Some total ->
  avgOver a totals c = average total n.
Proof.
  intros Hn Ht. unfold avgOver, average. rewrite Hn, Ht.
  destruct n; reflexivity.
Qed.

Lemma avgScore_average a c n total :
  categoryOccurrences a !! c = Some n -> totalScores a !! c = Some total ->
  avgScore a c = average total n.
Proof.
  intros Hn Ht. unfold avgScore, average. rewrite Hn, Ht.
  destruct n; reflexivity.
Qed.

(** ** The order on finite numbers *)

Lemma gtb_fin x y : gtb (Fin x) (Fin y) = true <-> (y < x)%Q.
Proof.
  simpl. rewrite negb_true_iff. split; intros H.
  - apply Qnot_le_lt. intros Hle. apply Qle_bool_iff in Hle. congruence.
  - destruct (Qle_bool x y) eqn:E; [|reflexivity].
    apply Qle_bool_iff in E. exfalso. apply (Qlt_not_le _ _ H E).
Qed.

Lemma gtb_fin_false x y : gtb (Fin x) (Fin y) = false <-> (x <= y)%Q.
Proof.
  simpl. rewrite negb_false_iff. apply Qle_bool_iff.
Qed.

Lemma gtb_trans a b c :
  finite a -> finite b -> finite c ->
  gtb a b = true -> gtb b c = true -> gtb a c = true.
Proof.
  destruct a as [x| | |], b as [y| | |], c as [z| | |]; intros; try discriminate.
  rewrite gtb_fin in *. eapply Qlt_trans; eassumption.
Qed.

Lemma gtb_above a b c :
  finite a -> finite b -> finite c ->
  gtb a b = true -> gtb c b = false -> gtb a c = true.
Proof.
  destruct a as [x| | |], b as [y| | |], c as [z| | |]; intros Ha Hb Hc H1 H2;
    try discriminate.
  rewrite gtb_fin in *. rewrite gtb_fin_false in H2.
  eapply Qle_lt_trans; eassumption.
Qed.

(** ** The loop that keeps the entry of highest confidence *)

Lemma pick_fold valid l : forall c0 v0,
  finite v0 -> Forall (fun e => finite (snd e)) l ->
  (fold_left (pickStep valid) l (c0, v0) = (c0, v0)
   /\ forall e, In e l -> valid e = true -> gtb (snd e) v0 = false)
  \/ exists pre c v post,
       l = pre ++ (c, v) :: post
       /\ fold_left (pickStep valid) l (c0, v0) = (c, v)
       /\ valid (c, v) = true
       /\ gtb v v0 = true
       /\ (forall e, In e pre -> valid e = true -> gtb v (snd e) = true)
       /\ (forall e, In e post -> valid e = true -> gtb (snd e) v = false).
Proof.
  induction l as [|[c1 v1] t IH]; intros c0 v0 Hv0 Hl; cbn [fold_left].
  - left. split; [reflexivity|]. intros e [].
  - inversion Hl as [|? ? Hv1 Ht]; subst. cbn [snd] in Hv1.
    unfold pickStep at 2 4. cbn [snd].
    destruct (valid (c1, v1) && gtb v1 v0) eqn:E.
    + apply andb_true_iff in E. destruct E as [Evalid Egt].
      right. destruct (IH c1 v1 Hv1 Ht) as [[Hsame Hno]|(pre & c & v & post & Hsplit & Hres & Hval & Hgt & Hpre & Hpost)].
      * exists [], c1, v1, t. repeat split; auto; try (intros e []).
      * assert (Hv : finite v).
        { rewrite List.Forall_forall in Ht. apply (Ht (c, v)).
          rewrite Hsplit. apply in_or_app. right. left. reflexivity. }
        exists ((c1, v1) :: pre), c, v, post. repeat split; auto.
        -- rewrite Hsplit. reflexivity.
        -- apply (gtb_trans v v1 v0); assumption.
        -- intros e [<-|Hin] He; [exact Hgt|auto].
    + destruct (IH c0 v0 Hv0 Ht) as [[Hsame Hno]|(pre & c & v & post & Hsplit & Hres & Hval & Hgt & Hpre & Hpost)].
      * left. split; [exact Hsame|]. intros e [<-|Hin] He; [|auto].
        rewrite He in E. exact E.
      * assert (Hv : finite v).
        { rewrite List.Forall_forall in Ht. apply (Ht (c, v)).
          rewrite Hsplit. apply in_or_app. right. left. reflexivity. }
        right. exists ((c1, v1) :: pre), c, v, post. repeat split; auto.
        -- rewrite Hsplit. reflexivity.
        -- intros e [<-|Hin] He; [|auto]. cbn [snd].
           rewrite He in E. cbn [andb] in E.
           apply (gtb_above v v0 v1); assumption.
Qed.

(** The name the loop starts from matters only when no entry is picked. *)
Lemma pick_default valid l : forall d1 d2 v0,
  (fold_left (pickStep valid) l (d1, v0) = (d1, v0)
   /\ fold_left (pickStep valid) l (d2, v0) = (d2, v0))
  \/ fold_left (pickStep valid) l (d1, v0) = fold_left (pickStep valid) l (d2, v0).
Proof.
  induction l as [|e t IH]; intros d1 d2 v0; cbn [fold_left].
  - left. split; reflexivity.
  - unfold pickStep at 2 4 6 8. cbn [snd].
    destruct (valid e && gtb (snd e) v0).
    + right. reflexivity.
    + apply IH.
Qed.

Lemma statsTopStep_pick : statsTopStep = pickStep validEntry.
Proof. reflexivity. Qed.

Lemma topStep_pick st e : DocumentList.topStep st e = pickStep (fun _ => true) st e.
Proof. destruct e. reflexivity. Qed.

Lemma fold_topStep_pick l : forall st,
  fold_left DocumentList.topStep l st = fold_left (pickStep (fun _ => true)) l st.
Proof.
  induction l as [|e l IH]; intros st; simpl; [reflexivity|].
  rewrite topStep_pick. apply IH.
Qed.

(** ** C1: the top category *)

(** C1, as stated, fails: on [tiedDocument] "Business Proposal" and "Legal
    Document" share the highest confidence and "Business Proposal" is declared
    first in the registry, yet the statistics, the document list and the
    accuracy comparison all report "Legal Document", the first of the two in
    the mapping. *)
Lemma tie_follows_mapping_order :
  registryArgmax VALID_CATEGORIES (entriesOf tiedDocument)
    = Some "Business Proposal"%string
  /\ reported categoryCounts "Legal Document" [tiedDocument] = Some 1
  /\ reported categoryCounts "Business Proposal" [tiedDocument] = Some 0
  /\ DocumentList.topCategory tiedDocument = ("Legal Document"%string, Fin (1 # 4))
  /\ Accuracy.predictedCategory (entriesOf tiedDocument) = "Legal Document"%string.
Proof. repeat split; vm_compute; reflexivity. Qed.

(** C1, amended: for a document whose confidences are finite and whose
    mapping gives a positive confidence to some registered category, the top
    category is an entry of highest confidence, and among entries of equal
    confidence the first one in the order of the mapping wins.  The
    statistics look at the registered categories only; the document list and
    the accuracy comparison look at every entry. *)
Theorem top_category_first_maximal_entry (doc : DocumentType)
    (prediction : list (string * num)) :
  category_prediction doc = Some prediction ->
  Forall (fun e => finite (snd e)) prediction ->
  Exists (fun e => validEntry e = true /\ gtb (snd e) zero = true) prediction ->
  (exists pre c v post,
      prediction = pre ++ (c, v) :: post
      /\ validEntry (c, v) = true
      /\ (forall e, In e pre -> validEntry e = true -> gtb v (snd e) = true)
      /\ (forall e, In e post -> validEntry e = true -> gtb (snd e) v = false)
      /\ forall a, counts (docStep a doc) = bump c (counts a)
                   /\ docCategories (docStep a doc) = docCategories a ++ [c])
  /\ (exists pre c v post,
      prediction = pre ++ (c, v) :: post
      /\ (forall e, In e pre -> gtb v (snd e) = true)
      /\ (forall e, In e post -> gtb (snd e) v = false)
      /\ DocumentList.topCategory doc = (c, v)
      /\ Accuracy.predictedCategory prediction = c).
Proof.
  intros Hpred Hfin Hex.
  apply List.Exists_exists in Hex. destruct Hex as (e0 & Hin0 & Hvalid0 & Hpos0).
  split.
  - destruct (pick_fold validEntry prediction "Other"%string zero eq_refl Hfin)
      as [[_ Hno]|(pre & c & v & post & Hsplit & Hres & Hval & _ & Hpre & Hpost)].
    + rewrite (Hno e0 Hin0 Hvalid0) in Hpos0. discriminate.
    + exists pre, c, v, post. repeat split; auto.
      * destruct (docStep_fields a doc) as (E1 & _). rewrite E1.
        unfold topOfDoc, statsTop, entriesOf. rewrite Hpred, statsTopStep_pick, Hres.
        reflexivity.
      * destruct (docStep_fields a doc) as (_ & _ & _ & _ & _ & _ & E7 & _).
        rewrite E7. unfold topOfDoc, statsTop, entriesOf.
        rewrite Hpred, statsTopStep_pick, Hres. reflexivity.
  - rewrite List.Forall_forall in Hfin.
    destruct (pick_fold (fun _ => true) prediction "Unclassified"%string zero eq_refl
                ltac:(apply List.Forall_forall; exact Hfin))
      as [[_ Hno]|(pre & c & v & post & Hsplit & Hres & _ & Hgt & Hpre & Hpost)].
    + rewrite (Hno e0 Hin0 eq_refl) in Hpos0. discriminate.
    + exists pre, c, v, post. repeat split; auto.
      * unfold DocumentList.topCategory. rewrite Hpred, fold_topStep_pick. exact Hres.
      * unfold Accuracy.predictedCategory. rewrite fold_topStep_pick.
        destruct (pick_default (fun _ => true) prediction
                    "Other"%string "Unclassified"%string zero) as [[_ Hsame]|Heq].
        -- rewrite Hres in Hsame. injection Hsame as _ Hv. subst v.
           vm_compute in Hgt. discriminate.
        -- rewrite Heq, Hres. reflexivity.
Qed.

Lemma top_category_first_maximal_entry_witness :
  exists pre c v post,
    entriesOf tiedDocument = pre ++ (c, v) :: post
    /\ (forall e, In e pre -> gtb v (snd e) = true)
    /\ (forall e, In e post -> gtb (snd e) v = false)
    /\ DocumentList.topCategory tiedDocument = (c, v)
    /\ Accuracy.predictedCategory (entriesOf tiedDocument) = c.
Proof.
  refine (proj2 (top_category_first_maximal_entry tiedDocument
                   (entriesOf tiedDocument) eq_refl _ _)).
  - repeat constructor.
  - apply Exists_cons_hd. split; reflexivity.
Defined.

(** ** C2: counts and averages per category *)




(** ** C5: documents without a classification *)

(** C5, as stated, fails: [unclassifiedDocument] has no classification, yet it
    is counted under "Other" and its size enters the average size of
    "Other"; nothing is skipped and the report has no count of skipped
    records. *)
Lemma unclassified_document_counted_as_other :
  hasPrediction unclassifiedDocument = false
  /\ reported categoryCounts "Other" [] = Some 0
  /\ reported categoryCounts "Other" [unclassifiedDocument] = Some 1
  /\ reported categoryAverageSizes "Other" [unclassifiedDocument] = Some one.
Proof. repeat split; vm_compute; reflexivity. Qed.

Lemma countFor_app c l1 l2 : countFor c (l1 ++ l2) = countFor c l1 + countFor c l2.
Proof. unfold countFor. now rewrite List.filter_app, length_app. Qed.

Lemma topOfDoc_unclassified doc : hasPrediction doc = false -> topOfDoc doc = "Other"%string.
Proof.
  unfold hasPrediction, topOfDoc, statsTop, entriesOf.
  destruct (category_prediction doc) as [[|e p]|]; intros H;
    [reflexivity|discriminate|reflexivity].
Qed.

Lemma totalFor_app c l1 l2 :
  totalFor c (l1 ++ l2)
  = fold_left (fun s e => if String.eqb (fst e) c then add s (snd e) else s)
              l2 (totalFor c l1).
Proof. unfold totalFor. apply fold_left_app. Qed.

(** C5, amended: a document whose classification is missing or empty is not
    skipped and does not abort the report: it is counted under "Other", the
    counts of the other categories are unchanged, and its row of the
    confidence matrix is the zero vector.  Its size in KB, when it has one,
    and the length of its text, when it has one, are added to the totals of
    "Other", whose averages are taken over one document more; the averages
    of the other categories are unchanged. *)
Theorem unclassified_counts_under_other (docs : list DocumentType)
    (doc : DocumentType) :
  hasPrediction doc = false ->
  exists report report',
    fetchData docs = Some report
    /\ fetchData (docs ++ [doc]) = Some report'
    /\ categoryCounts report !! "Other"%string = Some (topCount "Other" docs)
    /\ categoryCounts report' !! "Other"%string = Some (S (topCount "Other" docs))
    /\ (forall c, In c VALID_CATEGORIES -> c <> "Other"%string ->
          categoryCounts report' !! c = categoryCounts report !! c)
    /\ featureVectors (accumulate (docs ++ [doc]))
       = featureVectors (accumulate docs) ++ [map (fun _ => zero) VALID_CATEGORIES]
    /\ (Forall finiteDoc docs -> finiteDoc doc ->
        categoryAverageSizes report' !! "Other"%string
        = Some (div (match size doc with
                     | Some bytes =>
                         if truthy bytes
                         then add (sizeTotal "Other" docs) (div bytes (ofZ 1024))
                         else sizeTotal "Other" docs
                     | None => sizeTotal "Other" docs
                     end)
                    (ofNat (S (topCount "Other" docs))))
        /\ categoryAverageLengths report' !! "Other"%string
           = Some (div (match content doc with
                        | Some text =>
                            if nonEmptyString text
                            then add (lengthTotal "Other" docs)
                                     (ofNat (String.length text))
                            else lengthTotal "Other" docs
                        | None => lengthTotal "Other" docs
                        end)
                       (ofNat (S (topCount "Other" docs))))
        /\ forall c, In c VALID_CATEGORIES -> c <> "Other"%string ->
             categoryAverageSizes report' !! c = categoryAverageSizes report !! c
             /\ categoryAverageLengths report' !! c
                = categoryAverageLengths report !! c).
Proof.
  intros Hmissing.
  destruct (fetchData_report docs) as (report & Hr & R1 & _ & R3 & R4).
  destruct (fetchData_report (docs ++ [doc])) as (report' & Hr' & R1' & _ & R3' & R4').
  exists report, report'. rewrite R1, R1', R3, R3', R4, R4'.
  assert (Hother : In "Other"%string VALID_CATEGORIES)
    by (unfold VALID_CATEGORIES; simpl; tauto).
  assert (Htop := topOfDoc_unclassified doc Hmissing).
  assert (Hcount : topCount "Other" (docs ++ [doc]) = S (topCount "Other" docs)).
  { unfold topCount. rewrite map_app, countFor_app. simpl map. rewrite Htop.
    unfold countFor at 2. simpl. lia. }
  assert (Hcount' : forall c, c <> "Other"%string ->
            topCount c (docs ++ [doc]) = topCount c docs).
  { intros c Hne. unfold topCount. rewrite map_app, countFor_app. simpl map.
    rewrite Htop. unfold countFor at 2. simpl.
    destruct (String.eqb_spec c "Other"); [contradiction|]. simpl. lia. }
  split; [exact Hr|]. split; [exact Hr'|].
  split; [now apply accumulate_counts|].
  split; [rewrite accumulate_counts by assumption; now rewrite Hcount|].
  split; [intros c Hc Hne; rewrite !accumulate_counts by assumption;
          now rewrite Hcount'|].
  split.
  - unfold accumulate. rewrite fold_left_app. cbn [fold_left].
    destruct (docStep_fields (fold_left docStep docs initAcc) doc)
      as (_ & _ & _ & _ & _ & E6 & _).
    rewrite E6. f_equal. f_equal.
    unfold hasPrediction in Hmissing. unfold entriesOf.
    destruct (category_prediction doc) as [[|e p]|];
      [reflexivity|discriminate|reflexivity].
  - intros Hfin Hdoc.
    assert (Hall : Forall finiteDoc (docs ++ [doc]))
      by (apply Forall_app; split; [exact Hfin|constructor; [exact Hdoc|constructor]]).
    assert (Hsize : sizeTotal "Other" (docs ++ [doc])
              = match size doc with
                | Some bytes =>
                    if truthy bytes
                    then add (sizeTotal "Other" docs) (div bytes (ofZ 1024))
                    else sizeTotal "Other" docs
                | None => sizeTotal "Other" docs
                end).
    { unfold sizeTotal. rewrite flat_map_app, totalFor_app. cbn [flat_map].
      rewrite app_nil_r. unfold sizeTerm. rewrite Htop.
      destruct (size doc) as [bytes|]; [destruct (truthy bytes)|]; reflexivity. }
    assert (Hlength : lengthTotal "Other" (docs ++ [doc])
              = match content doc with
                | Some text =>
                    if nonEmptyString text
                    then add (lengthTotal "Other" docs) (ofNat (String.length text))
                    else lengthTotal "Other" docs
                | None => lengthTotal "Other" docs
                end).
    { unfold lengthTotal. rewrite flat_map_app, totalFor_app. cbn [flat_map].
      rewrite app_nil_r. unfold lengthTerm. rewrite Htop.
      destruct (content doc) as [text|]; [destruct (nonEmptyString text)|]; reflexivity. }
    assert (Hrest : forall c, c <> "Other"%string ->
              sizeTotal c (docs ++ [doc]) = sizeTotal c docs
              /\ lengthTotal c (docs ++ [doc]) = lengthTotal c docs).
    { intros c Hne. unfold sizeTotal, lengthTotal.
      rewrite !flat_map_app, !totalFor_app. cbn [flat_map]. rewrite !app_nil_r.
      unfold sizeTerm, lengthTerm. rewrite Htop.
      assert (E : String.eqb "Other" c = false)
        by (apply String.eqb_neq; congruence).
      split.
      - destruct (size doc) as [bytes|]; [destruct (truthy bytes)|];
          cbn [fold_left fst]; rewrite ?E; reflexivity.
      - destruct (content doc) as [text|]; [destruct (nonEmptyString text)|];
          cbn [fold_left fst]; rewrite ?E; reflexivity. }
    destruct (accumulate_lookup (docs ++ [doc]) "Other" Hall Hother)
      as (A1 & _ & _ & A4 & A5 & _).
    cbv zeta in A1, A4, A5.
    rewrite !averages_lookup by assumption.
    rewrite (avgOver_average _ _ _ _ _ A1 A4), (avgOver_average _ _ _ _ _ A1 A5).
    rewrite Hcount, Hsize, Hlength. unfold average. cbn [Nat.eqb].
    split; [reflexivity|]. split; [reflexivity|].
    intros c Hc Hne.
    destruct (accumulate_lookup (docs ++ [doc]) c Hall Hc)
      as (B1 & _ & _ & B4 & B5 & _).
    destruct (accumulate_lookup docs c Hfin Hc) as (C1 & _ & _ & C4 & C5 & _).
    cbv zeta in B1, B4, B5, C1, C4, C5.
    rewrite !averages_lookup by assumption.
    rewrite (avgOver_average _ _ _ _ _ B1 B4), (avgOver_average _ _ _ _ _ B1 B5).
    rewrite (avgOver_average _ _ _ _ _ C1 C4), (avgOver_average _ _ _ _ _ C1 C5).
    destruct (Hrest c Hne) as [-> ->]. rewrite (Hcount' c Hne).
    split; reflexivity.
Qed.

Lemma unclassified_counts_under_other_witness :
  exists report',
    fetchData ([tiedDocument; unclassifiedDocument] ++ [unratedMemo]) = Some report'
    /\ categoryCounts report' !! "Other"%string = Some 2
    /\ categoryAverageSizes report' !! "Other"%string
       = Some (div (add one (div (ofZ 2048) (ofZ 1024))) (ofZ 2))
    /\ categoryAverageLengths report' !! "Other"%string
       = Some (div (add zero (ofZ 4)) (ofZ 2)).
Proof.
  destruct (unclassified_counts_under_other
              [tiedDocument; unclassifiedDocument] unratedMemo eq_refl)
    as (report & report' & _ & Hr' & _ & Hcount & _ & _ & Haverages).
  exists report'. split; [exact Hr'|]. split; [exact Hcount|].
  destruct Haverages as (Hsizes & Hlengths & _).
  - repeat constructor; simpl; intros s H; try injection H as <-;
      try discriminate; reflexivity.
  - repeat constructor; simpl; intros s H; injection H as <-; reflexivity.
  - split; [exact Hsizes|exact Hlengths].
Defined.

(** ** C9, C10, C4: the projection *)








(** C10: [performPCA] itself has no guard, it raises on the empty matrix and
    divides by zero on a single row; but whenever the call site in
    [fetchData] invokes it there are at least two rows, so [data[0]] exists,
    the call returns, and the divisor [rows - 1] of the covariance entries is
    positive. *)
Theorem performPCA_guarded_by_call_site (featureVectors : matrix) :
  pcaStep featureVectors <> PcaNotRun ->
  2 <= length featureVectors
  /\ (exists reducedData,
        performPCA featureVectors = Some reducedData
        /\ pcaStep featureVectors
           = PcaPoints (map (fun coords => (at_ coords 0, at_ coords 1)) reducedData))
  /\ (exists d,
        covDivisor (centerData featureVectors
                      (columnMeans featureVectors (length (hd [] featureVectors))))
        = Fin d /\ (0 < d)%Q)
  /\ performPCA [] = None
  /\ covDivisor (centerData [[one; zero]] (columnMeans [[one; zero]] 2)) = zero
  /\ covarianceMatrix (centerData [[one; zero]] (columnMeans [[one; zero]] 2)) 2
     = [[NaN; NaN]; [NaN; NaN]].
Proof.
  intros Hrun.
  destruct (pcaStep_cases featureVectors) as [[_ Hnot]|[Hlen Hpca]]; [contradiction|].
  repeat split; auto.
  apply covDivisor_positive. now rewrite centerData_length.
Qed.

Lemma performPCA_guarded_by_call_site_witness :
  2 <= length twoDocumentMatrix
  /\ (exists reducedData,
        performPCA twoDocumentMatrix = Some reducedData
        /\ pcaStep twoDocumentMatrix
           = PcaPoints (map (fun coords => (at_ coords 0, at_ coords 1)) reducedData))
  /\ (exists d,
        covDivisor (centerData twoDocumentMatrix
                      (columnMeans twoDocumentMatrix (length (hd [] twoDocumentMatrix))))
        = Fin d /\ (0 < d)%Q)
  /\ performPCA [] = None
  /\ covDivisor (centerData [[one; zero]] (columnMeans [[one; zero]] 2)) = zero
  /\ covarianceMatrix (centerData [[one; zero]] (columnMeans [[one; zero]] 2)) 2
     = [[NaN; NaN]; [NaN; NaN]].
Proof.
  apply (performPCA_guarded_by_call_site twoDocumentMatrix).
  vm_compute. discriminate.
Defined.




(** ** C3: accuracy against the reference labels *)

Lemma accuracy_docStep targets st doc :
  Accuracy.docStep targets st doc
  = match labelOf targets doc with
    | Some t => pairStep st (doc, t)
    | None => st
    end.
Proof.
  unfold Accuracy.docStep, labelOf, pairStep, isCorrect, entriesOf.
  destruct (category_prediction doc) as [prediction|] eqn:Ep; [|reflexivity].
  destruct (nonEmptyString (filename doc)); [|reflexivity]. cbn [negb].
  destruct (Target.findTarget targets (Target.stripExt (filename doc)));
    [cbn [fst snd]; rewrite Ep|]; reflexivity.
Qed.

Lemma accuracy_fold targets docs : forall st,
  fold_left (Accuracy.docStep targets) docs st
  = fold_left pairStep (labelled targets docs) st.
Proof.
  induction docs as [|doc docs IH]; intros st; [reflexivity|].
  cbn [fold_left]. unfold labelled. cbn [flat_map]. rewrite fold_left_app.
  rewrite accuracy_docStep, IH. unfold labelled.
  destruct (labelOf targets doc); reflexivity.
Qed.

Lemma touch_lookup f k (m : gmap string Accuracy.CategoryStat) c :
  Accuracy.touch f k m !! c = if String.eqb k c then f <$> (m !! c) else m !! c.
Proof.
  unfold Accuracy.touch. destruct (String.eqb_spec k c) as [->|Hne].
  - destruct (m !! c) eqn:E; [|now rewrite E].
    now rewrite lookup_insert_eq.
  - destruct (m !! k); [|reflexivity]. now apply lookup_insert_ne.
Qed.

Lemma pair_fold c pairs : forall st nc nt p,
  Accuracy.categoryStats st !! c
    = Some {| Accuracy.correct := nc; Accuracy.total := nt; Accuracy.percentage := p |} ->
  let st' := fold_left pairStep pairs st in
  Accuracy.correctPredictions st'
    = Accuracy.correctPredictions st + countIf isCorrect pairs
  /\ Accuracy.totalLabeledDocs st' = Accuracy.totalLabeledDocs st + length pairs
  /\ Accuracy.categoryStats st' !! c
     = Some {| Accuracy.correct :=
                 nc + countIf (fun x => hasLabel c x && isCorrect x) pairs;
               Accuracy.total := nt + countIf (hasLabel c) pairs;
               Accuracy.percentage := p |}.
Proof.
  unfold countIf.
  induction pairs as [|x pairs IH]; intros st nc nt p Hst; cbv zeta.
  - simpl. rewrite !Nat.add_0_r. auto.
  - cbn [fold_left List.filter].
    set (st1 := pairStep st x).
    assert (H1 : Accuracy.categoryStats st1 !! c
                 = Some {| Accuracy.correct :=
                             nc + (if hasLabel c x && isCorrect x then 1 else 0);
                           Accuracy.total := nt + (if hasLabel c x then 1 else 0);
                           Accuracy.percentage := p |}).
    { unfold st1, pairStep, hasLabel.
      destruct (isCorrect x); cbn [Accuracy.categoryStats];
        rewrite ?touch_lookup, Hst;
        destruct (String.eqb (Target.category (snd x)) c); simpl;
        rewrite ?Nat.add_0_r, ?Nat.add_1_r; reflexivity. }
    destruct (IH st1 _ _ _ H1) as (I1 & I2 & I3). cbv zeta in I1, I2, I3.
    rewrite I1, I2, I3.
    assert (E1 : Accuracy.correctPredictions st1
                 = Accuracy.correctPredictions st + (if isCorrect x then 1 else 0)).
    { unfold st1, pairStep. destruct (isCorrect x); simpl; lia. }
    assert (E2 : Accuracy.totalLabeledDocs st1 = S (Accuracy.totalLabeledDocs st)).
    { unfold st1, pairStep. destruct (isCorrect x); reflexivity. }
    rewrite E1, E2.
    destruct (isCorrect x), (hasLabel c x); simpl; repeat split;
      try lia; f_equal; f_equal; lia.
Qed.

Lemma initState_lookup c :
  In c VALID_CATEGORIES ->
  Accuracy.categoryStats Accuracy.initState !! c
  = Some {| Accuracy.correct := 0; Accuracy.total := 0; Accuracy.percentage := zero |}.
Proof.
  intros H. apply in_VALID in H.
  destruct H as [->|[->|[->|[->|[->| ->]]]]]; reflexivity.
Qed.

(** Stripping the extension of [base.ext] gives [base]. *)
Lemma extensionTail_append s ext :
  Target.extensionTail (String.append s (String "."%char ext)) = false.
Proof.
  induction s as [|c s IH]; simpl.
  - reflexivity.
  - rewrite IH. now rewrite !andb_false_r.
Qed.

Lemma stripExt_withExtension base ext :
  isExtension ext = true -> Target.stripExt (withExtension base ext) = base.
Proof.
  unfold isExtension, withExtension. intros H. apply andb_true_iff in H.
  destruct H as [Hne Htail].
  induction base as [|c base IH]; simpl.
  - unfold Target.isDot. simpl. rewrite Hne, Htail. reflexivity.
  - rewrite extensionTail_append, andb_false_r, IH. reflexivity.
Qed.

Lemma ratio_percent correct n :
  mul (div (ofNat correct) (ofNat (S n))) (ofZ 100) = percentOf correct (S n).
Proof.
  unfold percentOf, ofNat, ofZ, inject_Z. cbn [div mul].
  rewrite isZeroQ_ofNat. cbn [mul fin]. apply fin_eq.
  rewrite Qred_correct. reflexivity.
Qed.

Lemma percent_percentOf correct total :
  Accuracy.percent correct total
  = if Nat.eqb total 0 then zero else percentOf correct total.
Proof.
  unfold Accuracy.percent. destruct total as [|n]; [reflexivity|].
  cbn [Nat.ltb Nat.leb Nat.eqb]. apply ratio_percent.
Qed.

Lemma nonEmpty_withExtension base ext : nonEmptyString (withExtension base ext) = true.
Proof. destruct base; reflexivity. Qed.

(** The file names, by their last dot. *)
Lemma extensionTail_split t :
  match splitAtLastDot t with
  | Some _ => Target.extensionTail t = false
  | None => Target.extensionTail t = negb (hasSlash t)
  end.
Proof.
  induction t as [|c t IH]; cbn [splitAtLastDot Target.extensionTail hasSlash].
  - reflexivity.
  - unfold Target.isDot, Target.isSlash.
    destruct (splitAtLastDot t) as [[b e]|].
    + rewrite IH. apply andb_false_r.
    + rewrite IH. destruct (Ascii.eqb c "."); [reflexivity|].
      destruct (Ascii.eqb c "/"); reflexivity.
Qed.

Lemma stripExt_baseName name : Target.stripExt name = baseName name.
Proof.
  unfold baseName.
  induction name as [|c t IH]; cbn [Target.stripExt splitAtLastDot]; [reflexivity|].
  pose proof (extensionTail_split t) as Ht.
  destruct (splitAtLastDot t) as [[b e]|].
  - rewrite Ht, andb_false_r, IH. destruct e as [|c' e]; [reflexivity|].
    destruct (hasSlash (String c' e)); reflexivity.
  - rewrite IH. unfold Target.isDot. destruct (Ascii.eqb c ".").
    + rewrite Ht. destruct t as [|c' t']; [reflexivity|].
      cbn [nonEmptyString andb].
      destruct (hasSlash (String c' t')); reflexivity.
    + reflexivity.
Qed.

Lemma findTarget_firstLabel targets name :
  Target.findTarget targets (Target.stripExt name) = firstLabel targets name.
Proof.
  unfold Target.findTarget.
  induction targets as [|t rest IH]; cbn [find firstLabel]; [reflexivity|].
  rewrite IH, !stripExt_baseName. reflexivity.
Qed.

Lemma labelOf_referenceLabel targets doc :
  labelOf targets doc = referenceLabel targets doc.
Proof.
  unfold labelOf, referenceLabel.
  destruct (category_prediction doc); [|reflexivity].
  destruct (filename doc) as [|c name]; [reflexivity|].
  apply findTarget_firstLabel.
Qed.

Lemma labelled_matched targets docs :
  labelled targets docs = matchedDocuments targets docs.
Proof.
  unfold labelled, matchedDocuments. apply flat_map_ext. intros doc.
  now rewrite labelOf_referenceLabel.
Qed.

Lemma matched_in targets docs p :
  In p (matchedDocuments targets docs) -> In (fst p) docs.
Proof.
  unfold matchedDocuments. rewrite in_flat_map. intros (doc & Hdoc & Hin).
  destruct (referenceLabel targets doc); [|destruct Hin].
  destruct Hin as [<-|[]]. exact Hdoc.
Qed.

Lemma extensionTail_plain ext :
  Target.extensionTail ext = negb (hasDot ext) && negb (hasSlash ext).
Proof.
  induction ext as [|c ext IH]; cbn [Target.extensionTail hasDot hasSlash];
    [reflexivity|].
  rewrite IH. unfold Target.isDot, Target.isSlash.
  destruct (Ascii.eqb c "."), (Ascii.eqb c "/"), (hasDot ext), (hasSlash ext);
    reflexivity.
Qed.

Lemma baseName_withExtension base ext :
  plainExtension ext -> baseName (withExtension base ext) = base.
Proof.
  intros (Hne & Hdot & Hslash). rewrite <- stripExt_baseName.
  apply stripExt_withExtension. unfold isExtension.
  rewrite extensionTail_plain, Hdot, Hslash.
  destruct ext; [congruence|reflexivity].
Qed.

(** The highest confidence. *)
Lemma gtb_irrefl a : gtb a a = false.
Proof.
  destruct a as [x| | |]; try reflexivity.
  apply gtb_fin_false, Qle_refl.
Qed.

Lemma gtb_asym a b : finite a -> finite b -> gtb a b = true -> gtb b a = false.
Proof.
  destruct a as [x| | |], b as [y| | |]; intros Ha Hb H; try discriminate.
  rewrite gtb_fin in H. rewrite gtb_fin_false. now apply Qlt_le_weak.
Qed.

Lemma gtb_below a b c :
  finite a -> finite b -> finite c ->
  gtb a b = false -> gtb c a = false -> gtb c b = false.
Proof.
  destruct a as [x| | |], b as [y| | |], c as [z| | |]; intros Ha Hb Hc H1 H2;
    try discriminate.
  rewrite gtb_fin_false in *. eapply Qle_trans; eassumption.
Qed.

Lemma gtb_over a b c :
  finite a -> finite b -> finite c ->
  gtb a b = true -> gtb a c = false -> gtb c b = true.
Proof.
  destruct a as [x| | |], b as [y| | |], c as [z| | |]; intros Ha Hb Hc H1 H2;
    try discriminate.
  rewrite gtb_fin in *. rewrite gtb_fin_false in H2.
  eapply Qlt_le_trans; eassumption.
Qed.

Lemma highest_spec entries :
  Forall (fun e => finite (snd e)) entries ->
  finite (highestConfidence entries)
  /\ (forall e, In e entries -> gtb (snd e) (highestConfidence entries) = false)
  /\ (highestConfidence entries = zero
      \/ exists e, In e entries /\ highestConfidence entries = snd e).
Proof.
  induction 1 as [|e t He Ht IH]; cbn [highestConfidence fold_right].
  - split; [reflexivity|]. split; [intros e []|left; reflexivity].
  - fold (highestConfidence t). destruct IH as (Hf & Hb & Hin).
    destruct (gtb (snd e) (highestConfidence t)) eqn:E.
    + split; [exact He|]. split.
      * intros e' [<-|Hin']; [apply gtb_irrefl|].
        apply (gtb_below (highestConfidence t)); auto.
        -- rewrite List.Forall_forall in Ht. now apply Ht.
        -- now apply gtb_asym.
      * right. exists e. split; [left|]; reflexivity.
    + split; [exact Hf|]. split.
      * intros e' [<-|Hin']; [exact E|auto].
      * destruct Hin as [Hz|(e' & Hin' & He')]; [left; exact Hz|].
        right. exists e'. split; [right|]; assumption.
Qed.

Lemma highest_none entries :
  (forall e, In e entries -> gtb (snd e) zero = false) ->
  highestConfidence entries = zero.
Proof.
  induction entries as [|e t IH]; intros H; cbn [highestConfidence fold_right];
    [reflexivity|].
  fold (highestConfidence t). rewrite IH by (intros; apply H; now right).
  now rewrite (H e) by now left.
Qed.

Lemma find_first {A : Type} (f : A -> bool) pre x post :
  (forall y, In y pre -> f y = false) -> f x = true ->
  find f (pre ++ x :: post) = Some x.
Proof.
  induction pre as [|y pre IH]; intros Hpre Hx; cbn [app find].
  - now rewrite Hx.
  - rewrite (Hpre y) by now left. apply IH; [|exact Hx].
    intros; apply Hpre; now right.
Qed.

(** The category the loop picks is the first one of highest confidence. *)
Lemma predicted_top entries :
  Forall (fun e => finite (snd e)) entries ->
  Accuracy.predictedCategory entries = topConfidenceCategory entries.
Proof.
  intros Hfin. unfold Accuracy.predictedCategory, topConfidenceCategory.
  rewrite fold_topStep_pick. cbv zeta.
  destruct (pick_fold (fun _ => true) entries "Other"%string zero eq_refl Hfin)
    as [[Hsame Hno]|(pre & c & v & post & Hsplit & Hres & _ & Hgt & Hpre & Hpost)].
  - rewrite Hsame, highest_none by (intros; now apply Hno). reflexivity.
  - rewrite Hres. cbn [fst].
    destruct (highest_spec entries Hfin) as (Hf & Hb & Hin).
    set (h := highestConfidence entries) in *.
    assert (Hcv : In (c, v) entries)
      by (rewrite Hsplit; apply in_or_app; right; now left).
    assert (Hv : finite v)
      by (rewrite List.Forall_forall in Hfin; apply (Hfin (c, v) Hcv)).
    assert (Hvh : gtb v h = false) by apply (Hb (c, v) Hcv).
    assert (Hhv : gtb h v = false).
    { destruct Hin as [Hz|(e & Hin & He)].
      - rewrite Hz. now apply gtb_asym.
      - rewrite He. rewrite Hsplit in Hin. apply in_app_or in Hin.
        destruct Hin as [Hin|[<-|Hin]].
        + apply gtb_asym; auto.
          rewrite List.Forall_forall in Hfin. apply (Hfin e).
          rewrite Hsplit. apply in_or_app. now left.
        + apply gtb_irrefl.
        + now apply Hpost. }
    rewrite (gtb_over v zero h Hv eq_refl Hf Hgt Hvh).
    rewrite Hsplit, (find_first _ pre (c, v) post); [reflexivity| |].
    + intros e Hine. apply negb_false_iff. cbn beta.
      assert (He : finite (snd e)).
      { rewrite List.Forall_forall in Hfin. apply (Hfin e).
        rewrite Hsplit. apply in_or_app. now left. }
      exact (gtb_over v (snd e) h Hv He Hf (Hpre e Hine eq_refl) Hvh).
    + cbn [snd]. now rewrite Hhv.
Qed.

Lemma countIf_ext_in {A : Type} (f g : A -> bool) l :
  (forall x, In x l -> f x = g x) -> countIf f l = countIf g l.
Proof.
  unfold countIf. induction l as [|x l IH]; intros H; cbn [List.filter];
    [reflexivity|].
  rewrite (H x) by now left.
  destruct (g x); cbn [length]; rewrite IH; auto; intros; apply H; now right.
Qed.

Lemma isCorrect_predictedRight targets docs p :
  finiteConfidences docs -> In p (matchedDocuments targets docs) ->
  isCorrect p = predictedRight p.
Proof.
  intros Hfin Hin. unfold isCorrect, predictedRight, predictedAs.
  rewrite predicted_top; [reflexivity|].
  unfold finiteConfidences in Hfin. rewrite List.Forall_forall in Hfin.
  apply Hfin. eapply matched_in. exact Hin.
Qed.

(** C3, as stated, fails for the figure of a category: of the three matched
    documents below, "manual" carries the reference label "Legal Document"
    and is predicted as technical documentation; the only document predicted
    as "Legal Document" is predicted right, a precision of 100, yet the
    figure reported for "Legal Document" is 50: one correct of the two
    documents whose reference label it is. *)
Lemma category_figure_is_not_precision :
  let docs := [tiedDocument; technicalDocument; thesisDocument] in
  let pairs := matchedDocuments sampleTargets docs in
  let result := Accuracy.calculateAccuracy sampleTargets docs in
  length pairs = 3
  /\ countIf (predictedAs "Legal Document") pairs = 1
  /\ precisionOf "Legal Document" pairs = ofZ 100
  /\ Accuracy.categoryAccuracy result !! "Legal Document"%string
     = Some {| Accuracy.correct := 1; Accuracy.total := 2;
               Accuracy.percentage := ofZ 50 |}
  /\ Accuracy.percentage <$> (Accuracy.categoryAccuracy result !! "Legal Document"%string)
     <> Some (precisionOf "Legal Document" pairs).
Proof.
  cbv zeta. repeat split; try (vm_compute; reflexivity).
  vm_compute. discriminate.
Qed.

(** C3, amended: a document that has a name and a classification is matched
    to the first reference label with the same file name once the extension
    (what follows the last dot) is dropped from both, whatever the two
    extensions are.  Over the matched documents the overall accuracy is
    [(correct / total) * 100], left unset when nothing is matched; for every
    registered category the report gives the number of matched documents
    whose reference label it is, the number of those predicted right, and
    their ratio as a percentage (0 when there is none): the figure of a
    category is taken over the documents that belong to it, not over the
    documents predicted as it.  A prediction is right when the first category
    of highest positive confidence is the reference label. *)
Theorem accuracy_over_matched_documents
    (targets : list Target.TargetData) (docs : list DocumentType) (c : string) :
  finiteConfidences docs -> In c VALID_CATEGORIES ->
  let pairs := matchedDocuments targets docs in
  let result := Accuracy.calculateAccuracy targets docs in
  Accuracy.totalLabeled result = length pairs
  /\ Accuracy.accuracy result
     = (if Nat.eqb (length pairs) 0 then None
        else Some (ratioPercent (countIf predictedRight pairs) (length pairs)))
  /\ Accuracy.categoryAccuracy result !! c
     = Some {| Accuracy.correct :=
                 countIf (fun p => hasLabel c p && predictedRight p) pairs;
               Accuracy.total := countIf (hasLabel c) pairs;
               Accuracy.percentage :=
                 if Nat.eqb (countIf (hasLabel c) pairs) 0 then zero
                 else recallOf c pairs |}
  /\ forall doc target base ext ext',
       plainExtension ext -> plainExtension ext' ->
       filename doc = withExtension base ext ->
       Target.filename target = withExtension base ext' ->
       category_prediction doc <> None ->
       matchedDocuments (target :: targets) [doc] = [(doc, target)]
       /\ Accuracy.totalLabeled (Accuracy.calculateAccuracy (target :: targets) [doc])
          = 1.
Proof.
  intros Hfin Hc. cbv zeta.
  assert (Hspec : forall targets docs,
            Accuracy.totalLabeled (Accuracy.calculateAccuracy targets docs)
            = length (matchedDocuments targets docs)).
  { intros ts ds. unfold Accuracy.calculateAccuracy. cbn [Accuracy.totalLabeled].
    rewrite accuracy_fold, labelled_matched.
    destruct (pair_fold c (matchedDocuments ts ds) Accuracy.initState 0 0 zero
                (initState_lookup c Hc)) as (_ & P2 & _).
    cbv zeta in P2. rewrite P2. cbn [Accuracy.totalLabeledDocs Accuracy.initState Nat.add].
    destruct (length (matchedDocuments ts ds)); reflexivity. }
  split; [apply Hspec|].
  assert (Hright : countIf isCorrect (matchedDocuments targets docs)
                   = countIf predictedRight (matchedDocuments targets docs)).
  { apply countIf_ext_in. intros p Hp.
    now apply (isCorrect_predictedRight targets docs). }
  assert (Hright' : countIf (fun p => hasLabel c p && isCorrect p)
                            (matchedDocuments targets docs)
                    = countIf (fun p => hasLabel c p && predictedRight p)
                              (matchedDocuments targets docs)).
  { apply countIf_ext_in. intros p Hp.
    now rewrite (isCorrect_predictedRight targets docs). }
  destruct (pair_fold c (matchedDocuments targets docs) Accuracy.initState 0 0 zero
              (initState_lookup c Hc)) as (P1 & P2 & P3).
  cbv zeta in P1, P2, P3.
  split; [|split].
  - unfold Accuracy.calculateAccuracy. cbn [Accuracy.accuracy].
    rewrite accuracy_fold, labelled_matched, P1, P2, Hright.
    cbn [Accuracy.correctPredictions Accuracy.totalLabeledDocs Accuracy.initState Nat.add].
    destruct (length (matchedDocuments targets docs)) as [|n]; reflexivity.
  - unfold Accuracy.calculateAccuracy. cbn [Accuracy.categoryAccuracy].
    rewrite accuracy_fold, labelled_matched.
    rewrite lookup_fmap, P3, Hright'. cbn [fmap option_fmap option_map Nat.add].
    unfold Accuracy.withPercentage, Accuracy.percent, recallOf, ratioPercent.
    cbn [Accuracy.correct Accuracy.total].
    destruct (countIf (hasLabel c) (matchedDocuments targets docs)); reflexivity.
  - intros doc target base ext ext' Hext Hext' Hdoc Htarget Hpred.
    assert (Hm : matchedDocuments (target :: targets) [doc] = [(doc, target)]).
    { unfold matchedDocuments, referenceLabel. cbn [flat_map].
      destruct (category_prediction doc); [|congruence].
      assert (Hname : exists c' name, filename doc = String c' name).
      { rewrite Hdoc. unfold withExtension. destruct base; eexists; eexists; reflexivity. }
      destruct Hname as (c' & name & Hname). rewrite Hname at 1. rewrite Hdoc.
      cbn [firstLabel]. rewrite Htarget, !baseName_withExtension by assumption.
      now rewrite String.eqb_refl. }
    split; [exact Hm|]. now rewrite Hspec, Hm.
Qed.

Lemma accuracy_over_matched_documents_witness :
  let docs := [tiedDocument; technicalDocument; thesisDocument] in
  let pairs := matchedDocuments sampleTargets docs in
  let result := Accuracy.calculateAccuracy sampleTargets docs in
  Accuracy.totalLabeled result = 3
  /\ Accuracy.accuracy result = Some (ratioPercent 2 3)
  /\ Accuracy.categoryAccuracy result !! "Legal Document"%string
     = Some {| Accuracy.correct := 1; Accuracy.total := 2;
               Accuracy.percentage := ofZ 50 |}
  /\ matchedDocuments (tiedLabel :: sampleTargets) [tiedDocument]
     = [(tiedDocument, tiedLabel)].
Proof.
  cbv zeta.
  destruct (accuracy_over_matched_documents sampleTargets
              [tiedDocument; technicalDocument; thesisDocument] "Legal Document")
    as (H1 & H2 & H3 & H4).
  - repeat constructor.
  - unfold VALID_CATEGORIES. simpl. tauto.
  - split; [exact H1|]. split; [exact H2|]. split; [exact H3|].
    apply (H4 tiedDocument tiedLabel "tied"%string "pdf"%string "txt"%string).
    + repeat split; discriminate.
    + repeat split; discriminate.
    + reflexivity.
    + reflexivity.
    + discriminate.
Defined.

(** ** Ordered dictionaries *)

Lemma getField_setField {V : Type} (o : list (string * V)) k v k' :
  getField (setField o k v) k'
  = if String.eqb k k' then Some v else getField o k'.
Proof.
  induction o as [|[k0 v0] o IH]; simpl.
  - destruct (String.eqb k k'); reflexivity.
  - destruct (String.eqb_spec k0 k) as [->|Hne]; simpl.
    + destruct (String.eqb k k'); reflexivity.
    + rewrite IH. destruct (String.eqb_spec k0 k') as [->|Hne'];
        [|reflexivity].
      destruct (String.eqb_spec k k'); [congruence|reflexivity].
Qed.

Lemma keys_setField {V : Type} (o : list (string * V)) k v :
  map fst (setField o k v)
  = if includes (map fst o) k then map fst o else map fst o ++ [k].
Proof.
  unfold includes.
  induction o as [|[k0 v0] o IH]; simpl; [reflexivity|].
  rewrite (String.eqb_sym k k0).
  destruct (String.eqb k0 k); simpl; [reflexivity|].
  rewrite IH. destruct (existsb (String.eqb k) (map fst o)); reflexivity.
Qed.

Lemma includes_false l c : includes l c = false -> ~ In c l.
Proof.
  unfold includes. intros H Hin.
  assert (existsb (String.eqb c) l = true).
  { apply existsb_exists. exists c. split; [assumption|apply String.eqb_refl]. }
  congruence.
Qed.

Lemma includes_true l c : includes l c = true -> In c l.
Proof.
  unfold includes. intros H. apply existsb_exists in H.
  destruct H as (x & Hin & Heq). apply String.eqb_eq in Heq. now subst.
Qed.

Lemma NoDup_keys_setField {V : Type} (o : list (string * V)) k v :
  List.NoDup (map fst o) -> List.NoDup (map fst (setField o k v)).
Proof.
  intros H. rewrite keys_setField.
  destruct (includes (map fst o) k) eqn:E; [assumption|].
  apply List.NoDup_app; auto.
  - constructor; [intros []|constructor].
  - intros x Hx [<-|[]]. now apply includes_false in E.
Qed.

Lemma in_keys_setField {V : Type} (o : list (string * V)) k v x :
  In x (map fst (setField o k v)) <-> x = k \/ In x (map fst o).
Proof.
  rewrite keys_setField. destruct (includes (map fst o) k) eqn:E.
  - apply includes_true in E. split; [auto|]. intros [->|H]; assumption.
  - rewrite in_app_iff. simpl. intuition.
Qed.

Lemma getField_in {V : Type} (o : list (string * V)) k v :
  getField o k = Some v -> In (k, v) o.
Proof.
  induction o as [|[k0 v0] o IH]; simpl; [discriminate|].
  destruct (String.eqb_spec k0 k) as [->|Hne]; intros H.
  - injection H as <-. now left.
  - right. auto.
Qed.

Lemma in_getField {V : Type} (o : list (string * V)) k v :
  List.NoDup (map fst o) -> In (k, v) o -> getField o k = Some v.
Proof.
  induction o as [|[k0 v0] o IH]; simpl; intros Hnd Hin; [contradiction|].
  inversion Hnd as [|? ? Hnotin Hnd']; subst.
  destruct Hin as [Heq|Hin].
  - injection Heq as -> ->. now rewrite String.eqb_refl.
  - destruct (String.eqb_spec k0 k) as [->|Hne]; [|auto].
    exfalso. apply Hnotin. apply in_map_iff. exists (k, v). auto.
Qed.

Lemma getField_none {V : Type} (o : list (string * V)) k :
  getField o k = None <-> ~ In k (map fst o).
Proof.
  induction o as [|[k0 v0] o IH]; simpl.
  - tauto.
  - destruct (String.eqb_spec k0 k) as [->|Hne].
    + split; [discriminate|]. intros H. exfalso. apply H. now left.
    + rewrite IH. intuition.
Qed.

(** A dictionary filled by [o[key e] = value e] over a list keeps only values
    produced by the list. *)
Lemma fold_setField_in {A V : Type} (key : A -> string) (val : A -> V) l :
  forall (o : list (string * V)) k v,
  In (k, v) (fold_left (fun o e => setField o (key e) (val e)) l o) ->
  In (k, v) o \/ exists e, In e l /\ key e = k /\ val e = v.
Proof.
  induction l as [|e l IH]; intros o k v Hin; simpl in Hin; [now left|].
  destruct (IH _ _ _ Hin) as [Ho|(e' & He' & Hk & Hv)].
  - assert (Hget : In (k, v) (setField o (key e) (val e)) ->
                   In (k, v) o \/ (key e = k /\ val e = v)).
    { clear. induction o as [|[k0 v0] o IHo]; simpl.
      - intros [H|[]]. injection H as <- <-. right. auto.
      - destruct (String.eqb_spec k0 (key e)) as [Heq|Hne]; simpl.
        + intros [H|H]; [injection H as <- <-; right; auto|left; now right].
        + intros [H|H]; [left; now left|].
          destruct (IHo H) as [?|?]; [left; now right|now right]. }
    destruct (Hget Ho) as [?|[? ?]]; [now left|].
    right. exists e. repeat split; auto. now left.
  - right. exists e'. repeat split; auto. now right.
Qed.

Lemma fold_setField_keys {A V : Type} (key : A -> string) (val : A -> V) l :
  forall (o : list (string * V)),
  List.NoDup (map fst o) ->
  let o' := fold_left (fun o e => setField o (key e) (val e)) l o in
  List.NoDup (map fst o')
  /\ forall k, In k (map fst o') <-> In k (map fst o) \/ In k (map key l).
Proof.
  induction l as [|e l IH]; intros o Hnd; cbv zeta; simpl.
  - split; [assumption|]. intros k. tauto.
  - destruct (IH (setField o (key e) (val e)) (NoDup_keys_setField _ _ _ Hnd))
      as [H1 H2]. cbv zeta in H1, H2.
    split; [exact H1|]. intros k. rewrite H2, in_keys_setField.
    intuition (subst; auto).
Qed.

(** ** Lemmas on the word clouds *)

Lemma in_setField {V : Type} (o : list (string * V)) k v k' v' :
  In (k', v') (setField o k v) -> In (k', v') o \/ (k' = k /\ v' = v).
Proof.
  induction o as [|[k0 v0] o IH]; simpl.
  - intros [H|[]]. injection H as <- <-. right. auto.
  - destruct (String.eqb_spec k0 k) as [Heq|Hne]; simpl.
    + intros [H|H]; [injection H as <- <-; right; auto|left; now right].
    + intros [H|H]; [left; now left|].
      destruct (IH H) as [?|?]; [left; now right|now right].
Qed.

Lemma vocabulary_nonempty category : vocabulary category <> [].
Proof.
  unfold vocabulary, commonWords. cbn [getField].
  repeat (match goal with
          | |- context [String.eqb ?a category] => destruct (String.eqb a category)
          end; [discriminate|]).
  cbn. discriminate.
Qed.

Section RandomFacts.

Variable randomDraw : nat -> Z.

Lemma drawWords_spec ws : forall k,
  map text (fst (drawWords randomDraw ws k)) = ws
  /\ Forall (fun w => finite (value w)) (fst (drawWords randomDraw ws k)).
Proof.
  induction ws as [|w ws IH]; intros k; simpl.
  - split; [reflexivity|constructor].
  - destruct (IH (S k)) as [H1 H2].
    destruct (drawWords randomDraw ws (S k)) as [words k']. simpl in *.
    split; [now rewrite H1|]. constructor; [reflexivity|assumption].
Qed.

Lemma placeholders_fold categories : forall (clouds : WordCloudData) k,
  List.NoDup (map fst clouds) ->
  (forall c ws, In (c, ws) clouds -> placeholderFor c ws) ->
  let clouds' :=
    fst (fold_left
           (fun (st : WordCloudData * nat) category =>
              let '(words, k') := drawWords randomDraw (vocabulary category) (snd st) in
              (setField (fst st) category words, k'))
           categories (clouds, k)) in
  List.NoDup (map fst clouds')
  /\ (forall c, In c (map fst clouds') <-> In c (map fst clouds) \/ In c categories)
  /\ (forall c ws, In (c, ws) clouds' -> placeholderFor c ws).
Proof.
  induction categories as [|category rest IH]; intros clouds k Hnd Hall; cbv zeta.
  - cbn [fold_left fst]. split; [assumption|].
    split; [intros c; simpl; tauto|assumption].
  - cbn [fold_left fst snd].
    destruct (drawWords_spec (vocabulary category) k) as [Ht Hf].
    destruct (drawWords randomDraw (vocabulary category) k) as [words k'].
    cbn [fst] in Ht, Hf.
    destruct (IH (setField clouds category words) k') as (I1 & I2 & I3).
    + now apply NoDup_keys_setField.
    + intros c ws Hin. apply in_setField in Hin.
      destruct Hin as [Hin|[-> ->]]; [now apply Hall|]. split; assumption.
    + cbv zeta in I1, I2, I3. split; [exact I1|]. split; [|exact I3].
      intros c. rewrite I2, in_keys_setField. simpl. intuition (subst; auto).
Qed.

Lemma placeholders_spec categories k :
  let clouds := fst (generatePlaceholderWordClouds randomDraw categories k) in
  List.NoDup (map fst clouds)
  /\ (forall c, In c (map fst clouds) <-> In c categories)
  /\ (forall c ws, In (c, ws) clouds -> placeholderFor c ws).
Proof.
  cbv zeta. unfold generatePlaceholderWordClouds.
  destruct (placeholders_fold categories [] k) as (H1 & H2 & H3).
  - constructor.
  - intros c ws [].
  - cbv zeta in H1, H2, H3. split; [exact H1|]. split; [|exact H3].
    intros c. rewrite H2. simpl. tauto.
Qed.

Lemma groups_fold targetData docs : forall categoryDocs (universe : list DocumentType),
  List.NoDup (map fst categoryDocs) ->
  (forall c ds d, In (c, ds) categoryDocs -> In d ds -> In d universe) ->
  (forall d, In d docs -> In d universe) ->
  let result := fold_left (groupStep targetData) docs categoryDocs in
  List.NoDup (map fst result)
  /\ forall c ds d, In (c, ds) result -> In d ds -> In d universe.
Proof.
  induction docs as [|doc docs IH]; intros cd universe Hnd Hsub Hdocs; cbv zeta.
  - simpl. auto.
  - cbn [fold_left]. apply IH.
    + unfold groupStep. destruct (negb (nonEmptyString (filename doc))); [assumption|].
      destruct (Target.findTarget targetData (Target.stripExt (filename doc)));
        [|assumption].
      now apply NoDup_keys_setField.
    + intros c ds d Hin Hd. unfold groupStep in Hin.
      destruct (negb (nonEmptyString (filename doc))); [eauto|].
      destruct (Target.findTarget targetData (Target.stripExt (filename doc))) as [t|];
        [|eauto].
      apply in_setField in Hin. destruct Hin as [Hin|[-> ->]]; [eauto|].
      apply in_app_or in Hd. destruct Hd as [Hd|[<-|[]]].
      * destruct (getField cd (Target.category t)) as [ds0|] eqn:E; [|destruct Hd].
        apply getField_in in E. eauto.
      * apply Hdocs. now left.
    + intros d Hd. apply Hdocs. now right.
Qed.

Lemma groups_spec targetData docs :
  List.NoDup (map fst (groups targetData docs))
  /\ forall c ds d, In (c, ds) (groups targetData docs) -> In d ds -> In d docs.
Proof.
  unfold groups.
  apply (groups_fold targetData docs [] docs); auto.
  - constructor.
  - intros c ds d [].
Qed.

End RandomFacts.

(** ** The stable sort by descending value *)

Lemma before_Q a b :
  finiteWord a -> finiteWord b ->
  (before a b = true <-> (toQ (value b) < toQ (value a))%Q).
Proof.
  unfold finiteWord, before.
  destruct (value a) as [x| | |], (value b) as [y| | |]; intros Ha Hb; try discriminate.
  cbn [sub toQ]. unfold zero, ofZ, fin. rewrite gtb_fin, Qred_correct.
  split; intros H.
  - apply (Qplus_lt_l _ _ (- x)). rewrite Qplus_opp_r. exact H.
  - apply (Qplus_lt_l _ _ (- x)) in H. rewrite Qplus_opp_r in H. exact H.
Qed.

Lemma precedes_Q a b :
  finiteWord a -> finiteWord b ->
  (precedes a b <-> (toQ (value b) <= toQ (value a))%Q).
Proof.
  intros Ha Hb. unfold precedes.
  destruct (before b a) eqn:E.
  - apply (before_Q b a Hb Ha) in E. split; [discriminate|].
    intros H. exfalso. apply (Qlt_not_le _ _ E H).
  - split; [|reflexivity]. intros _. apply Qnot_lt_le. intros H.
    apply (before_Q b a Hb Ha) in H. congruence.
Qed.

Lemma insertWord_perm x l : Permutation (insertWord x l) (x :: l).
Proof.
  induction l as [|y t IH]; simpl; [reflexivity|].
  destruct (before y x); [|reflexivity].
  rewrite IH. apply perm_swap.
Qed.

Lemma sortWords_perm l : Permutation (sortWords l) l.
Proof.
  induction l as [|x l IH]; simpl; [reflexivity|].
  rewrite insertWord_perm. now constructor.
Qed.

Lemma sortWords_length l : length (sortWords l) = length l.
Proof. apply Permutation_length, sortWords_perm. Qed.

Lemma insertWord_sorted x l :
  finiteWord x -> Forall finiteWord l ->
  StronglySorted precedes l -> StronglySorted precedes (insertWord x l).
Proof.
  intros Hx Hl Hs. induction Hs as [|y t Hst IH Hy]; simpl.
  - repeat constructor.
  - inversion Hl as [|? ? Hfy Hft]; subst.
    destruct (before y x) eqn:E.
    + constructor; [now apply IH|].
      apply List.Forall_forall. intros z Hz.
      apply (Permutation_in _ (insertWord_perm x t)) in Hz.
      destruct Hz as [<-|Hz].
      * apply precedes_Q; auto. apply (before_Q y x Hfy Hx) in E.
        now apply Qlt_le_weak.
      * rewrite List.Forall_forall in Hy. now apply Hy.
    + constructor; [now constructor|].
      constructor; [exact E|].
      apply List.Forall_forall. intros z Hz.
      rewrite List.Forall_forall in Hy, Hft.
      apply precedes_Q; auto.
      apply Qle_trans with (toQ (value y)).
      * apply precedes_Q; auto.
      * apply precedes_Q; auto.
Qed.

Lemma Forall_perm {A : Type} (P : A -> Prop) l l' :
  Permutation l l' -> Forall P l -> Forall P l'.
Proof.
  intros Hp Hl. apply List.Forall_forall. intros x Hx.
  rewrite List.Forall_forall in Hl. apply Hl.
  apply (Permutation_in _ (Permutation_sym Hp) Hx).
Qed.

Lemma sortWords_sorted l :
  Forall finiteWord l -> StronglySorted precedes (sortWords l).
Proof.
  induction 1 as [|x l Hx Hl IH]; simpl; [constructor|].
  apply insertWord_sorted; auto.
  apply (Forall_perm _ l); [symmetry; apply sortWords_perm|assumption].
Qed.

(** Sorting a sorted list leaves it as it is: the second sort, made by the
    component, changes nothing. *)
Lemma sortWords_fixpoint l : StronglySorted precedes l -> sortWords l = l.
Proof.
  induction 1 as [|x l Hs IH Hx]; simpl; [reflexivity|].
  rewrite IH. destruct l as [|y t]; [reflexivity|]. simpl.
  inversion Hx as [|? ? Hxy _]; subst. unfold precedes in Hxy. now rewrite Hxy.
Qed.

Lemma firstn_nonempty {A : Type} (l : list A) n : l <> [] -> firstn (S n) l <> [].
Proof. destruct l; [congruence|discriminate]. Qed.

Lemma sortWords_nonempty l : l <> [] -> sortWords l <> [].
Proof.
  intros H E. apply H. apply length_zero_iff_nil.
  rewrite <- sortWords_length, E. reflexivity.
Qed.

(** ** Counting the words of a category *)

Lemma getField_counted acc w :
  getField (map counted acc) w = option_map Count (getField acc w).
Proof.
  induction acc as [|[k n] acc IH]; cbn [map counted getField fst snd option_map];
    [reflexivity|].
  destruct (String.eqb k w); [reflexivity|exact IH].
Qed.

Lemma setField_counted acc w n :
  setField (map counted acc) w (Count n) = map counted (setField acc w n).
Proof.
  induction acc as [|[k m] acc IH]; cbn [map counted setField fst snd];
    [reflexivity|].
  destruct (String.eqb k w); cbn [map counted fst snd]; [reflexivity|].
  now rewrite IH.
Qed.

(** On words none of which is a name inherited from [Object.prototype] the
    loop counts the occurrences of the words that are not left out. *)
Lemma countWord_fold category words : forall acc,
  Forall (fun w => inherited w = false) words ->
  fold_left (countWord category) words (map counted acc)
  = map counted
      (fold_left tallyStep
         (List.filter (fun w => negb (excluded category w)) words) acc).
Proof.
  induction words as [|w words IH]; intros acc Hwords; [reflexivity|].
  inversion Hwords as [|? ? Hw Hrest]; subst.
  cbn [fold_left List.filter]. unfold countWord at 2, excluded at 1.
  destruct (String.eqb (toLowerCase w) (toLowerCase category));
    [cbn [orb negb]; now apply IH|].
  cbn [orb].
  destruct (strIncludes (toLowerCase category) (toLowerCase w)
            && (3 <? String.length w)); cbn [negb]; [now apply IH|].
  cbn [fold_left]. rewrite <- IH by assumption. f_equal.
  unfold tallyStep. rewrite getField_counted.
  unfold inherited in Hw. apply orb_false_iff in Hw. destruct Hw as [Hp Hi].
  destruct (getField acc w) as [n|]; cbn [option_map default];
    [|rewrite Hp, Hi]; now rewrite setField_counted.
Qed.

(** A word that names an inherited function is stored without a count, and
    [__proto__] is not stored at all. *)
Lemma inherited_names_are_not_counted :
  fold_left (countWord "Other")
            ["constructor"; "clause"; "constructor"; "__proto__"; "clause"]%string []
  = [("constructor"%string, Garbled); ("clause"%string, Count 2)]
  /\ map value
       (categoryCloud [] "Other"
          [{| id := 1; filename := "note.txt"; size := None;
              content := Some "the constructor clause"%string;
              category_prediction := None |}])
     = [NaN; ofZ 1].
Proof. split; vm_compute; reflexivity. Qed.

Lemma map_counted_wordOf l :
  map (fun e : string * Tally => {| text := fst e; value := tallyValue (snd e) |})
      (map counted l)
  = map wordOf l.
Proof. rewrite map_map. reflexivity. Qed.

Lemma tally_fold l : forall acc,
  List.NoDup (map fst acc) ->
  let result := fold_left tallyStep l acc in
  List.NoDup (map fst result)
  /\ (forall w, In w (map fst result) <-> In w (map fst acc) \/ In w l)
  /\ (forall w, default 0 (getField result w)
                = default 0 (getField acc w) + countFor w l).
Proof.
  induction l as [|x l IH]; intros acc Hnd; cbv zeta.
  - cbn [fold_left]. split; [assumption|]. split.
    + intros w. simpl. tauto.
    + intros w. unfold countFor. simpl. lia.
  - cbn [fold_left].
    destruct (IH (tallyStep acc x) (NoDup_keys_setField _ _ _ Hnd)) as (I1 & I2 & I3).
    cbv zeta in I1, I2, I3. split; [exact I1|]. split.
    + intros w. rewrite I2. unfold tallyStep. rewrite in_keys_setField.
      simpl. intuition (subst; auto).
    + intros w. rewrite I3. unfold tallyStep. rewrite getField_setField.
      unfold countFor. cbn [List.filter]. rewrite (String.eqb_sym w x).
      destruct (String.eqb_spec x w) as [->|Hne]; simpl; lia.
Qed.

Lemma tally_spec l :
  let result := fold_left tallyStep l [] in
  List.NoDup (map fst result)
  /\ (forall w n, In (w, n) result <-> In w l /\ n = countFor w l).
Proof.
  cbv zeta. destruct (tally_fold l [] ltac:(constructor)) as (H1 & H2 & H3).
  cbv zeta in H1, H2, H3. split; [exact H1|].
  intros w n. split.
  - intros Hin. split.
    + assert (Hk : In w (map fst (fold_left tallyStep l [])))
        by (apply in_map_iff; exists (w, n); auto).
      apply H2 in Hk. destruct Hk as [[]|Hk]. exact Hk.
    + specialize (H3 w). rewrite (in_getField _ _ _ H1 Hin) in H3.
      simpl in H3. exact H3.
  - intros [Hin ->].
    destruct (getField (fold_left tallyStep l []) w) as [n|] eqn:E.
    + specialize (H3 w). rewrite E in H3. simpl in H3. subst n.
      now apply getField_in.
    + exfalso. apply getField_none in E. apply E. apply H2. now right.
Qed.

Lemma countFor_filter (f : string -> bool) w l :
  f w = true -> countFor w (List.filter f l) = countFor w l.
Proof.
  intros Hf. unfold countFor.
  induction l as [|x l IH]; simpl; [reflexivity|].
  destruct (String.eqb_spec w x) as [->|Hne].
  - rewrite Hf. simpl. rewrite String.eqb_refl. simpl. now rewrite IH.
  - destruct (f x); simpl; [|exact IH].
    destruct (String.eqb_spec w x); [contradiction|exact IH].
Qed.

Lemma categoryCloud_spec placeholderWordClouds category members :
  Forall (fun w => inherited w = false)
         (preprocessText (join (map contentOf (List.filter hasContent members)))) ->
  categoryCloud placeholderWordClouds category members
  = match categoryTokens category members with
    | [] => default [] (getField placeholderWordClouds category)
    | _ => sortWords (map wordOf (fold_left tallyStep (categoryTokens category members) []))
    end.
Proof.
  unfold categoryCloud, categoryTokens.
  destruct (List.filter hasContent members) as [|d ds] eqn:E.
  - reflexivity.
  - intros Hwords. cbv zeta.
    change (@nil (string * Tally)) with (map counted []).
    rewrite (countWord_fold category _ [] Hwords), map_counted_wordOf.
    set (tokens := List.filter (fun w => negb (excluded category w))
                     (preprocessText (join (map contentOf (d :: ds))))).
    destruct tokens as [|t ts] eqn:Et; [reflexivity|].
    destruct (sortWords (map wordOf (fold_left tallyStep (t :: ts) []))) eqn:Es;
      [|reflexivity].
    exfalso. apply (f_equal (@length _)) in Es.
    rewrite sortWords_length, length_map in Es.
    destruct (tally_spec (t :: ts)) as [_ Hspec]. cbv zeta in Hspec.
    assert (Hin : In (t, countFor t (t :: ts)) (fold_left tallyStep (t :: ts) [])).
    { apply Hspec. split; [now left|reflexivity]. }
    destruct (fold_left tallyStep (t :: ts) []); [destruct Hin|discriminate].
Qed.

(** Without a member with content the cloud is the placeholder; in every
    case it is the placeholder or a cloud with a word. *)
Lemma categoryCloud_fallback placeholderWordClouds category members :
  List.filter hasContent members = [] ->
  categoryCloud placeholderWordClouds category members
  = default [] (getField placeholderWordClouds category).
Proof. intros H. unfold categoryCloud. now rewrite H. Qed.

Lemma categoryCloud_nonempty placeholderWordClouds category members :
  default [] (getField placeholderWordClouds category) <> [] ->
  categoryCloud placeholderWordClouds category members <> [].
Proof.
  intros Hph. unfold categoryCloud.
  destruct (List.filter hasContent members) as [|d ds]; [exact Hph|].
  cbv zeta.
  destruct (sortWords _) as [|w ws]; [exact Hph|discriminate].
Qed.

Lemma no_content_tokens category members :
  List.filter hasContent members = [] -> categoryTokens category members = [].
Proof. intros H. unfold categoryTokens. rewrite H. reflexivity. Qed.

Lemma filter_nil_of_subset (docs members : list DocumentType) :
  existsb hasContent docs = false ->
  (forall d, In d members -> In d docs) ->
  List.filter hasContent members = [].
Proof.
  intros Hnone Hsub.
  induction members as [|d ds IH]; simpl; [reflexivity|].
  destruct (hasContent d) eqn:E.
  - exfalso. assert (existsb hasContent docs = true).
    { apply existsb_exists. exists d. split; [apply Hsub; now left|exact E]. }
    congruence.
  - apply IH. intros d' Hd'. apply Hsub. now right.
Qed.

(** ** The grouping of the documents by reference label *)

Lemma groupStep_cases targetData categoryDocs doc :
  groupStep targetData categoryDocs doc
  = match referenceCategory targetData doc with
    | Some c => setField categoryDocs c (default [] (getField categoryDocs c) ++ [doc])
    | None => categoryDocs
    end.
Proof.
  unfold groupStep, referenceCategory.
  destruct (nonEmptyString (filename doc)); cbn [negb]; [|reflexivity].
  now destruct (Target.findTarget targetData (Target.stripExt (filename doc))).
Qed.

Lemma groups_lookup targetData c docs : forall categoryDocs,
  getField (fold_left (groupStep targetData) docs categoryDocs) c
  = match List.filter (groupedUnder targetData c) docs with
    | [] => getField categoryDocs c
    | l => Some (default [] (getField categoryDocs c) ++ l)
    end.
Proof.
  induction docs as [|doc docs IH]; intros categoryDocs; [reflexivity|].
  cbn [fold_left List.filter]. rewrite IH, groupStep_cases.
  assert (Hhead : groupedUnder targetData c doc
                  = match referenceCategory targetData doc with
                    | Some c' => String.eqb c' c
                    | None => false
                    end) by reflexivity.
  rewrite Hhead. clear Hhead.
  destruct (referenceCategory targetData doc) as [c'|]; [|reflexivity].
  rewrite getField_setField.
  destruct (String.eqb_spec c' c) as [Heq|Hne]; [|reflexivity].
  rewrite Heq. cbn [default].
  destruct (List.filter (groupedUnder targetData c) docs) as [|d ds]; [reflexivity|].
  unfold Datatypes.id. now rewrite <- app_assoc.
Qed.

Lemma membersOf_filter targetData docs c :
  membersOf targetData docs c = List.filter (groupedUnder targetData c) docs.
Proof.
  unfold membersOf, groups. rewrite groups_lookup. cbn [getField default app].
  destruct (List.filter (groupedUnder targetData c) docs); reflexivity.
Qed.

Lemma groups_keys targetData docs c :
  In c (map fst (groups targetData docs)) <-> membersOf targetData docs c <> [].
Proof.
  rewrite membersOf_filter.
  destruct (getField (groups targetData docs) c) as [ds|] eqn:E.
  - split; intros _.
    + unfold groups in E. rewrite groups_lookup in E. cbn [getField] in E.
      destruct (List.filter (groupedUnder targetData c) docs); [discriminate|].
      discriminate.
    + apply getField_in in E. apply in_map_iff. exists (c, ds). auto.
  - pose proof E as E'. apply getField_none in E.
    split; [contradiction|]. intros Hne. exfalso. apply Hne.
    unfold groups in E'. rewrite groups_lookup in E'.
    destruct (List.filter (groupedUnder targetData c) docs); [reflexivity|discriminate].
Qed.

Lemma groups_empty targetData docs :
  groups targetData docs = [] <-> existsb (hasReference targetData) docs = false.
Proof.
  split.
  - intros E. destruct (existsb (hasReference targetData) docs) eqn:Ex; [|reflexivity].
    exfalso. apply existsb_exists in Ex. destruct Ex as (doc & Hin & Href).
    unfold hasReference in Href.
    destruct (referenceCategory targetData doc) as [c|] eqn:Ec; [|discriminate].
    assert (Hk : In c (map fst (groups targetData docs))).
    { apply groups_keys. rewrite membersOf_filter. intros Hnil.
      assert (Hd : In doc (List.filter (groupedUnder targetData c) docs)).
      { apply filter_In. split; [exact Hin|]. unfold groupedUnder.
        rewrite Ec. apply String.eqb_refl. }
      rewrite Hnil in Hd. destruct Hd. }
    rewrite E in Hk. destruct Hk.
  - intros Ex. destruct (groups targetData docs) as [|[c ds] gs] eqn:E; [reflexivity|].
    exfalso.
    assert (Hk : In c (map fst (groups targetData docs))) by (rewrite E; now left).
    apply groups_keys in Hk. rewrite membersOf_filter in Hk. apply Hk.
    clear - Ex. induction docs as [|doc docs IH]; [reflexivity|].
    cbn [existsb] in Ex. apply orb_false_iff in Ex. destruct Ex as [E1 E2].
    cbn [List.filter]. unfold groupedUnder at 1. unfold hasReference in E1.
    destruct (referenceCategory targetData doc); [discriminate|]. now apply IH.
Qed.

Lemma groupedUnder_labelledWith targetData c doc :
  groupedUnder targetData c doc = labelledWith targetData c doc.
Proof.
  unfold groupedUnder, referenceCategory, labelledWith.
  destruct (filename doc) as [|ch name] eqn:E; [reflexivity|].
  cbn [nonEmptyString]. rewrite findTarget_firstLabel.
  destruct (firstLabel targetData (String ch name)); reflexivity.
Qed.

Lemma membersOf_memberDocuments targetData docs c :
  membersOf targetData docs c = memberDocuments targetData docs c.
Proof.
  rewrite membersOf_filter. unfold memberDocuments.
  apply filter_ext. intros doc. apply groupedUnder_labelledWith.
Qed.

Lemma unmatched_iff targetData docs :
  existsb (hasReference targetData) docs = false
  <-> forall c, memberDocuments targetData docs c = [].
Proof.
  rewrite <- groups_empty. split.
  - intros E c. rewrite <- membersOf_memberDocuments. unfold membersOf.
    now rewrite E.
  - intros H. destruct (groups targetData docs) as [|[c ds] gs] eqn:E;
      [reflexivity|]. exfalso.
    assert (Hk : In c (map fst (groups targetData docs))) by (rewrite E; now left).
    apply groups_keys in Hk. apply Hk. rewrite membersOf_memberDocuments. apply H.
Qed.

(** ** The clouds of generateWordClouds *)

(** Every cloud produced by [generateWordClouds] is what "Process each
    category" makes of the members of its category and of the placeholder
    of that category. *)
Lemma generateWordClouds_cases randomDraw targetData docs k category words :
  In (category, words) (fst (generateWordClouds randomDraw targetData docs k)) ->
  exists placeholders placeholder,
    getField placeholders category = Some placeholder
    /\ placeholderFor category placeholder
    /\ words = categoryCloud placeholders category
                 (membersOf targetData docs category).
Proof.
  unfold generateWordClouds. fold (groups targetData docs).
  destruct (groups_spec targetData docs) as [Gnd Gsub].
  unfold membersOf.
  destruct (groups targetData docs) as [|g gs] eqn:Eg.
  - intros Hin.
    destruct (placeholders_spec randomDraw defaultCategories k) as (P1 & _ & P3).
    cbv zeta in P1, P3.
    exists (fst (generatePlaceholderWordClouds randomDraw defaultCategories k)), words.
    split; [now apply in_getField|]. split; [now apply P3|].
    cbn [getField default]. rewrite categoryCloud_fallback by reflexivity.
    now rewrite (in_getField _ _ _ P1 Hin).
  - rewrite <- Eg in *. clear g gs Eg.
    destruct (placeholders_spec randomDraw (map fst (groups targetData docs)) k)
      as (P1 & P2 & P3). cbv zeta in P1, P2, P3.
    destruct (generatePlaceholderWordClouds randomDraw
                (map fst (groups targetData docs)) k) as [ph k'].
    cbn [fst] in P1, P2, P3.
    destruct (existsb hasContent docs) eqn:Ec; cbn [negb fst]; intros Hin.
    + apply (fold_setField_in fst
               (fun e => categoryCloud ph (fst e) (snd e))) in Hin.
      destruct Hin as [[]|([c ds] & He & Hk & Hv)]. cbn [fst snd] in Hk, Hv.
      subst c. rewrite (in_getField _ _ _ Gnd He). cbn [default].
      assert (Hkey : In category (map fst ph)).
      { apply P2. apply in_map_iff. exists (category, ds). auto. }
      destruct (getField ph category) as [ws|] eqn:Eph;
        [|apply getField_none in Eph; contradiction].
      exists ph, ws. split; [exact Eph|]. split; [apply P3; now apply getField_in|].
      now rewrite <- Hv.
    + exists ph, words. split; [now apply in_getField|]. split; [now apply P3|].
      rewrite categoryCloud_fallback, (in_getField _ _ _ P1 Hin); [reflexivity|].
      apply (filter_nil_of_subset docs); [exact Ec|].
      intros d Hd.
      destruct (getField (groups targetData docs) category) as [ds|] eqn:E;
        [|destruct Hd].
      apply getField_in in E. eauto.
Qed.

(** The categories that have a cloud. *)
Lemma generateWordClouds_keys randomDraw targetData docs k :
  let clouds := fst (generateWordClouds randomDraw targetData docs k) in
  List.NoDup (map fst clouds)
  /\ forall c, In c (map fst clouds)
               <-> if existsb (hasReference targetData) docs
                   then membersOf targetData docs c <> []
                   else In c defaultCategories.
Proof.
  cbv zeta.
  unfold generateWordClouds. fold (groups targetData docs).
  pose proof (groups_empty targetData docs) as Hempty.
  destruct (groups targetData docs) as [|g gs] eqn:Eg.
  - rewrite (proj1 Hempty eq_refl).
    destruct (placeholders_spec randomDraw defaultCategories k) as (P1 & P2 & _).
    cbv zeta in P1, P2. split; [exact P1|exact P2].
  - destruct (existsb (hasReference targetData) docs) eqn:Ex;
      [|destruct Hempty as [_ Hempty]; specialize (Hempty eq_refl); discriminate].
    rewrite <- Eg in *.
    destruct (placeholders_spec randomDraw (map fst (groups targetData docs)) k)
      as (P1 & P2 & _). cbv zeta in P1, P2.
    destruct (generatePlaceholderWordClouds randomDraw
                (map fst (groups targetData docs)) k) as [ph k'].
    cbn [fst] in P1, P2.
    destruct (negb (existsb hasContent docs)); cbn [fst].
    + split; [exact P1|]. intros c. rewrite P2. apply groups_keys.
    + destruct (fold_setField_keys fst
                  (fun e : string * list DocumentType =>
                     categoryCloud ph (fst e) (snd e))
                  (groups targetData docs) [] ltac:(constructor)) as [K1 K2].
      cbv zeta in K1, K2. split; [exact K1|]. intros c. rewrite K2.
      rewrite <- groups_keys. cbn [map In]. tauto.
Qed.

(** ** C7: the placeholder vocabulary *)

(** C7, as stated, fails: only the contract matches a reference label, so
    "Other" is a category without any member document with content, yet the
    panel has no cloud for it, neither a placeholder nor any other; the only
    cloud is that of "Legal Document". *)
Lemma category_without_members_has_no_cloud :
  let clouds :=
    fst (generateWordClouds (fun n => Z.of_nat n) sampleLabels [contractWithText] 0) in
  In "Other"%string VALID_CATEGORIES
  /\ List.filter hasContent (memberDocuments sampleLabels [contractWithText] "Other") = []
  /\ getField clouds "Other" = None
  /\ map fst clouds = ["Legal Document"%string].
Proof. cbv zeta. repeat split; vm_compute; try reflexivity. tauto. Qed.

(** C7, amended: the word-cloud panel is never empty and none of its clouds
    is without words, also among the (at most 50) words on display.  A
    category that labels some document, none of them with content, shows the
    placeholder vocabulary of that category; when no document matches a
    reference label the six default categories show theirs; but when some
    document matches, a category that labels no document has no cloud. *)
Theorem word_cloud_falls_back_to_placeholder
    (randomDraw : nat -> Z) (targetData : list Target.TargetData)
    (docs : list DocumentType) (k : nat) :
  ordinaryCategories targetData ->
  let clouds := fst (generateWordClouds randomDraw targetData docs k) in
  let members := memberDocuments targetData docs in
  clouds <> []
  /\ renderWordClouds clouds <> []
  /\ (forall category words,
        In (category, words) clouds -> words <> [] /\ WordCloud words 50 <> [])
  /\ (forall category,
        members category <> [] ->
        List.filter hasContent (members category) = [] ->
        exists words,
          getField clouds category = Some words
          /\ map text words = vocabulary category)
  /\ ((forall category, members category = []) ->
      forall category, In category defaultCategories ->
        exists words,
          getField clouds category = Some words
          /\ map text words = vocabulary category)
  /\ (forall category other,
        members category = [] -> members other <> [] ->
        getField clouds category = None).
Proof.
  intros _. cbv zeta.
  destruct (generateWordClouds_keys randomDraw targetData docs k) as [Knd Kin].
  cbv zeta in Knd, Kin.
  assert (Hkeys : forall (clouds : WordCloudData) c,
            In c (map fst clouds) -> clouds <> []).
  { intros clouds c Hin E. rewrite E in Hin. destruct Hin. }
  assert (Hne : fst (generateWordClouds randomDraw targetData docs k) <> []).
  { destruct (existsb (hasReference targetData) docs) eqn:Ex.
    - apply existsb_exists in Ex. destruct Ex as (doc & Hdoc & Href).
      unfold hasReference in Href.
      destruct (referenceCategory targetData doc) as [c|] eqn:Ec; [|discriminate].
      apply (Hkeys _ c), Kin. rewrite membersOf_filter. intros Hnil.
      assert (Hd : In doc (List.filter (groupedUnder targetData c) docs)).
      { apply List.filter_In. split; [exact Hdoc|]. unfold groupedUnder.
        rewrite Ec. apply String.eqb_refl. }
      rewrite Hnil in Hd. destruct Hd.
    - apply (Hkeys _ "Other"%string), Kin. unfold defaultCategories. simpl. tauto. }
  assert (Hcloud : forall category words,
            In (category, words)
               (fst (generateWordClouds randomDraw targetData docs k)) ->
            words <> []
            /\ (List.filter hasContent (memberDocuments targetData docs category) = [] ->
                map text words = vocabulary category)).
  { intros category words Hin.
    destruct (generateWordClouds_cases _ _ _ _ _ _ Hin)
      as (phs & ph & Hget & [Hvoc Hfin] & Hw).
    assert (Hph : ph <> []).
    { intros E. rewrite E in Hvoc. symmetry in Hvoc.
      now apply vocabulary_nonempty in Hvoc. }
    split.
    - rewrite Hw. apply categoryCloud_nonempty. now rewrite Hget.
    - intros Hnone. rewrite <- membersOf_memberDocuments in Hnone.
      rewrite Hw, (categoryCloud_fallback _ _ _ Hnone), Hget. exact Hvoc. }
  assert (Hshown : forall category,
            In category (map fst (fst (generateWordClouds randomDraw targetData docs k))) ->
            List.filter hasContent (memberDocuments targetData docs category) = [] ->
            exists words,
              getField (fst (generateWordClouds randomDraw targetData docs k)) category
              = Some words
              /\ map text words = vocabulary category).
  { intros category Hk Hnone. apply in_map_iff in Hk.
    destruct Hk as ([c words] & Hc & Hin). cbn [fst] in Hc. subst c.
    exists words. split; [now apply in_getField|].
    now apply (Hcloud category words Hin). }
  split; [exact Hne|]. split.
  { unfold renderWordClouds. intros E. apply map_eq_nil in E. now apply Hne. }
  split.
  { intros category words Hin. destruct (Hcloud category words Hin) as [Hw _].
    split; [exact Hw|]. unfold WordCloud. apply firstn_nonempty.
    now apply sortWords_nonempty. }
  split.
  { intros category Hmem Hnone. apply Hshown; [|exact Hnone].
    apply Kin. destruct (existsb (hasReference targetData) docs) eqn:Ex.
    - now rewrite membersOf_memberDocuments.
    - exfalso. apply Hmem. now apply unmatched_iff. }
  split.
  { intros Hnomatch category Hdefault. apply Hshown.
    - apply Kin. rewrite (proj2 (unmatched_iff targetData docs) Hnomatch).
      exact Hdefault.
    - now rewrite Hnomatch. }
  intros category other Hnone Hother.
  destruct (getField (fst (generateWordClouds randomDraw targetData docs k)) category)
    as [words|] eqn:E; [|reflexivity].
  exfalso. apply getField_in in E.
  assert (Hk : In category
                 (map fst (fst (generateWordClouds randomDraw targetData docs k))))
    by (apply in_map_iff; exists (category, words); auto).
  apply Kin in Hk. destruct (existsb (hasReference targetData) docs) eqn:Ex.
  - apply Hk. now rewrite membersOf_memberDocuments.
  - apply Hother. now apply unmatched_iff.
Qed.

Lemma word_cloud_falls_back_to_placeholder_witness :
  let clouds :=
    fst (generateWordClouds (fun n => Z.of_nat n) sampleLabels
           [contractWithText; unclassifiedDocument] 0) in
  clouds <> []
  /\ (exists words,
        getField clouds "Other" = Some words
        /\ map text words = vocabulary "Other")
  /\ getField clouds "Academic Paper" = None.
Proof.
  cbv zeta.
  destruct (word_cloud_falls_back_to_placeholder (fun n => Z.of_nat n) sampleLabels
              [contractWithText; unclassifiedDocument] 0)
    as (H1 & _ & _ & H4 & _ & H6).
  - repeat constructor.
  - split; [exact H1|]. split.
    + apply H4; [vm_compute; discriminate|reflexivity].
    + apply (H6 "Academic Paper"%string "Other"%string);
        [reflexivity|vm_compute; discriminate].
Defined.

(** ** C6: the words of a category *)

(** C6, as stated, fails: the text of the contract contains "legal" twice,
    which is neither a stop-word, nor short, nor numeric, and is its most
    frequent token; but the cloud of "Legal Document" leaves it out, because
    the word occurs in the name of the category. *)
Lemma category_name_words_left_out :
  preprocessText (contentOf contractWithText)
    = ["legal"; "terms"; "legal"; "contract"; "binds"; "parties"]%string
  /\ map text (specifiedWordCloud
                 (memberDocuments sampleLabels [contractWithText] "Legal Document") 50)
     = ["legal"; "terms"; "contract"; "binds"; "parties"]%string
  /\ map text
       (WordCloud
          (default []
             (getField (fst (generateWordClouds (fun n => Z.of_nat n) sampleLabels
                               [contractWithText] 0))
                       "Legal Document")) 50)
     = ["terms"; "contract"; "binds"; "parties"]%string.
Proof. repeat split; vm_compute; reflexivity. Qed.

Lemma StronglySorted_app {A : Type} (R : A -> A -> Prop) l1 l2 :
  StronglySorted R (l1 ++ l2) ->
  StronglySorted R l1 /\ forall a b, In a l1 -> In b l2 -> R a b.
Proof.
  induction l1 as [|x l1 IH]; simpl; intros H.
  - split; [constructor|]. intros a b [].
  - inversion H as [|? ? Hs Hx]; subst. destruct (IH Hs) as [I1 I2].
    rewrite List.Forall_forall in Hx. split.
    + constructor; [exact I1|]. apply List.Forall_forall. intros y Hy.
      apply Hx. apply in_or_app. now left.
    + intros a b [<-|Ha] Hb; [|auto]. apply Hx. apply in_or_app. now right.
Qed.

Lemma ofNat_le a b : (toQ (ofNat a) <= toQ (ofNat b))%Q -> a <= b.
Proof.
  unfold ofNat, ofZ, toQ, Qle. simpl. lia.
Qed.

Lemma wordOf_finite e : finiteWord (wordOf e).
Proof. reflexivity. Qed.

Lemma keepWord_spec w :
  keepWord w = true ->
  2 < String.length w /\ includes STOP_WORDS w = false /\ isNumeric w = false.
Proof.
  unfold keepWord. intros H.
  apply andb_true_iff in H. destruct H as [H H3].
  apply andb_true_iff in H. destruct H as [H1 H2].
  apply Nat.ltb_lt in H1. apply negb_true_iff in H2, H3. auto.
Qed.

Lemma lowerChar_notUpper c : notUpper (lowerChar c) = true.
Proof.
  destruct c as [b0 b1 b2 b3 b4 b5 b6 b7].
  destruct b0, b1, b2, b3, b4, b5, b6, b7; reflexivity.
Qed.

Lemma allChars_mapString p f s :
  (forall c, p (f c) = true) -> allChars p (mapString f s) = true.
Proof.
  intros H. induction s as [|c s IH]; simpl; [reflexivity|].
  now rewrite H, IH.
Qed.

Lemma allChars_revString p s : forall acc,
  allChars p s = true -> allChars p acc = true ->
  allChars p (revString acc s) = true.
Proof.
  induction s as [|c s IH]; intros acc Hs Hacc; simpl in *; [assumption|].
  apply andb_true_iff in Hs. destruct Hs as [Hc Hs].
  apply IH; [assumption|]. simpl. now rewrite Hc, Hacc.
Qed.

Lemma allChars_splitFrom p s : forall cur inRun,
  allChars p s = true -> allChars p cur = true ->
  Forall (fun t => allChars p t = true) (splitFrom s cur inRun).
Proof.
  induction s as [|c s IH]; intros cur inRun Hs Hcur; simpl in *.
  - constructor; [|constructor]. now apply allChars_revString.
  - apply andb_true_iff in Hs. destruct Hs as [Hc Hs].
    destruct (isSpace c).
    + destruct inRun; [now apply IH|].
      constructor; [now apply allChars_revString|]. now apply IH.
    + apply IH; [assumption|]. simpl. now rewrite Hc, Hcur.
Qed.

(** The tokens are read after lowercasing: none has an upper-case letter. *)
Lemma preprocessText_lowercase text0 :
  Forall (fun t => allChars notUpper t = true) (preprocessText text0).
Proof.
  unfold preprocessText. apply Forall_filter.
  unfold splitWhitespace, replacePunctuation, toLowerCase.
  apply allChars_splitFrom; [|reflexivity].
  assert (H : forall s, allChars notUpper s = true ->
              allChars notUpper
                (mapString (fun c => if isWordChar c || isSpace c then c else " "%char) s)
              = true).
  { induction s as [|c s IH]; simpl; [reflexivity|]. intros Hcs.
    apply andb_true_iff in Hcs. destruct Hcs as [Hc Hs].
    rewrite (IH Hs), andb_true_r.
    destruct (isWordChar c || isSpace c); [exact Hc|reflexivity]. }
  apply H. apply allChars_mapString. apply lowerChar_notUpper.
Qed.

(** C6, amended: when some token of a category survives, and no token is a
    name that every JavaScript object inherits ([constructor], [__proto__]
    and the like, which the counting object does not count), the words on
    display are tokens of the combined text of its member documents with
    content, read after lowercasing; none is a stop-word, shorter than three
    characters or purely numeric, and none is the category name or a word of
    more than three characters occurring in it; each carries its number of
    occurrences; no word comes twice; they are in descending order of count,
    at most 50, and every token left out is outranked by 50 words on
    display. *)
Theorem word_cloud_top_tokens
    (randomDraw : nat -> Z) (targetData : list Target.TargetData)
    (docs : list DocumentType) (k : nat) (category : string)
    (words : list WordCloudWord) :
  ordinaryCategories targetData ->
  In (category, words) (fst (generateWordClouds randomDraw targetData docs k)) ->
  let members := memberDocuments targetData docs category in
  let allTokens :=
    preprocessText (join (map contentOf (List.filter hasContent members))) in
  let shown := WordCloud words 50 in
  Forall (fun t => inherited t = false) allTokens ->
  Exists (fun t => excluded category t = false) allTokens ->
  Forall (fun w => In (text w) allTokens
                   /\ allChars notUpper (text w) = true
                   /\ 2 < String.length (text w)
                   /\ includes STOP_WORDS (text w) = false
                   /\ isNumeric (text w) = false
                   /\ excluded category (text w) = false
                   /\ value w = ofNat (countFor (text w) allTokens)) shown
  /\ StronglySorted precedes shown
  /\ List.NoDup (map text shown)
  /\ length shown <= 50
  /\ (forall t, In t allTokens -> excluded category t = false ->
        In t (map text shown)
        \/ (length shown = 50
            /\ Forall (fun w => countFor t allTokens <= countFor (text w) allTokens)
                      shown)).
Proof.
  intros _ Hin. cbv zeta. intros Hplain Hsome.
  destruct (generateWordClouds_cases _ _ _ _ _ _ Hin) as (phs & ph & _ & _ & Hw).
  rewrite membersOf_memberDocuments in Hw.
  set (members := memberDocuments targetData docs category) in *.
  set (allTokens := preprocessText (join (map contentOf (List.filter hasContent members))))
    in *.
  rewrite (categoryCloud_spec _ _ _ Hplain) in Hw.
  assert (Etok : categoryTokens category members
                 = List.filter (fun w => negb (excluded category w)) allTokens)
    by reflexivity.
  assert (Htok : categoryTokens category members <> []).
  { apply List.Exists_exists in Hsome. destruct Hsome as (t & Ht & Hex).
    intros E. assert (Hin' : In t (categoryTokens category members)).
    { rewrite Etok. apply List.filter_In. split; [exact Ht|]. now rewrite Hex. }
    rewrite E in Hin'. destruct Hin'. }
  set (tokens := categoryTokens category members) in *.
  set (full := sortWords (map wordOf (fold_left tallyStep tokens []))) in *.
  assert (Hwords : words = full)
    by (destruct tokens; [congruence|exact Hw]).
  clear Hw. subst words.
  destruct (tally_spec tokens) as [Tnd Tspec]. cbv zeta in Tnd, Tspec.
  assert (Hperm : Permutation full (map wordOf (fold_left tallyStep tokens [])))
    by apply sortWords_perm.
  assert (Hfin : Forall finiteWord full).
  { apply (Forall_perm _ _ _ (Permutation_sym Hperm)).
    apply List.Forall_forall. intros w Hw. apply in_map_iff in Hw.
    destruct Hw as (e & <- & _). apply wordOf_finite. }
  assert (Hsorted : StronglySorted precedes full).
  { apply sortWords_sorted. apply List.Forall_forall. intros w Hw.
    apply in_map_iff in Hw. destruct Hw as (e & <- & _). apply wordOf_finite. }
  assert (Hshown : WordCloud full 50 = firstn 50 full)
    by (unfold WordCloud; now rewrite sortWords_fixpoint).
  rewrite Hshown.
  assert (Hsplit : full = firstn 50 full ++ skipn 50 full)
    by (symmetry; apply firstn_skipn).
  assert (Hcount : forall t, In t tokens -> countFor t tokens = countFor t allTokens).
  { intros t Ht. rewrite Etok in *. apply List.filter_In in Ht.
    destruct Ht as [_ Ht]. now apply countFor_filter. }
  assert (Hfull : forall w, In w full ->
            In (text w) tokens /\ value w = ofNat (countFor (text w) allTokens)).
  { intros w Hw. apply (Permutation_in _ Hperm) in Hw. apply in_map_iff in Hw.
    destruct Hw as ([t n] & <- & He). apply Tspec in He. destruct He as [Ht ->].
    cbn [wordOf text value fst snd]. split; [exact Ht|]. now rewrite Hcount. }
  assert (Hin50 : forall w, In w (firstn 50 full) -> In w full).
  { intros w Hw. rewrite Hsplit. apply in_or_app. now left. }
  split.
  { apply List.Forall_forall. intros w Hw. apply Hin50, Hfull in Hw.
    destruct Hw as [Ht Hv]. rewrite Etok in Ht. apply List.filter_In in Ht.
    destruct Ht as [Hall Hex]. apply negb_true_iff in Hex.
    assert (Hkeep : keepWord (text w) = true).
    { unfold allTokens, preprocessText in Hall. apply List.filter_In in Hall. tauto. }
    apply keepWord_spec in Hkeep.
    assert (Hlow := preprocessText_lowercase
                      (join (map contentOf (List.filter hasContent members)))).
    rewrite List.Forall_forall in Hlow. specialize (Hlow _ Hall). tauto. }
  rewrite Hsplit in Hsorted. apply StronglySorted_app in Hsorted.
  destruct Hsorted as [Hs1 Hs2]. split; [exact Hs1|]. split.
  { assert (Hnd : List.NoDup (map text full)).
    { apply (Permutation_NoDup (l := map fst (fold_left tallyStep tokens []))); [|exact Tnd].
      rewrite Hperm, map_map. apply Permutation_refl. }
    rewrite Hsplit, map_app in Hnd. now apply NoDup_app_remove_r in Hnd. }
  split; [apply firstn_le_length|].
  intros t Ht Hex.
  assert (Htok' : In t tokens).
  { rewrite Etok. apply List.filter_In. split; [exact Ht|]. now rewrite Hex. }
  assert (Hw : In (wordOf (t, countFor t tokens)) full).
  { apply (Permutation_in _ (Permutation_sym Hperm)). apply in_map.
    apply Tspec. auto. }
  rewrite Hsplit in Hw. apply in_app_or in Hw. destruct Hw as [Hw|Hw].
  - left. apply in_map_iff. exists (wordOf (t, countFor t tokens)). auto.
  - right. split.
    + rewrite length_firstn. 
      assert (50 < length full).
      { destruct (Nat.le_gt_cases (length full) 50) as [Hle|Hgt]; [|exact Hgt].
        rewrite skipn_all2 in Hw by exact Hle. destruct Hw. }
      lia.
    + apply List.Forall_forall. intros w Hw50.
      assert (Hp := Hs2 _ _ Hw50 Hw).
      assert (Hwf : In w full) by now apply Hin50.
      apply precedes_Q in Hp; [|rewrite List.Forall_forall in Hfin; now apply Hfin
                               |apply wordOf_finite].
      destruct (Hfull w Hwf) as [_ Hv]. rewrite Hv in Hp.
      cbn [wordOf value snd] in Hp. rewrite Hcount in Hp by exact Htok'.
      now apply ofNat_le.
Qed.

Lemma word_cloud_top_tokens_witness :
  let clouds :=
    fst (generateWordClouds (fun n => Z.of_nat n) sampleLabels [contractWithText] 0) in
  let words := default [] (getField clouds "Legal Document") in
  let allTokens :=
    preprocessText
      (join (map contentOf
               (List.filter hasContent
                  (memberDocuments sampleLabels [contractWithText] "Legal Document")))) in
  let shown := WordCloud words 50 in
  Forall (fun w => In (text w) allTokens
                   /\ allChars notUpper (text w) = true
                   /\ 2 < String.length (text w)
                   /\ includes STOP_WORDS (text w) = false
                   /\ isNumeric (text w) = false
                   /\ excluded "Legal Document" (text w) = false
                   /\ value w = ofNat (countFor (text w) allTokens)) shown
  /\ StronglySorted precedes shown
  /\ List.NoDup (map text shown)
  /\ length shown <= 50
  /\ (forall t, In t allTokens -> excluded "Legal Document" t = false ->
        In t (map text shown)
        \/ (length shown = 50
            /\ Forall (fun w => countFor t allTokens <= countFor (text w) allTokens)
                      shown)).
Proof.
  apply (word_cloud_top_tokens (fun n => Z.of_nat n) sampleLabels
           [contractWithText] 0 "Legal Document").
  - repeat constructor.
  - vm_compute. left. reflexivity.
  - vm_compute. repeat constructor.
  - vm_compute. apply Exists_cons_tl, Exists_cons_hd. reflexivity.
Defined.

(** ** Values of the error service *)

Import Errors.

Lemma optGet_truthy_object v k :
  jsTruthy (optGet v k) = true -> exists fields, v = JObject fields.
Proof.
  destruct v; simpl; try discriminate. eauto.
Qed.

Lemma jsOr_truthy a b : jsTruthy a = true -> jsOr a b = a.
Proof. intros H. unfold jsOr. now rewrite H. Qed.

(** * Further properties of the code *)

(** ** The statistics page: counts and scatter plot *)

Lemma statsTop_valid l : forall c0 v0,
  In c0 VALID_CATEGORIES ->
  In (fst (fold_left statsTopStep l (c0, v0))) VALID_CATEGORIES.
Proof.
  induction l as [|e l IH]; intros c0 v0 Hc0; cbn [fold_left]; [exact Hc0|].
  unfold statsTopStep at 2.
  destruct (validEntry e) eqn:Ev; cbn [andb].
  - destruct (gtb (snd e) (snd (c0, v0))).
    + destruct e as [c v]. apply IH. unfold validEntry in Ev. now apply includes_true.
    + now apply IH.
  - now apply IH.
Qed.

Lemma topOfDoc_valid doc : In (topOfDoc doc) VALID_CATEGORIES.
Proof.
  unfold topOfDoc, statsTop. apply statsTop_valid.
  unfold VALID_CATEGORIES. simpl. tauto.
Qed.

Lemma VALID_NoDup : List.NoDup VALID_CATEGORIES.
Proof.
  unfold VALID_CATEGORIES.
  repeat (constructor; [simpl; intuition discriminate|]). constructor.
Qed.

Lemma list_sum_add {A : Type} (f g : A -> nat) l :
  list_sum (map (fun x => f x + g x) l) = list_sum (map f l) + list_sum (map g l).
Proof. induction l as [|x l IH]; simpl; lia. Qed.

Lemma indicator_sum k l :
  List.NoDup l ->
  list_sum (map (fun c => if String.eqb c k then 1 else 0) l)
  = if includes l k then 1 else 0.
Proof.
  unfold includes.
  induction 1 as [|x l Hx Hnd IH]; simpl; [reflexivity|].
  rewrite IH, (String.eqb_sym k x).
  destruct (String.eqb_spec x k) as [->|Hne]; simpl; [|reflexivity].
  destruct (existsb (String.eqb k) l) eqn:E; [|reflexivity].
  exfalso. apply Hx. now apply includes_true.
Qed.

(** Keys drawn from a duplicate-free list are counted once each. *)
Lemma count_partition l keys :
  List.NoDup l -> Forall (fun k => In k l) keys ->
  list_sum (map (fun c => countFor c keys) l) = length keys.
Proof.
  intros Hnd Hkeys. induction Hkeys as [|k keys Hk _ IH]; simpl.
  - unfold countFor. simpl. clear Hnd. induction l as [|x l IHl]; simpl; auto.
  - rewrite <- IH.
    rewrite (map_ext (fun c => countFor c (k :: keys))
                     (fun c => (if String.eqb c k then 1 else 0) + countFor c keys)).
    + rewrite list_sum_add, indicator_sum by assumption.
      now rewrite (includes_In _ _ Hk).
    + intros c. unfold countFor. simpl. destruct (String.eqb c k); reflexivity.
Qed.

Lemma performPCA_shape data out :
  performPCA data = Some out ->
  length out = length data /\ Forall (fun row => length row = 2) out.
Proof.
  destruct data as [|row0 rest]; [discriminate|].
  unfold performPCA. cbv zeta. intros H. injection H as <-.
  split.
  - cbn [length]. f_equal. rewrite length_map. apply centerData_length.
  - constructor; [reflexivity|].
    apply List.Forall_forall. intros row Hin. apply in_map_iff in Hin.
    destruct Hin as (point & <- & _). reflexivity.
Qed.

Lemma accumulate_lists docs :
  length (featureVectors (accumulate docs)) = length docs
  /\ docCategories (accumulate docs) = map topOfDoc docs
  /\ docFilenames (accumulate docs) = map displayName docs.
Proof.
  unfold accumulate.
  destruct (accumulate_fields docs initAcc) as (_ & _ & _ & _ & _ & H6 & H7 & H8).
  cbv zeta in H6, H7, H8. rewrite H6, H7, H8. cbn [app initAcc].
  split; [apply length_map|]. split; reflexivity.
Qed.

(** X1: whatever the documents, the report exists and the bars of the count
    chart add up to the number of documents: every document is counted under
    exactly one registered category. *)
Theorem count_chart_adds_up (docs : list DocumentType) :
  exists report,
    fetchData docs = Some report
    /\ Charts.countChartData (categoryCounts report)
       = map (fun c => topCount c docs) VALID_CATEGORIES
    /\ list_sum (Charts.countChartData (categoryCounts report)) = length docs.
Proof.
  destruct (fetchData_report docs) as (report & Hr & R1 & _).
  exists report. split; [exact Hr|].
  assert (Hbars : Charts.countChartData (categoryCounts report)
                  = map (fun c => topCount c docs) VALID_CATEGORIES).
  { unfold Charts.countChartData. apply map_ext_in. intros c Hc.
    now rewrite R1, accumulate_counts. }
  split; [exact Hbars|]. rewrite Hbars. unfold topCount.
  rewrite count_partition.
  - apply length_map.
  - apply VALID_NoDup.
  - apply List.Forall_forall. intros k Hk. apply in_map_iff in Hk.
    destruct Hk as (doc & <- & _). apply topOfDoc_valid.
Qed.

(** X2: the scatter plot has one point, one category and one file name per
    document as soon as there are two documents, and stays empty for no
    document or a single one. *)
Theorem scatter_plot_one_point_per_document (docs : list DocumentType) :
  exists report,
    fetchData docs = Some report
    /\ length (pcaPoints report) = (if 2 <=? length docs then length docs else 0)
    /\ pcaCategories report = (if 2 <=? length docs then map topOfDoc docs else [])
    /\ pcaFilenames report = (if 2 <=? length docs then map displayName docs else []).
Proof.
  destruct (accumulate_lists docs) as (Hlen & Hcat & Hnames).
  unfold fetchData.
  destruct (pcaStep_cases (featureVectors (accumulate docs)))
    as [[Hlt ->]|[Hge (reduced & Hpca & ->)]].
  - eexists. split; [reflexivity|]. cbn [pcaPoints pcaCategories pcaFilenames].
    replace (2 <=? length docs) with false
      by (symmetry; apply Nat.leb_gt; lia).
    repeat split.
  - eexists. split; [reflexivity|]. cbn [pcaPoints pcaCategories pcaFilenames].
    replace (2 <=? length docs) with true
      by (symmetry; apply Nat.leb_le; lia).
    destruct (performPCA_shape _ _ Hpca) as [Hout _].
    rewrite length_map, Hout, Hlen, Hcat, Hnames. repeat split.
Qed.

Lemma nth_error_skipn {A : Type} (l : list A) i : nth_error l i = hd_error (skipn i l).
Proof.
  revert l; induction i as [|i IH]; intros [|x l]; simpl; auto.
Qed.

Lemma skipn_tl {A : Type} (l : list A) i : skipn (S i) l = tl (skipn i l).
Proof.
  revert i; induction l as [|x l IH]; intros i.
  - destruct i; reflexivity.
  - destruct i as [|i]; [reflexivity|]. simpl. apply IH.
Qed.

(** The loop over the points, read as [pickFrom]. *)
Lemma categoryDataset_loop category categories names points : forall idx acc,
  reduce_from
    (fun (acc : list (num * num) * list (option string)) point idx =>
       match nth_error categories idx with
       | Some c =>
           if String.eqb c category
           then (fst acc ++ [point], snd acc ++ [nth_error names idx])
           else acc
       | None => acc
       end)
    idx points acc
  = (fst acc ++ fst (pickFrom category points (skipn idx categories) (skipn idx names)),
     snd acc ++ snd (pickFrom category points (skipn idx categories) (skipn idx names))).
Proof.
  induction points as [|point rest IH]; intros idx acc; cbn [reduce_from pickFrom].
  - cbn [fst snd]. rewrite !app_nil_r. now destruct acc.
  - rewrite IH, !skipn_tl, !nth_error_skipn.
    destruct (skipn idx categories) as [|c cs]; cbn [hd_error tl]; [reflexivity|].
    destruct (String.eqb c category); cbn [fst snd]; [|reflexivity].
    now rewrite <- !app_assoc.
Qed.

Lemma categoryDataset_spec points categories names category :
  Charts.data (Charts.categoryDataset points categories names category)
    = fst (pickFrom category points categories names)
  /\ Charts.filenames (Charts.categoryDataset points categories names category)
    = snd (pickFrom category points categories names).
Proof.
  unfold Charts.categoryDataset, reduce. rewrite categoryDataset_loop.
  cbn [Charts.data Charts.filenames fst snd skipn app]. split; reflexivity.
Qed.

Lemma pickFrom_spec category points : forall categories names,
  length categories = length points -> length names = length points ->
  length (fst (pickFrom category points categories names)) = countFor category categories
  /\ length (snd (pickFrom category points categories names))
     = length (fst (pickFrom category points categories names))
  /\ Forall (fun name => name <> None) (snd (pickFrom category points categories names)).
Proof.
  induction points as [|point rest IH]; intros categories names Hc Hn.
  - destruct categories; [|discriminate]. cbn. repeat split; constructor.
  - destruct categories as [|c cs]; [discriminate|].
    destruct names as [|n ns]; [discriminate|].
    injection Hc as Hc. injection Hn as Hn.
    destruct (IH cs ns Hc Hn) as (I1 & I2 & I3).
    cbn [pickFrom tl hd_error]. unfold countFor. cbn [List.filter].
    rewrite (String.eqb_sym category c).
    destruct (String.eqb c category); cbn [fst snd length].
    + repeat split; [now rewrite I1|now rewrite I2|].
      constructor; [discriminate|exact I3].
    + repeat split; assumption.
Qed.

Lemma NoDup_map_filter {A B : Type} (f : A -> B) (p : A -> bool) l :
  List.NoDup (map f l) -> List.NoDup (map f (List.filter p l)).
Proof.
  induction l as [|x l IH]; simpl; intros H; [constructor|].
  inversion H as [|? ? Hx Hl]; subst.
  destruct (p x); simpl; [|auto].
  constructor; [|auto]. intros Hin. apply Hx.
  apply in_map_iff in Hin. destruct Hin as (y & Hy & Hin).
  apply List.filter_In in Hin. apply in_map_iff. exists y. tauto.
Qed.

Lemma list_sum_filter_positive {A : Type} (f : A -> nat) l :
  list_sum (map f (List.filter (fun x => 0 <? f x) l)) = list_sum (map f l).
Proof.
  induction l as [|x l IH]; simpl; [reflexivity|].
  destruct (0 <? f x) eqn:E; simpl; rewrite IH; [reflexivity|].
  apply Nat.ltb_ge in E. lia.
Qed.

(** X3: the scatter datasets split the plotted documents by category: no
    dataset is empty, each belongs to a registered category and no two to
    the same one, every point comes with its file name, and together the
    datasets hold exactly the points of the plot. *)
Theorem scatter_datasets_partition_points (docs : list DocumentType) (report : Report) :
  fetchData docs = Some report ->
  let datasets := Charts.pcaChartData report in
  list_sum (map (fun d => length (Charts.data d)) datasets) = length (pcaPoints report)
  /\ List.NoDup (map Charts.label datasets)
  /\ Forall (fun d => Charts.data d <> []
                      /\ In (Charts.label d) VALID_CATEGORIES
                      /\ length (Charts.filenames d) = length (Charts.data d)
                      /\ Forall (fun name => name <> None) (Charts.filenames d))
            datasets.
Proof.
  intros Hreport. cbv zeta.
  destruct (scatter_plot_one_point_per_document docs) as (report' & Hr & Hp & Hc & Hn).
  rewrite Hreport in Hr. injection Hr as <-.
  assert (Hlc : length (pcaCategories report) = length (pcaPoints report)).
  { rewrite Hc, Hp. destruct (2 <=? length docs); [apply length_map|reflexivity]. }
  assert (Hln : length (pcaFilenames report) = length (pcaPoints report)).
  { rewrite Hn, Hp. destruct (2 <=? length docs); [apply length_map|reflexivity]. }
  assert (Hvalid : Forall (fun k => In k VALID_CATEGORIES) (pcaCategories report)).
  { rewrite Hc. destruct (2 <=? length docs); [|constructor].
    apply List.Forall_forall. intros k Hk. apply in_map_iff in Hk.
    destruct Hk as (doc & <- & _). apply topOfDoc_valid. }
  assert (Hspec : forall c,
            let d := Charts.categoryDataset (pcaPoints report) (pcaCategories report)
                       (pcaFilenames report) c in
            length (Charts.data d) = countFor c (pcaCategories report)
            /\ length (Charts.filenames d) = length (Charts.data d)
            /\ Forall (fun name => name <> None) (Charts.filenames d)).
  { intros c. cbv zeta.
    destruct (categoryDataset_spec (pcaPoints report) (pcaCategories report)
                (pcaFilenames report) c) as [-> ->].
    now apply pickFrom_spec. }
  unfold Charts.pcaChartData. split; [|split].
  - rewrite (list_sum_filter_positive (fun d => length (Charts.data d))), map_map.
    rewrite (map_ext_in _ (fun c => countFor c (pcaCategories report)))
      by (intros c _; apply (Hspec c)).
    rewrite count_partition; auto using VALID_NoDup.
  - apply NoDup_map_filter. rewrite map_map. cbn [Charts.label Charts.categoryDataset].
    rewrite map_id. apply VALID_NoDup.
  - apply List.Forall_forall. intros d Hd. apply List.filter_In in Hd.
    destruct Hd as [Hin Hpos]. apply Nat.ltb_lt in Hpos.
    apply in_map_iff in Hin. destruct Hin as (c & <- & Hc').
    destruct (Hspec c) as (_ & S2 & S3). cbv zeta in S2, S3.
    repeat split; auto.
    intros E. rewrite E in Hpos. simpl in Hpos. lia.
Qed.

Lemma scatter_datasets_partition_points_witness :
  exists report,
    fetchData [contractDocument; thesisDocument; tiedDocument] = Some report
    /\ list_sum (map (fun d => length (Charts.data d)) (Charts.pcaChartData report)) = 3
    /\ map Charts.label (Charts.pcaChartData report)
       = ["Legal Document"; "Academic Paper"]%string.
Proof.
  destruct (fetchData [contractDocument; thesisDocument; tiedDocument])
    as [report|] eqn:E; [|vm_compute in E; discriminate].
  exists report. split; [reflexivity|].
  destruct (scatter_datasets_partition_points _ report E) as (H1 & _).
  split.
  - rewrite H1.
    destruct (scatter_plot_one_point_per_document
                [contractDocument; thesisDocument; tiedDocument]) as (r & Hr & Hp & _).
    rewrite E in Hr. injection Hr as <-. exact Hp.
  - vm_compute in E. injection E as <-. vm_compute. reflexivity.
Defined.

(** ** The document list and the detail page *)

(** X5: with finite confidences, a row of the document list falls back to
    "Unclassified" with confidence 0 exactly when the document has no
    mapping or no entry of its mapping has a positive confidence. *)
Theorem unclassified_row_iff_no_positive_entry (doc : DocumentType) :
  Forall (fun e => finite (snd e)) (entriesOf doc) ->
  (DocumentList.topCategory doc = ("Unclassified"%string, zero)
   <-> Forall (fun e => positiveEntry e = false) (entriesOf doc)).
Proof.
  intros Hfin.
  assert (Htop : DocumentList.topCategory doc
                 = fold_left (pickStep (fun _ => true)) (entriesOf doc)
                             ("Unclassified"%string, zero)).
  { unfold DocumentList.topCategory, entriesOf.
    destruct (category_prediction doc); [apply fold_topStep_pick|reflexivity]. }
  rewrite Htop.
  destruct (pick_fold (fun _ => true) (entriesOf doc) "Unclassified"%string zero
              eq_refl Hfin)
    as [[Hsame Hno]|(pre & c & v & post & _ & Hres & _ & Hgt & _)].
  - split; [|intros _; exact Hsame]. intros _.
    apply List.Forall_forall. intros e He. now apply Hno.
  - rewrite Hres. split.
    + intros E. injection E as _ Ev. subst v. vm_compute in Hgt. discriminate.
    + intros Hall. rewrite List.Forall_forall in Hall.
      assert (Hin : In (c, v) (entriesOf doc)).
      { destruct (pick_fold (fun _ => true) (entriesOf doc) "Unclassified"%string
                    zero eq_refl Hfin)
          as [[Hsame _]|(pre' & c' & v' & post' & Hsplit & Hres' & _)].
        - rewrite Hsame in Hres. injection Hres as _ <-. vm_compute in Hgt. discriminate.
        - rewrite Hres' in Hres. injection Hres as <- <-.
          rewrite Hsplit. apply in_or_app. right. now left. }
      specialize (Hall _ Hin). unfold positiveEntry in Hall. cbn [snd] in Hall.
      congruence.
Qed.

Lemma unclassified_row_iff_no_positive_entry_witness :
  (DocumentList.topCategory unclassifiedDocument = ("Unclassified"%string, zero)
   <-> Forall (fun e => positiveEntry e = false) (entriesOf unclassifiedDocument))
  /\ DocumentList.topCategory unclassifiedDocument = ("Unclassified"%string, zero).
Proof.
  split; [|reflexivity].
  apply (unclassified_row_iff_no_positive_entry unclassifiedDocument). constructor.
Defined.

(** On finite numbers, [b - a < 0] is [a > b]. *)
Lemma before_gtb a b :
  finite (snd a) -> finite (snd b) ->
  DocumentDetail.before a b = gtb (snd a) (snd b).
Proof.
  unfold DocumentDetail.before.
  destruct (snd a) as [x| | |], (snd b) as [y| | |]; intros Ha Hb; try discriminate.
  cbn [sub]. unfold zero, ofZ, fin.
  destruct (gtb (Fin x) (Fin y)) eqn:E.
  - apply gtb_fin. rewrite Qred_correct. apply gtb_fin in E.
    apply (Qplus_lt_l _ _ x). ring_simplify. exact E.
  - apply gtb_fin_false. rewrite Qred_correct. apply gtb_fin_false in E.
    apply (Qplus_le_l _ _ x). ring_simplify. exact E.
Qed.

Lemma insertEntry_perm x l : Permutation (DocumentDetail.insertEntry x l) (x :: l).
Proof.
  induction l as [|y t IH]; simpl; [reflexivity|].
  destruct (DocumentDetail.before y x); [|reflexivity].
  rewrite IH. apply perm_swap.
Qed.

Lemma sortEntries_perm l : Permutation (DocumentDetail.sortEntries l) l.
Proof.
  induction l as [|x l IH]; simpl; [reflexivity|].
  rewrite insertEntry_perm. now constructor.
Qed.

(** The stable descending sort puts first the first entry of highest
    confidence. *)
Lemma sortEntries_head pre c v post :
  Forall (fun e => finite (snd e)) (pre ++ (c, v) :: post) ->
  (forall e, In e pre -> gtb v (snd e) = true) ->
  (forall e, In e post -> gtb (snd e) v = false) ->
  exists rest, DocumentDetail.sortEntries (pre ++ (c, v) :: post) = (c, v) :: rest.
Proof.
  intros Hfin Hpre Hpost.
  apply Forall_app in Hfin. destruct Hfin as [Hfpre Hfrest].
  inversion Hfrest as [|? ? Hv Hfpost]; subst. cbn [snd] in Hv.
  induction pre as [|p pre IH]; cbn [app DocumentDetail.sortEntries fold_right].
  - fold (DocumentDetail.sortEntries post).
    assert (Hs : Forall (fun e => finite (snd e) /\ gtb (snd e) v = false)
                        (DocumentDetail.sortEntries post)).
    { apply (Forall_perm _ post); [symmetry; apply sortEntries_perm|].
      apply List.Forall_forall. intros e He. rewrite List.Forall_forall in Hfpost.
      split; auto. }
    destruct (DocumentDetail.sortEntries post) as [|y t]; [now exists []|].
    inversion Hs as [|? ? [Hy Hyv] _]; subst. cbn [DocumentDetail.insertEntry].
    rewrite before_gtb by assumption. cbn [snd]. rewrite Hyv. eauto.
  - fold (DocumentDetail.sortEntries (pre ++ (c, v) :: post)).
    inversion Hfpre as [|? ? Hp Hfpre']; subst.
    destruct IH as (rest & ->); auto.
    { intros e He. apply Hpre. now right. }
    cbn [DocumentDetail.insertEntry].
    rewrite before_gtb by assumption. cbn [snd].
    rewrite (Hpre p) by now left. eauto.
Qed.

(** X6: for a document with finite confidences, one of them positive, the
    bars of the detail page are the entries of the mapping, each once, and
    the first bar is the category and confidence shown for the document in
    the document list. *)
Theorem detail_first_bar_is_list_category (doc : DocumentType) :
  Forall (fun e => finite (snd e)) (entriesOf doc) ->
  Exists (fun e => positiveEntry e = true) (entriesOf doc) ->
  exists rest,
    DocumentDetail.classificationBars doc = Some (DocumentList.topCategory doc :: rest)
    /\ Permutation (DocumentList.topCategory doc :: rest) (entriesOf doc).
Proof.
  intros Hfin Hex.
  apply List.Exists_exists in Hex. destruct Hex as (e0 & Hin0 & Hpos0).
  assert (Hbars : DocumentDetail.classificationBars doc
                  = Some (DocumentDetail.sortEntries (entriesOf doc))).
  { unfold DocumentDetail.classificationBars, entriesOf in *.
    destruct (category_prediction doc) as [[|e p]|]; [destruct Hin0|reflexivity|destruct Hin0]. }
  assert (Htop : DocumentList.topCategory doc
                 = fold_left (pickStep (fun _ => true)) (entriesOf doc)
                             ("Unclassified"%string, zero)).
  { unfold DocumentList.topCategory, entriesOf.
    destruct (category_prediction doc); [apply fold_topStep_pick|reflexivity]. }
  rewrite Hbars, Htop.
  destruct (pick_fold (fun _ => true) (entriesOf doc) "Unclassified"%string zero
              eq_refl Hfin)
    as [[_ Hno]|(pre & c & v & post & Hsplit & Hres & _ & _ & Hpre & Hpost)].
  - unfold positiveEntry in Hpos0. rewrite (Hno e0 Hin0 eq_refl) in Hpos0. discriminate.
  - rewrite Hres.
    destruct (sortEntries_head pre c v post) as (rest & Hsort).
    + now rewrite <- Hsplit.
    + intros e' He'. now apply Hpre.
    + intros e' He'. now apply Hpost.
    + exists rest. rewrite <- Hsplit in Hsort. split; [now rewrite Hsort|].
      rewrite <- Hsort. apply sortEntries_perm.
Qed.

Lemma detail_first_bar_is_list_category_witness :
  exists rest,
    DocumentDetail.classificationBars tiedDocument
      = Some (DocumentList.topCategory tiedDocument :: rest)
    /\ Permutation (DocumentList.topCategory tiedDocument :: rest)
                   (entriesOf tiedDocument).
Proof.
  apply (detail_first_bar_is_list_category tiedDocument).
  - repeat constructor.
  - apply Exists_cons_hd. reflexivity.
Defined.

(** ** Accuracy: bounds and labels outside the registry *)

Lemma countIf_and_le {A : Type} (f g : A -> bool) l :
  countIf (fun x => f x && g x) l <= countIf f l.
Proof.
  unfold countIf. induction l as [|x l IH]; simpl; [lia|].
  destruct (f x), (g x); simpl; lia.
Qed.

Lemma countIf_le_length {A : Type} (f : A -> bool) l : countIf f l <= length l.
Proof.
  unfold countIf. induction l as [|x l IH]; simpl; [lia|].
  destruct (f x); simpl; lia.
Qed.

Lemma labelled_length targets docs : length (labelled targets docs) <= length docs.
Proof.
  unfold labelled. induction docs as [|doc docs IH]; simpl; [lia|].
  rewrite length_app. destruct (labelOf targets doc); simpl; lia.
Qed.

Lemma percentOf_bounds correct total :
  correct <= total -> 0 < total -> isPercentage (percentOf correct total).
Proof.
  intros Hle Hpos. unfold isPercentage, percentOf, fin. eexists. split; [reflexivity|].
  rewrite Qred_correct.
  assert (Ht : (0 < inject_Z (Z.of_nat total))%Q).
  { unfold Qlt, inject_Z. simpl. lia. }
  assert (Hc : (0 <= inject_Z (Z.of_nat correct))%Q).
  { unfold Qle, inject_Z. simpl. lia. }
  assert (Hct : (inject_Z (Z.of_nat correct) <= inject_Z (Z.of_nat total))%Q).
  { unfold Qle, inject_Z. simpl. lia. }
  split.
  - apply Qmult_le_0_compat; [|discriminate].
    apply Qle_shift_div_l; [exact Ht|]. now rewrite Qmult_0_l.
  - apply Qle_trans with (1 * 100)%Q; [|rewrite Qmult_1_l; apply Qle_refl].
    apply Qmult_le_compat_r; [|discriminate].
    apply Qle_shift_div_r; [exact Ht|]. now rewrite Qmult_1_l.
Qed.

Lemma zero_isPercentage : isPercentage zero.
Proof. exists 0%Q. repeat split; discriminate. Qed.

(** The report of the accuracy computation, in terms of the matched
    documents. *)
Lemma calculateAccuracy_spec targets docs :
  let pairs := labelled targets docs in
  let result := Accuracy.calculateAccuracy targets docs in
  Accuracy.totalLabeled result = length pairs
  /\ Accuracy.accuracy result
     = (if Nat.eqb (length pairs) 0 then None
        else Some (percentOf (countIf isCorrect pairs) (length pairs)))
  /\ forall c, In c VALID_CATEGORIES ->
       Accuracy.categoryAccuracy result !! c
       = Some {| Accuracy.correct := countIf (fun p => hasLabel c p && isCorrect p) pairs;
                 Accuracy.total := countIf (hasLabel c) pairs;
                 Accuracy.percentage :=
                   if Nat.eqb (countIf (hasLabel c) pairs) 0 then zero
                   else percentOf (countIf (fun p => hasLabel c p && isCorrect p) pairs)
                                  (countIf (hasLabel c) pairs) |}.
Proof.
  cbv zeta. unfold Accuracy.calculateAccuracy.
  cbn [Accuracy.accuracy Accuracy.categoryAccuracy Accuracy.totalLabeled].
  rewrite accuracy_fold.
  assert (Hother : In "Other"%string VALID_CATEGORIES)
    by (unfold VALID_CATEGORIES; simpl; tauto).
  destruct (pair_fold "Other" (labelled targets docs) Accuracy.initState 0 0 zero
              (initState_lookup _ Hother)) as (P1 & P2 & _).
  cbv zeta in P1, P2. rewrite P1, P2.
  cbn [Accuracy.correctPredictions Accuracy.totalLabeledDocs Accuracy.initState Nat.add].
  split; [destruct (length (labelled targets docs)); reflexivity|]. split.
  - destruct (length (labelled targets docs)) as [|n]; [reflexivity|].
    cbn [Nat.ltb Nat.leb Nat.eqb]. now rewrite ratio_percent.
  - intros c Hc.
    destruct (pair_fold c (labelled targets docs) Accuracy.initState 0 0 zero
                (initState_lookup c Hc)) as (_ & _ & P3).
    cbv zeta in P3. rewrite lookup_fmap, P3. cbn [fmap option_fmap option_map Nat.add].
    unfold Accuracy.withPercentage. cbn [Accuracy.correct Accuracy.total].
    now rewrite percent_percentOf.
Qed.

(** X7: whatever the labels and the documents, the accuracy figures are
    consistent: the overall accuracy, when set, and every category's
    percentage lie between 0 and 100; in every registered category the
    correct predictions do not exceed its matched documents, which do not
    exceed all matched documents, which do not exceed the documents. *)
Theorem accuracy_figures_are_bounded
    (targets : list Target.TargetData) (docs : list DocumentType) :
  let result := Accuracy.calculateAccuracy targets docs in
  Accuracy.totalLabeled result <= length docs
  /\ (forall a, Accuracy.accuracy result = Some a ->
        isPercentage a /\ 0 < Accuracy.totalLabeled result)
  /\ (Accuracy.accuracy result = None -> Accuracy.totalLabeled result = 0)
  /\ forall c, In c VALID_CATEGORIES ->
       exists cs,
         Accuracy.categoryAccuracy result !! c = Some cs
         /\ Accuracy.correct cs <= Accuracy.total cs
         /\ Accuracy.total cs <= Accuracy.totalLabeled result
         /\ isPercentage (Accuracy.percentage cs).
Proof.
  cbv zeta. destruct (calculateAccuracy_spec targets docs) as (S1 & S2 & S3).
  cbv zeta in S1, S2, S3. rewrite S1, S2.
  split; [apply labelled_length|]. split; [|split].
  - intros a Ha. destruct (length (labelled targets docs)) as [|n] eqn:E;
      [discriminate|]. cbn [Nat.eqb] in Ha. injection Ha as <-.
    split; [|lia]. apply percentOf_bounds; [|lia].
    rewrite <- E. apply countIf_le_length.
  - destruct (length (labelled targets docs)); [reflexivity|discriminate].
  - intros c Hc. eexists. split; [apply (S3 c Hc)|].
    cbn [Accuracy.correct Accuracy.total Accuracy.percentage].
    split; [apply countIf_and_le|]. split; [apply countIf_le_length|].
    destruct (countIf (hasLabel c) (labelled targets docs)) as [|n] eqn:E;
      [apply zero_isPercentage|]. cbn [Nat.eqb].
    apply percentOf_bounds; [|lia]. rewrite <- E. apply countIf_and_le.
Qed.

Lemma count_by_key l keys :
  List.NoDup l ->
  list_sum (map (fun c => countFor c keys) l) = length (List.filter (includes l) keys).
Proof.
  intros Hnd. induction keys as [|k keys IH]; simpl.
  - unfold countFor. simpl. clear Hnd. induction l as [|x l IHl]; simpl; auto.
  - rewrite (map_ext (fun c => countFor c (k :: keys))
                     (fun c => (if String.eqb c k then 1 else 0) + countFor c keys)).
    + rewrite list_sum_add, indicator_sum, IH by assumption.
      destruct (includes l k); reflexivity.
    + intros c. unfold countFor. simpl. destruct (String.eqb c k); reflexivity.
Qed.

Lemma countIf_hasLabel c pairs :
  countIf (hasLabel c) pairs
  = countFor c (map (fun p => Target.category (snd p)) pairs).
Proof.
  unfold countIf, countFor, hasLabel.
  induction pairs as [|p pairs IH]; simpl; [reflexivity|].
  rewrite (String.eqb_sym c). destruct (String.eqb (Target.category (snd p)) c);
    simpl; now rewrite IH.
Qed.

(** X8: a matched document counts once in the overall total, and once in the
    total of its reference category when that category is registered; the
    matched documents whose label is no registered category count in the
    overall accuracy only. *)
Theorem stray_labels_count_overall_only
    (targets : list Target.TargetData) (docs : list DocumentType) :
  let result := Accuracy.calculateAccuracy targets docs in
  Accuracy.totalLabeled result
  = list_sum (map (categoryTotal result) VALID_CATEGORIES)
    + countIf strayLabel (labelled targets docs).
Proof.
  cbv zeta. destruct (calculateAccuracy_spec targets docs) as (S1 & _ & S3).
  cbv zeta in S1, S3. rewrite S1.
  rewrite (map_ext_in _ (fun c => countFor c (map (fun p => Target.category (snd p))
                                                 (labelled targets docs)))).
  - rewrite count_by_key by apply VALID_NoDup.
    unfold countIf, strayLabel.
    generalize (labelled targets docs). intros l.
    induction l as [|p l IH]; [reflexivity|].
    cbn [map List.filter length].
    destruct (includes VALID_CATEGORIES (Target.category (snd p)));
      cbn [negb length]; lia.
  - intros c Hc. unfold categoryTotal. rewrite (S3 c Hc).
    cbn [Accuracy.total]. apply countIf_hasLabel.
Qed.

(** ** The error service: formatting and retrying *)

Lemma extract_defined errorDetail responseData k other :
  errorDetail <> JNull ->
  (isObjectType errorDetail = false -> responseData <> JNull) ->
  exists v, extract errorDetail responseData k other = Some v.
Proof.
  intros Hd Hr. unfold extract.
  destruct errorDetail; simpl; try congruence; eauto;
    specialize (Hr eq_refl); destruct responseData; simpl; try congruence; eauto.
Qed.

Lemma errorDetail_not_null responseData :
  responseData <> JNull ->
  jsOr (optGet responseData "detail") responseData <> JNull.
Proof.
  intros Hr. unfold jsOr.
  destruct (jsTruthy (optGet responseData "detail")) eqn:E; [|exact Hr].
  intros Heq. rewrite Heq in E. discriminate.
Qed.

Lemma formatErrorMessage_response response axiosMessage self :
  data response <> JNull ->
  exists errorMessage errorCode details,
    formatErrorMessage (Axios (Some response) axiosMessage self)
    = Some (formatResponse (status response) errorMessage errorCode details self).
Proof.
  intros Hr. cbn [formatErrorMessage]. cbv zeta.
  pose proof (errorDetail_not_null _ Hr) as Hd.
  destruct (extract_defined _ (data response) "message"
              (JString (toText (jsOr (data response) (JString axiosMessage))))
              Hd (fun _ => Hr)) as [v1 ->].
  destruct (extract_defined _ (data response) "error" (JString "UNKNOWN_ERROR")
              Hd (fun _ => Hr)) as [v2 ->].
  destruct (extract_defined _ (data response) "details" JNull
              Hd (fun _ => Hr)) as [v3 ->].
  eauto.
Qed.

Lemma formatErrorMessage_null_body response axiosMessage self :
  data response = JNull ->
  formatErrorMessage (Axios (Some response) axiosMessage self) = None.
Proof.
  intros Hr. cbn [formatErrorMessage]. cbv zeta. rewrite Hr. reflexivity.
Qed.

(** X9: formatting an error raises a TypeError in exactly one case, an
    Axios error whose response body is [null]; every other thrown value,
    whatever its shape, is turned into an application error. *)
Theorem formatting_raises_only_on_null_body (error : Thrown) :
  formatErrorMessage error = None
  <-> exists response axiosMessage self,
        error = Axios (Some response) axiosMessage self /\ data response = JNull.
Proof.
  split.
  - intros H. destruct error as [[response|] axiosMessage self|err].
    + exists response, axiosMessage, self. split; [reflexivity|].
      destruct (data response) eqn:E; try reflexivity;
        (destruct (formatErrorMessage_response response axiosMessage self)
           as (? & ? & ? & Hs); [rewrite E; discriminate|congruence]).
    + discriminate.
    + cbn [formatErrorMessage] in H.
      destruct (optGet err "message") as [| | | |[|c s]|]; try discriminate.
      cbv zeta in H.
      repeat match type of H with
             | (if ?b then _ else _) = None => destruct b
             end; discriminate.
  - intros (response & axiosMessage & self & -> & Hr).
    now apply formatErrorMessage_null_body.
Qed.

Lemma messageOr_truthy v c s : jsTruthy (messageOr v (String c s)) = true.
Proof.
  unfold messageOr, jsOr. destruct (jsTruthy v) eqn:E; [exact E|reflexivity].
Qed.

Lemma formatResponse_fields st errorMessage errorCode details self :
  let a := formatResponse st errorMessage errorCode details self in
  jsTruthy (message a) = true /\ jsTruthy (code a) = true
  /\ originalError a = self /\ category a <> NETWORK.
Proof.
  cbv zeta. unfold formatResponse.
  repeat match goal with
         | |- context [if ?b then _ else _] =>
             lazymatch b with
             | jsTruthy _ => fail
             | _ => destruct b
             end
         end;
    cbn [message code originalError category];
    (repeat split; [apply messageOr_truthy|apply messageOr_truthy|discriminate]).
Qed.

(** X10: an application error built by the error service always has a
    message to show (a truthy one); its category is NETWORK exactly when the
    Axios error has no response; and for an error with a response it also
    has a truthy code and keeps the Axios error as its original error. *)
Theorem formatted_error_is_presentable (error : Thrown) (appError : AppError) :
  formatErrorMessage error = Some appError ->
  jsTruthy (message appError) = true
  /\ (category appError = NETWORK
      <-> exists axiosMessage self, error = Axios None axiosMessage self)
  /\ forall response axiosMessage self,
       error = Axios (Some response) axiosMessage self ->
       jsTruthy (code appError) = true /\ originalError appError = self.
Proof.
  intros H. destruct error as [[response|] axiosMessage self|err].
  - assert (Hr : data response <> JNull).
    { intros Hr. rewrite formatErrorMessage_null_body in H by exact Hr. discriminate. }
    destruct (formatErrorMessage_response response axiosMessage self Hr)
      as (em & ec & d & Hs).
    rewrite Hs in H. injection H as <-.
    destruct (formatResponse_fields (status response) em ec d self)
      as (F1 & F2 & F3 & F4).
    split; [exact F1|]. split.
    + split; [intros Hc; contradiction|]. intros (? & ? & Heq). discriminate.
    + intros ? ? ? Heq. injection Heq as <- <- <-. split; assumption.
  - cbn [formatErrorMessage] in H. injection H as <-. cbn [message category].
    split; [reflexivity|]. split.
    + split; eauto.
    + intros ? ? ? Heq. discriminate.
  - cbn [formatErrorMessage] in H.
    assert (Hgoal : jsTruthy (message appError) = true /\ category appError <> NETWORK).
    { destruct (optGet err "message") as [| | | |[|c s]|];
        try (injection H as <-; split; [reflexivity|discriminate]).
      cbv zeta in H.
      repeat match type of H with
             | (if ?b then _ else _) = Some _ => destruct b
             end; injection H as <-; split; (reflexivity || discriminate). }
    destruct Hgoal as [G1 G2]. split; [exact G1|]. split.
    + split; [intros Hc; contradiction|]. intros (? & ? & Heq). discriminate.
    + intros ? ? ? Heq. discriminate.
Qed.

Lemma formatted_error_is_presentable_witness :
  jsTruthy (message
              {| message := JString "Unable to connect to the server. Please check your internet connection.";
                 category := NETWORK; code := JUndefined; details := JUndefined;
                 originalError := JNull |}) = true.
Proof.
  exact (proj1 (formatted_error_is_presentable
                  (Axios None "Network Error" JNull) _ eq_refl)).
Defined.

Lemma optGet_setField_other fields k v k' :
  String.eqb k k' = false ->
  optGet (JObject (setField fields k v)) k' = optGet (JObject fields) k'.
Proof.
  intros Hne. cbn [optGet]. now rewrite getField_setField, Hne.
Qed.

Lemma optGet_setField_same fields k v :
  optGet (JObject (setField fields k v)) k = v.
Proof.
  cbn [optGet]. now rewrite getField_setField, String.eqb_refl.
Qed.

(** X11: when the body of an error response is an object whose [detail] is
    a text (the form of a plain HTTP error of the server), that text never
    reaches the user: the application error is the one built for the status
    from the [message], [error] and [details] fields of the body itself,
    whatever the text. *)
Theorem detail_text_is_not_shown
    (st : Z) (fields : list (string * jsval)) (text : string)
    (axiosMessage : string) (self : jsval) :
  formatErrorMessage
    (Axios (Some {| status := st;
                    data := JObject (setField fields "detail" (JString text)) |})
           axiosMessage self)
  = Some (formatResponse st
            (optGet (JObject fields) "message")
            (optGet (JObject fields) "error")
            (optGet (JObject fields) "details") self).
Proof.
  cbn [formatErrorMessage status data]. cbv zeta.
  rewrite optGet_setField_same.
  unfold jsOr. cbn [jsTruthy].
  destruct (Stats.nonEmptyString text); unfold extract;
    cbn [isObjectType get];
    rewrite !optGet_setField_other by reflexivity; reflexivity.
Qed.

Lemma transient_retriable error :
  match formatErrorMessage error with
  | Some formattedError => ErrorHandling.retriable formattedError error
  | None => false
  end = transient error.
Proof.
  destruct error as [[response|] axiosMessage self|err].
  - destruct (data response) eqn:E.
    2: { rewrite formatErrorMessage_null_body by exact E.
         cbn [transient]. rewrite E. now rewrite andb_false_r. }
    all: destruct (formatErrorMessage_response response axiosMessage self)
           as (em & ec & d & Hs); [rewrite E; discriminate|].
    all: rewrite Hs; unfold ErrorHandling.retriable.
    all: destruct (formatResponse_fields (status response) em ec d self)
           as (_ & _ & _ & Hc).
    all: destruct (category (formatResponse (status response) em ec d self));
           try contradiction.
    all: cbn [ErrorHandling.isCategory ErrorHandling.isAxiosError
              ErrorHandling.responseStatus ErrorHandling.includesZ existsb
              transient orb andb].
    all: rewrite E.
    all: destruct (status response =? 502)%Z, (status response =? 503)%Z,
           (status response =? 504)%Z; reflexivity.
  - reflexivity.
  - cbn [formatErrorMessage transient].
    destruct (optGet err "message") as [| | | |[|c s]|]; try reflexivity.
    cbv zeta.
    repeat match goal with
           | |- context [if ?b then _ else _] => destruct b
           end; reflexivity.
Qed.

Lemma attempts_last_error {T : Type} (operation : nat -> ErrorHandling.Settled T)
    retries fuel attempt last last' :
  (Z.of_nat attempt <= retries)%Z ->
  ErrorHandling.attempts T operation retries (S fuel) attempt last
  = ErrorHandling.attempts T operation retries (S fuel) attempt last'.
Proof.
  intros Hle. cbn [ErrorHandling.attempts].
  now replace (Z.of_nat attempt <=? retries)%Z with true by (symmetry; lia).
Qed.

Lemma attempts_step {T : Type} (operation : nat -> ErrorHandling.Settled T)
    retries fuel attempt last :
  ErrorHandling.attempts T operation retries (S fuel) attempt last
  = if (Z.of_nat attempt <=? retries)%Z then
      match operation attempt with
      | ErrorHandling.Resolved value => (ErrorHandling.Returned value, S attempt)
      | ErrorHandling.Rejected error =>
          match formatErrorMessage error with
          | None => (ErrorHandling.TypeError, S attempt)
          | Some formattedError =>
              if ErrorHandling.retriable formattedError error then
                if (Z.of_nat attempt <? retries)%Z
                then ErrorHandling.attempts T operation retries fuel (S attempt) error
                else (ErrorHandling.throwFormatted error, S attempt)
              else (ErrorHandling.throwFormatted error, S attempt)
          end
      end
    else (ErrorHandling.throwFormatted last, attempt).
Proof. reflexivity. Qed.

(** After [n] transient failures the loop is at attempt [attempt + n]. *)
Lemma attempts_skip {T : Type} (operation : nat -> ErrorHandling.Settled T)
    retries n :
  forall fuel attempt last,
    (Z.of_nat (attempt + n) <= retries)%Z ->
    (forall i, attempt <= i < attempt + n ->
       exists error, operation i = ErrorHandling.Rejected error
                     /\ transient error = true) ->
    ErrorHandling.attempts T operation retries (S (n + fuel)) attempt last
    = ErrorHandling.attempts T operation retries (S fuel) (attempt + n) last.
Proof.
  induction n as [|n IH]; intros fuel attempt last Hle Hall.
  - now rewrite Nat.add_0_r.
  - destruct (Hall attempt ltac:(lia)) as (error & Hop & Htr).
    rewrite attempts_step.
    replace (Z.of_nat attempt <=? retries)%Z with true by (symmetry; lia).
    rewrite Hop. pose proof (transient_retriable error) as Hret.
    rewrite Htr in Hret.
    destruct (formatErrorMessage error) as [formatted|]; [|discriminate].
    rewrite Hret.
    replace (Z.of_nat attempt <? retries)%Z with true by (symmetry; lia).
    cbn [Nat.add]. rewrite (IH fuel (S attempt) error).
    + replace (S attempt + n) with (attempt + S n) by lia.
      apply attempts_last_error. lia.
    + lia.
    + intros i Hi. apply Hall. lia.
Qed.

Lemma withErrorHandling_skip {T : Type} (operation : nat -> ErrorHandling.Settled T)
    retries n :
  (Z.of_nat n <= retries)%Z ->
  (forall i, i < n ->
     exists error, operation i = ErrorHandling.Rejected error
                   /\ transient error = true) ->
  exists fuel,
    ErrorHandling.withErrorHandling T operation retries
    = ErrorHandling.attempts T operation retries (S fuel) n (Other JUndefined).
Proof.
  intros Hle Hall. unfold ErrorHandling.withErrorHandling.
  exists (Z.to_nat (retries + 1) - S n).
  replace (Z.to_nat (retries + 1)) with (S (n + (Z.to_nat (retries + 1) - S n))) at 1
    by lia.
  rewrite (attempts_skip operation retries n _ 0); [reflexivity|simpl; lia|].
  intros i Hi. apply Hall. lia.
Qed.

(** X12: when the operation fails transiently (no response, or status 502,
    503 or 504) on its first [n] calls and then succeeds, with [n] at most
    [retries], the value of the successful call is returned, after exactly
    [n + 1] calls of the operation. *)
Theorem retries_until_success
    {T : Type} (operation : nat -> ErrorHandling.Settled T)
    (retries : Z) (n : nat) (value : T) :
  (Z.of_nat n <= retries)%Z ->
  (forall i, i < n ->
     exists error, operation i = ErrorHandling.Rejected error
                   /\ transient error = true) ->
  operation n = ErrorHandling.Resolved value ->
  ErrorHandling.withErrorHandling T operation retries
  = (ErrorHandling.Returned value, S n).
Proof.
  intros Hle Hall Hop.
  destruct (withErrorHandling_skip operation retries n Hle Hall) as [fuel ->].
  cbn [ErrorHandling.attempts].
  replace (Z.of_nat n <=? retries)%Z with true by (symmetry; lia).
  now rewrite Hop.
Qed.

Lemma retries_until_success_witness :
  ErrorHandling.withErrorHandling nat flakyOperation 3
  = (ErrorHandling.Returned 7, 3).
Proof.
  apply (retries_until_success flakyOperation 3 2 7).
  - lia.
  - intros i Hi. exists (Axios None "Network Error" (JString "Network Error")).
    split; [|reflexivity]. unfold flakyOperation.
    destruct i as [|[|i]]; [reflexivity|reflexivity|lia].
  - reflexivity.
Defined.

(** X13: the retry loop gives up, throwing the formatted error of the last
    call, as soon as a call fails with an error that is not transient (a 409
    or 500 response, a thrown Error, ...), whatever [retries] allows, and
    when the call number [retries] fails; the operation has then been called
    once more than it failed transiently before, never again. *)
Theorem gives_up_on_lasting_error
    {T : Type} (operation : nat -> ErrorHandling.Settled T)
    (retries : Z) (n : nat) (error : Thrown) :
  (Z.of_nat n <= retries)%Z ->
  (forall i, i < n ->
     exists error', operation i = ErrorHandling.Rejected error'
                    /\ transient error' = true) ->
  operation n = ErrorHandling.Rejected error ->
  transient error = false \/ Z.of_nat n = retries ->
  ErrorHandling.withErrorHandling T operation retries
  = (ErrorHandling.throwFormatted error, S n).
Proof.
  intros Hle Hall Hop Hstop.
  destruct (withErrorHandling_skip operation retries n Hle Hall) as [fuel ->].
  cbn [ErrorHandling.attempts].
  replace (Z.of_nat n <=? retries)%Z with true by (symmetry; lia).
  rewrite Hop. pose proof (transient_retriable error) as Hret.
  unfold ErrorHandling.throwFormatted.
  destruct (formatErrorMessage error) as [formatted|]; [|reflexivity].
  destruct (ErrorHandling.retriable formatted error); [|reflexivity].
  destruct Hstop as [Hstop|Hstop]; [congruence|].
  now replace (Z.of_nat n <? retries)%Z with false by (symmetry; lia).
Qed.

Lemma gives_up_on_lasting_error_witness :
  exists appError,
    ErrorHandling.withErrorHandling nat conflictingOperation 3
    = (ErrorHandling.Threw appError, 1)
    /\ category appError = VALIDATION.
Proof.
  eexists. split.
  - rewrite (gives_up_on_lasting_error conflictingOperation 3 0
               (Axios (Some {| status := 409; data := JUndefined |})
                      "Request failed with status code 409" JUndefined)).
    + reflexivity.
    + lia.
    + intros i Hi. lia.
    + reflexivity.
    + left. reflexivity.
  - reflexivity.
Defined.

(** X14: a negative number of retries makes no call at all and throws the
    default error; otherwise the operation is called at least once and at
    most [retries + 1] times. *)
Theorem calls_are_bounded
    {T : Type} (operation : nat -> ErrorHandling.Settled T) (retries : Z) :
  let calls := snd (ErrorHandling.withErrorHandling T operation retries) in
  (Z.of_nat calls <= Z.max 0 (retries + 1))%Z
  /\ ((0 <= retries)%Z -> 1 <= calls)
  /\ ((retries < 0)%Z ->
      exists appError,
        ErrorHandling.withErrorHandling T operation retries
        = (ErrorHandling.Threw appError, 0)
        /\ message appError = JString "An unexpected error occurred"
        /\ category appError = UNKNOWN).
Proof.
  cbv zeta. unfold ErrorHandling.withErrorHandling.
  assert (Hgen : forall fuel attempt last,
             attempt <= snd (ErrorHandling.attempts T operation retries fuel attempt last)
             /\ (Z.of_nat (snd (ErrorHandling.attempts T operation retries fuel attempt last))
                 <= Z.max (Z.of_nat attempt) (retries + 1))%Z
             /\ (0 < fuel -> (Z.of_nat attempt <= retries)%Z ->
                 attempt < snd (ErrorHandling.attempts T operation retries fuel attempt last))).
  { induction fuel as [|fuel IH]; intros attempt last.
    - cbn [ErrorHandling.attempts snd]. split; [lia|]. split; lia.
    - cbn [ErrorHandling.attempts].
      destruct (Z.leb_spec (Z.of_nat attempt) retries) as [Hle|Hgt].
      + destruct (operation attempt) as [value|error]; cbn [snd];
          [split; [lia|]; split; lia|].
        destruct (formatErrorMessage error) as [formatted|]; cbn [snd];
          [|split; [lia|]; split; lia].
        destruct (ErrorHandling.retriable formatted error); cbn [snd];
          [|split; [lia|]; split; lia].
        destruct (Z.ltb_spec (Z.of_nat attempt) retries) as [Hlt|Hge]; cbn [snd];
          [|split; [lia|]; split; lia].
        destruct (IH (S attempt) error) as (I1 & I2 & _).
        split; [lia|]. split; lia.
      + cbn [snd]. split; [lia|]. split; lia. }
  destruct (Hgen (Z.to_nat (retries + 1)) 0 (Other JUndefined)) as (G1 & G2 & G3).
  split; [exact G2|]. split.
  - intros Hr. apply G3; lia.
  - intros Hr. replace (Z.to_nat (retries + 1)) with 0 by lia.
    eexists. split; [reflexivity|]. split; reflexivity.
Qed.

Lemma calls_are_bounded_witness :
  1 <= snd (ErrorHandling.withErrorHandling nat flakyOperation 3).
Proof.
  apply (proj1 (proj2 (calls_are_bounded flakyOperation 3))). lia.
Defined.

(** ** Uploading the selected files *)

(** What the loop leaves alone while the files resolve. *)
Lemma uploadFrom_resolved apiUploadFile files :
  forall docs i rest s,
    resolveTo apiUploadFile i files docs ->
    exists s',
      FileUpload.uploadFrom apiUploadFile i (files ++ rest) s
      = FileUpload.uploadFrom apiUploadFile (i + length files) rest s'
      /\ FileUpload.requested s' = FileUpload.requested s ++ files
      /\ FileUpload.uploaded s' = FileUpload.uploaded s ++ docs
      /\ length (FileUpload.toasts s') = length (FileUpload.toasts s) + length files
      /\ FileUpload.error s' = FileUpload.error s
      /\ FileUpload.fileValidationError s' = FileUpload.fileValidationError s
      /\ FileUpload.isDuplicateFile s' = FileUpload.isDuplicateFile s
      /\ FileUpload.uploading s' = FileUpload.uploading s
      /\ FileUpload.selectedFiles s' = FileUpload.selectedFiles s.
Proof.
  induction files as [|file files IH]; intros docs i rest s [Hlen Hall].
  - destruct docs; [|discriminate]. exists s. cbn [app length].
    rewrite Nat.add_0_r, !app_nil_r. repeat split; lia.
  - destruct docs as [|doc docs]; [discriminate|].
    destruct (Hall 0 file eq_refl) as (doc' & Hd & Hres).
    injection Hd as <-. rewrite Nat.add_0_r in Hres.
    cbn [app FileUpload.uploadFrom]. cbv zeta. rewrite Hres.
    destruct (IH docs (S i) rest
                (FileUpload.succeed file doc
                   (FileUpload.request file
                      (FileUpload.setCurrentUploadIndex (Z.of_nat i) s))))
      as (s' & E & R1 & R2 & R3 & R4 & R5 & R6 & R7 & R8).
    { split; [simpl in Hlen; lia|]. intros k f Hk.
      destruct (Hall (S k) f Hk) as (d & Hd & Hr). exists d. split; [exact Hd|].
      now replace (S i + k) with (i + S k) by lia. }
    exists s'. rewrite E. cbn [length].
    replace (S i + length files) with (i + S (length files)) by lia.
    split; [reflexivity|].
    rewrite R1, R2, R3, R4, R5, R6, R7, R8.
    cbn [FileUpload.requested FileUpload.uploaded FileUpload.toasts FileUpload.error
         FileUpload.fileValidationError FileUpload.isDuplicateFile
         FileUpload.uploading FileUpload.selectedFiles
         FileUpload.succeed FileUpload.request FileUpload.setCurrentUploadIndex].
    rewrite <- !app_assoc, !length_app. cbn [app length].
    repeat split; lia.
Qed.

(** What the catch block sets, on a thrown value other than [undefined] and
    [null]. *)
Lemma handleFailure_sets file err s :
  err <> JUndefined -> err <> JNull ->
  exists s',
    FileUpload.handleFailure file err s = Some s'
    /\ FileUpload.requested s' = FileUpload.requested s
    /\ FileUpload.uploaded s' = FileUpload.uploaded s
    /\ FileUpload.toasts s' = FileUpload.toasts s
    /\ (FileUpload.error s = None -> FileUpload.fileValidationError s = None ->
        (FileUpload.error s' = None <-> FileUpload.fileValidationError s' <> None))
    /\ (FileUpload.isDuplicateFile s = false ->
        (FileUpload.isDuplicateFile s' = true <-> isDuplicateUpload err = Some true)).
Proof.
  intros Hu Hn. unfold FileUpload.handleFailure.
  assert (Hdup : exists b, isDuplicateUpload err = Some b).
  { unfold isDuplicateUpload. destruct err; simpl; try congruence; eauto. }
  destruct Hdup as [b Hb]. rewrite Hb.
  destruct b;
    [|destruct (FileUpload.hasCode err "FILE_TOO_LARGE");
      [|destruct (FileUpload.hasCode err "TEXT_EXTRACTION_FAILED");
        [destruct (String.eqb (FileUpload.type file) "application/pdf")|]]];
    (eexists; split; [reflexivity|];
     cbn [FileUpload.requested FileUpload.uploaded FileUpload.toasts FileUpload.error
          FileUpload.fileValidationError FileUpload.isDuplicateFile
          FileUpload.setError FileUpload.setFileValidationError
          FileUpload.setIsDuplicateFile];
     intuition congruence).
Qed.

(** X15: the upload stops at the first file that fails.  When the files
    before it are stored and the service rejects it (with any value other
    than [undefined] and [null]), the stored documents are handed on in
    order, the files after it are never sent, and yet the whole selection is
    cleared; exactly one of the two error displays is set, and the duplicate
    flag is raised exactly for a 409. *)
Theorem upload_stops_at_first_failure
    (apiUploadFile : nat -> FileUpload.File -> FileUpload.Settled)
    (s : FileUpload.State)
    (before : list FileUpload.File) (file : FileUpload.File)
    (after : list FileUpload.File)
    (docs : list DocumentType) (err : jsval) :
  FileUpload.selectedFiles s = before ++ file :: after ->
  resolveTo apiUploadFile 0 before docs ->
  apiUploadFile (length before) file = FileUpload.Rejected err ->
  err <> JUndefined -> err <> JNull ->
  exists s',
    FileUpload.uploadFiles apiUploadFile s = FileUpload.Completed s'
    /\ FileUpload.requested s' = FileUpload.requested s ++ before ++ [file]
    /\ FileUpload.uploaded s' = FileUpload.uploaded s ++ docs
    /\ FileUpload.selectedFiles s' = []
    /\ FileUpload.uploading s' = false
    /\ (FileUpload.error s' = None <-> FileUpload.fileValidationError s' <> None)
    /\ (FileUpload.isDuplicateFile s' = true <-> isDuplicateUpload err = Some true).
Proof.
  intros Hsel Hres Hrej Hu Hn. unfold FileUpload.uploadFiles.
  rewrite Hsel.
  destruct (before ++ file :: after) as [|f0 l0] eqn:Hfiles;
    [destruct before; discriminate|]. rewrite <- Hfiles.
  set (s0 := FileUpload.setIsDuplicateFile false _).
  destruct (uploadFrom_resolved apiUploadFile before docs 0 (file :: after) s0 Hres)
    as (s1 & E & R1 & R2 & _ & R4 & R5 & R6 & _ & _).
  rewrite E. cbn [Nat.add FileUpload.uploadFrom]. cbv zeta. rewrite Hrej.
  destruct (handleFailure_sets file err
              (FileUpload.request file
                 (FileUpload.setCurrentUploadIndex (Z.of_nat (length before)) s1))
              Hu Hn)
    as (s2 & -> & Q1 & Q2 & _ & Q4 & Q5).
  eexists. split; [reflexivity|].
  cbn [FileUpload.requested FileUpload.uploaded FileUpload.selectedFiles
       FileUpload.uploading FileUpload.error FileUpload.fileValidationError
       FileUpload.isDuplicateFile FileUpload.setSelectedFiles
       FileUpload.setCurrentUploadIndex FileUpload.setUploading].
  rewrite Q1, Q2.
  cbn [FileUpload.requested FileUpload.uploaded FileUpload.request
       FileUpload.setCurrentUploadIndex].
  rewrite R1, R2. subst s0.
  cbn [FileUpload.requested FileUpload.uploaded FileUpload.setIsDuplicateFile
       FileUpload.setFileValidationError FileUpload.setError FileUpload.setUploading].
  split; [now rewrite <- app_assoc|]. split; [reflexivity|].
  split; [reflexivity|]. split; [reflexivity|]. split.
  - apply Q4; cbn [FileUpload.error FileUpload.fileValidationError FileUpload.request
                   FileUpload.setCurrentUploadIndex]; [rewrite R4|rewrite R5];
      reflexivity.
  - apply Q5. cbn [FileUpload.isDuplicateFile FileUpload.request
                   FileUpload.setCurrentUploadIndex]. rewrite R6. reflexivity.
Qed.

Lemma upload_stops_at_first_failure_witness :
  exists s',
    FileUpload.uploadFiles onceOnlyService (idleUpload [reportFile; notesFile; thesisFile])
    = FileUpload.Completed s'
    /\ FileUpload.requested s' = [reportFile; notesFile]
    /\ FileUpload.uploaded s' = [contractDocument]
    /\ FileUpload.selectedFiles s' = []
    /\ FileUpload.isDuplicateFile s' = true.
Proof.
  destruct (upload_stops_at_first_failure onceOnlyService
              (idleUpload [reportFile; notesFile; thesisFile])
              [reportFile] notesFile [thesisFile] [contractDocument]
              (JObject [("status"%string, JNumber 409)]))
    as (s' & H1 & H2 & H3 & H4 & _ & _ & H7).
  - reflexivity.
  - split; [reflexivity|]. intros k f Hk. destruct k as [|k].
    + injection Hk as <-. exists contractDocument. split; reflexivity.
    + destruct k; discriminate.
  - reflexivity.
  - discriminate.
  - discriminate.
  - exists s'. repeat split; try assumption. apply H7. reflexivity.
Defined.

(** X16: when the service stores every selected file, every file is sent
    once, in the order of the selection, the stored documents are handed on
    in that order with one success notice each, no error is shown, and the
    selection is cleared. *)
Theorem upload_of_accepted_files
    (apiUploadFile : nat -> FileUpload.File -> FileUpload.Settled)
    (s : FileUpload.State) (docs : list DocumentType) :
  FileUpload.selectedFiles s <> [] ->
  resolveTo apiUploadFile 0 (FileUpload.selectedFiles s) docs ->
  exists s',
    FileUpload.uploadFiles apiUploadFile s = FileUpload.Completed s'
    /\ FileUpload.requested s' = FileUpload.requested s ++ FileUpload.selectedFiles s
    /\ FileUpload.uploaded s' = FileUpload.uploaded s ++ docs
    /\ length (FileUpload.toasts s')
       = length (FileUpload.toasts s) + length (FileUpload.selectedFiles s)
    /\ FileUpload.error s' = None
    /\ FileUpload.fileValidationError s' = None
    /\ FileUpload.isDuplicateFile s' = false
    /\ FileUpload.uploading s' = false
    /\ FileUpload.selectedFiles s' = [].
Proof.
  intros Hne Hres. unfold FileUpload.uploadFiles.
  destruct (FileUpload.selectedFiles s) as [|f0 l0] eqn:Hfiles; [contradiction|].
  set (s0 := FileUpload.setIsDuplicateFile false _).
  destruct (uploadFrom_resolved apiUploadFile (f0 :: l0) docs 0 [] s0 Hres)
    as (s1 & E & R1 & R2 & R3 & R4 & R5 & R6 & _ & _).
  rewrite app_nil_r in E. rewrite E. cbn [FileUpload.uploadFrom].
  eexists. split; [reflexivity|].
  cbn [FileUpload.requested FileUpload.uploaded FileUpload.selectedFiles
       FileUpload.uploading FileUpload.error FileUpload.fileValidationError
       FileUpload.isDuplicateFile FileUpload.toasts FileUpload.setSelectedFiles
       FileUpload.setCurrentUploadIndex FileUpload.setUploading].
  rewrite R1, R2, R3, R4, R5, R6. subst s0.
  cbn [FileUpload.requested FileUpload.uploaded FileUpload.toasts FileUpload.error
       FileUpload.fileValidationError FileUpload.isDuplicateFile
       FileUpload.setIsDuplicateFile FileUpload.setFileValidationError
       FileUpload.setError FileUpload.setUploading].
  repeat split; reflexivity.
Qed.

Lemma upload_of_accepted_files_witness :
  exists s',
    FileUpload.uploadFiles acceptingService (idleUpload [reportFile; notesFile])
    = FileUpload.Completed s'
    /\ FileUpload.requested s' = [reportFile; notesFile]
    /\ FileUpload.uploaded s' = [contractDocument; contractDocument].
Proof.
  destruct (upload_of_accepted_files acceptingService
              (idleUpload [reportFile; notesFile])
              [contractDocument; contractDocument])
    as (s' & H1 & H2 & H3 & _).
  - discriminate.
  - split; [reflexivity|]. intros k f Hk.
    destruct k as [|[|k]]; try (destruct k; discriminate);
      eexists; split; reflexivity.
  - exists s'. repeat split; assumption.
Defined.

(** ** Matching by file name *)

(** X17: stripping the extension removes exactly one final extension (a dot
    followed, up to the end of the name, by one or more characters other
    than a dot and a slash) and leaves every other name as it is: a name
    without a dot, a name ending in a dot, a name whose last dot is followed
    by a slash. *)
Theorem stripExt_removes_last_extension (name : string) :
  (exists base ext,
      isExtension ext = true /\ name = withExtension base ext
      /\ Target.stripExt name = base)
  \/ ((forall base ext, isExtension ext = true -> name <> withExtension base ext)
      /\ Target.stripExt name = name).
Proof.
  induction name as [|c name IH].
  - right. split; [|reflexivity]. intros base ext _ H.
    destruct base; discriminate.
  - cbn [Target.stripExt].
    destruct (Target.isDot c && nonEmptyString name && Target.extensionTail name)
      eqn:E.
    + left. apply andb_true_iff in E. destruct E as [E Ht].
      apply andb_true_iff in E. destruct E as [Hd Hn].
      exists EmptyString, name. unfold isExtension, withExtension.
      rewrite Hn, Ht. unfold Target.isDot in Hd. apply Ascii.eqb_eq in Hd.
      subst c. repeat split.
    + destruct IH as [(base & ext & Hext & Hname & Hstrip)|[Hnone Hsame]].
      * left. exists (String c base), ext. split; [exact Hext|].
        rewrite Hstrip, Hname. split; reflexivity.
      * right. rewrite Hsame. split; [|reflexivity].
        intros base ext Hext H. destruct base as [|b base].
        -- unfold withExtension in H. cbn [String.append] in H.
           injection H as Hc Hn. subst c name.
           unfold isExtension in Hext. apply andb_true_iff in Hext.
           destruct Hext as [Hne Ht]. unfold Target.isDot in E.
           rewrite Ascii.eqb_refl, Hne, Ht in E. discriminate.
        -- unfold withExtension in H. cbn [String.append] in H.
           injection H as Hc Hn. apply (Hnone base ext Hext). exact Hn.
Qed.

(** ** The tokens of a text *)

Lemma ascii_cases (P : ascii -> Prop) :
  (forall n, n < 256 -> P (ascii_of_nat n)) -> forall c, P c.
Proof.
  intros H c. rewrite <- (ascii_nat_embedding c). apply H. apply nat_ascii_bounded.
Qed.

Lemma forall_below (f : nat -> bool) n :
  forallb f (seq 0 n) = true -> forall k, k < n -> f k = true.
Proof.
  intros H k Hk. rewrite forallb_forall in H. apply H. apply in_seq. lia.
Qed.

(** After lowercasing and the replacement of punctuation, a character is a
    token character or white space. *)
Lemma normalised_char c :
  let c' := lowerChar c in
  let c'' := if isWordChar c' || isSpace c' then c' else " "%char in
  tokenChar c'' || isSpace c'' = true.
Proof.
  pattern c. apply ascii_cases. clear c. intros n Hn.
  apply (forall_below
           (fun n => let c' := lowerChar (ascii_of_nat n) in
                     let c'' := if isWordChar c' || isSpace c' then c' else " "%char in
                     tokenChar c'' || isSpace c'') 256); [|exact Hn].
  vm_compute. reflexivity.
Qed.

(** The token characters and the space are left alone by both steps. *)
Lemma tokenChar_fixed c :
  tokenChar c || Ascii.eqb c " "%char = true ->
  lowerChar c = c
  /\ (if isWordChar c || isSpace c then c else " "%char) = c
  /\ isSpace c = negb (tokenChar c).
Proof.
  pattern c. apply ascii_cases. clear c. intros n Hn.
  pose proof (forall_below
           (fun n => let c := ascii_of_nat n in
                     negb (tokenChar c || Ascii.eqb c " "%char)
                     || (Ascii.eqb (lowerChar c) c
                         && Ascii.eqb (if isWordChar c || isSpace c then c else " "%char) c
                         && Bool.eqb (isSpace c) (negb (tokenChar c)))) 256
           ltac:(vm_compute; reflexivity) n Hn) as H.
  cbv beta zeta in H. intros Ht. rewrite Ht in H. cbn [negb orb] in H.
  apply andb_true_iff in H. destruct H as [H H3].
  apply andb_true_iff in H. destruct H as [H1 H2].
  apply Ascii.eqb_eq in H1, H2. apply Bool.eqb_prop in H3. auto.
Qed.

Lemma tokenChar_not_space c : tokenChar c = true -> isSpace c = false.
Proof.
  intros H. destruct (tokenChar_fixed c) as (_ & _ & H3); [now rewrite H|].
  now rewrite H3, H.
Qed.

Lemma allChars_impl (p q : ascii -> bool) s :
  (forall c, p c = true -> q c = true) -> allChars p s = true -> allChars q s = true.
Proof.
  intros Hpq. induction s as [|c s IH]; simpl; [reflexivity|].
  intros H. apply andb_true_iff in H. destruct H as [Hc Hs].
  now rewrite (Hpq c Hc), IH.
Qed.

Lemma append_cons c s t :
  String.append (String c s) t = String c (String.append s t).
Proof. reflexivity. Qed.

Lemma append_nil t : String.append EmptyString t = t.
Proof. reflexivity. Qed.

Lemma allChars_append p s t :
  allChars p (String.append s t) = allChars p s && allChars p t.
Proof.
  induction s as [|c s IH]; [reflexivity|].
  rewrite append_cons. cbn [allChars]. now rewrite IH, andb_assoc.
Qed.

(** The pieces of a text whose characters are token characters or white
    space are made of token characters. *)
Lemma splitFrom_tokens s : forall cur inRun,
  allChars (fun c => tokenChar c || isSpace c) s = true ->
  allChars tokenChar cur = true ->
  Forall (fun t => allChars tokenChar t = true) (splitFrom s cur inRun).
Proof.
  induction s as [|c s IH]; intros cur inRun Hs Hcur; cbn [splitFrom].
  - constructor; [|constructor]. now apply allChars_revString.
  - cbn [allChars] in Hs. apply andb_true_iff in Hs. destruct Hs as [Hc Hs].
    destruct (isSpace c) eqn:Esp.
    + destruct inRun; [now apply IH|].
      constructor; [now apply allChars_revString|]. now apply IH.
    + apply IH; [exact Hs|]. rewrite orb_false_r in Hc. cbn [allChars].
      now rewrite Hc, Hcur.
Qed.

Lemma normalised_text text0 :
  allChars (fun c => tokenChar c || isSpace c)
           (replacePunctuation (toLowerCase text0)) = true.
Proof.
  unfold replacePunctuation, toLowerCase.
  induction text0 as [|c s IH]; cbn [mapString allChars]; [reflexivity|].
  rewrite IH, andb_true_r. apply normalised_char.
Qed.

Lemma preprocessText_tokens text0 :
  Forall normalToken (preprocessText text0).
Proof.
  unfold preprocessText. cbv zeta.
  pose proof (splitFrom_tokens _ EmptyString false (normalised_text text0) eq_refl)
    as Hall.
  fold (splitWhitespace (replacePunctuation (toLowerCase text0))) in Hall.
  induction Hall as [|w ws Hw _ IH]; cbn [List.filter]; [constructor|].
  destruct (keepWord w) eqn:Ek; [|exact IH].
  constructor; [|exact IH]. unfold keepWord in Ek.
  apply andb_true_iff in Ek. destruct Ek as [Ek E3].
  apply andb_true_iff in Ek. destruct Ek as [E1 E2].
  apply negb_true_iff in E2, E3. apply Nat.ltb_lt in E1.
  repeat split; assumption.
Qed.

Lemma mapString_fixed f s :
  allChars (fun c => Ascii.eqb (f c) c) s = true -> mapString f s = s.
Proof.
  induction s as [|c s IH]; cbn [mapString allChars]; [reflexivity|].
  intros H. apply andb_true_iff in H. destruct H as [Hc Hs].
  apply Ascii.eqb_eq in Hc. now rewrite Hc, IH.
Qed.

Lemma join_chars tokens :
  Forall (fun t => allChars tokenChar t = true) tokens ->
  allChars (fun c => tokenChar c || Ascii.eqb c " "%char) (join tokens) = true.
Proof.
  induction 1 as [|t ts Ht Hts IH]; [reflexivity|].
  assert (Ht' : allChars (fun c => tokenChar c || Ascii.eqb c " "%char) t = true).
  { apply (allChars_impl tokenChar); [|exact Ht]. intros c Hc. now rewrite Hc. }
  destruct ts as [|t2 ts]; [exact Ht'|].
  change (join (t :: t2 :: ts))
    with (String.append t (String " "%char (join (t2 :: ts)))).
  rewrite allChars_append, Ht'. cbn [allChars andb]. exact IH.
Qed.

Lemma append_associative s t u :
  String.append (String.append s t) u = String.append s (String.append t u).
Proof.
  induction s as [|c s IH]; [reflexivity|].
  change (String c (String.append (String.append s t) u)
          = String c (String.append s (String.append t u))).
  now rewrite IH.
Qed.

Lemma revString_append s : forall acc,
  revString acc s = String.append (revString EmptyString s) acc.
Proof.
  induction s as [|c s IH]; intros acc; cbn [revString]; [reflexivity|].
  rewrite IH, (IH (String c EmptyString)).
  rewrite append_associative. reflexivity.
Qed.

Lemma append_empty_r s : String.append s EmptyString = s.
Proof.
  induction s as [|c s IH]; [reflexivity|]. now rewrite append_cons, IH.
Qed.

Lemma revString_involutive s : forall acc,
  revString EmptyString (revString acc s)
  = String.append (revString EmptyString acc) s.
Proof.
  induction s as [|c s IH]; intros acc; cbn [revString].
  - now rewrite append_empty_r.
  - rewrite IH. cbn [revString]. rewrite (revString_append acc).
    rewrite append_associative. reflexivity.
Qed.

(** Reading a token: its characters are pushed on the piece at hand. *)
Lemma splitFrom_token t : forall s cur inRun,
  allChars tokenChar t = true ->
  t <> EmptyString \/ inRun = false ->
  splitFrom (String.append t s) cur inRun = splitFrom s (revString cur t) false.
Proof.
  induction t as [|c t IH]; intros s cur inRun Ht Hne.
  - destruct Hne as [Hne| ->]; [congruence|]. reflexivity.
  - cbn [allChars] in Ht. apply andb_true_iff in Ht. destruct Ht as [Hc Ht].
    rewrite append_cons. cbn [splitFrom revString].
    rewrite (tokenChar_not_space c Hc). apply IH; [exact Ht|now right].
Qed.

Lemma splitFrom_join tokens :
  Forall (fun t => allChars tokenChar t = true /\ t <> EmptyString) tokens ->
  tokens <> [] ->
  forall inRun, splitFrom (join tokens) EmptyString inRun = tokens.
Proof.
  induction 1 as [|t ts [Ht Hne] Hts IH]; intros Hnil inRun; [congruence|].
  destruct ts as [|t2 ts].
  - cbn [join]. rewrite <- (append_empty_r t) at 1.
    rewrite splitFrom_token by auto. cbn [splitFrom].
    now rewrite revString_involutive.
  - change (join (t :: t2 :: ts))
      with (String.append t (String " "%char (join (t2 :: ts)))).
    rewrite splitFrom_token by auto. cbn [splitFrom].
    change (isSpace " "%char) with true. cbv iota.
    rewrite revString_involutive. cbn [revString]. rewrite append_nil.
    f_equal. apply IH. discriminate.
Qed.

Lemma filter_all {A : Type} (f : A -> bool) l :
  Forall (fun x => f x = true) l -> List.filter f l = l.
Proof.
  induction 1 as [|x l Hx _ IH]; cbn [List.filter]; [reflexivity|].
  now rewrite Hx, IH.
Qed.

Lemma normalToken_keepWord w : normalToken w -> keepWord w = true.
Proof.
  intros (_ & H2 & H3 & H4). unfold keepWord.
  rewrite H3, H4. apply Nat.ltb_lt in H2. now rewrite H2.
Qed.

(** X18: every token of a text is made of lowercase letters, digits and
    underscores only, has more than two characters, is no stop word and not
    a number; and the tokens are in normal form: joined by spaces and
    tokenised again, they come back unchanged. *)
Theorem tokens_are_in_normal_form (text0 : string) :
  Forall normalToken (preprocessText text0)
  /\ preprocessText (join (preprocessText text0)) = preprocessText text0.
Proof.
  pose proof (preprocessText_tokens text0) as Hall.
  split; [exact Hall|].
  generalize dependent (preprocessText text0). intros tokens Hall.
  assert (Hchars : Forall (fun t => allChars tokenChar t = true) tokens).
  { eapply List.Forall_impl; [|exact Hall]. intros w Hw. apply Hw. }
  unfold preprocessText at 1. cbv zeta.
  pose proof (join_chars tokens Hchars) as Hj.
  assert (Hlow : toLowerCase (join tokens) = join tokens).
  { apply mapString_fixed. apply (allChars_impl _ _ _ (fun c Hc =>
      proj2 (Ascii.eqb_eq _ _) (proj1 (tokenChar_fixed c Hc))) Hj). }
  assert (Hrep : replacePunctuation (join tokens) = join tokens).
  { apply mapString_fixed. apply (allChars_impl _ _ _ (fun c Hc =>
      proj2 (Ascii.eqb_eq _ _) (proj1 (proj2 (tokenChar_fixed c Hc)))) Hj). }
  rewrite Hlow, Hrep.
  destruct tokens as [|t ts]; [reflexivity|].
  unfold splitWhitespace. rewrite splitFrom_join.
  - apply filter_all. eapply List.Forall_impl; [|exact Hall].
    intros w Hw. now apply normalToken_keepWord.
  - eapply List.Forall_impl; [|exact Hall]. intros w (H1 & H2 & _).
    split; [exact H1|]. intros E. rewrite E in H2. simpl in H2. lia.
  - discriminate.
Qed.

(** ** The panels of the word clouds *)


(** ** Reading the reference labels *)

Lemma revString_app s : forall t acc,
  revString acc (String.append s t) = revString (revString acc s) t.
Proof.
  induction s as [|c s IH]; intros t acc; [reflexivity|].
  rewrite append_cons. cbn [revString]. apply IH.
Qed.

Lemma revString_twice s : revString EmptyString (revString EmptyString s) = s.
Proof. rewrite revString_involutive. reflexivity. Qed.

Lemma allChars_rev p s :
  allChars p (revString EmptyString s) = allChars p s.
Proof.
  destruct (allChars p s) eqn:E.
  - now apply allChars_revString.
  - destruct (allChars p (revString EmptyString s)) eqn:E'; [|reflexivity].
    rewrite <- E, <- (revString_twice s) at 1. symmetry.
    now apply allChars_revString.
Qed.

Lemma splitOn_piece sep t : forall s cur,
  allChars (fun c => negb (Ascii.eqb c sep)) t = true ->
  TargetsCsv.splitOn sep (String.append t s) cur
  = TargetsCsv.splitOn sep s (revString cur t).
Proof.
  induction t as [|c t IH]; intros s cur Ht; [reflexivity|].
  cbn [allChars] in Ht. apply andb_true_iff in Ht. destruct Ht as [Hc Ht].
  rewrite append_cons. cbn [TargetsCsv.splitOn revString].
  apply negb_true_iff in Hc. rewrite Hc. now apply IH.
Qed.

Lemma trimStart_spaces s : allChars isSpace s = true -> TargetsCsv.trimStart s = EmptyString.
Proof.
  induction s as [|c s IH]; cbn [allChars TargetsCsv.trimStart]; [reflexivity|].
  intros H. apply andb_true_iff in H. destruct H as [Hc Hs]. now rewrite Hc, IH.
Qed.

Lemma trimStart_skip pad s :
  allChars isSpace pad = true ->
  TargetsCsv.trimStart (String.append pad s) = TargetsCsv.trimStart s.
Proof.
  induction pad as [|c pad IH]; [reflexivity|].
  cbn [allChars]. intros H. apply andb_true_iff in H. destruct H as [Hc Hs].
  rewrite append_cons. cbn [TargetsCsv.trimStart]. now rewrite Hc, IH.
Qed.

Lemma trimStart_fixed s :
  startsWithSpace s = false -> TargetsCsv.trimStart s = s.
Proof.
  destruct s as [|c s]; [reflexivity|]. cbn [startsWithSpace TargetsCsv.trimStart].
  now intros ->.
Qed.

Lemma trimStart_all_space s :
  allChars isSpace (TargetsCsv.trimStart s) = true -> allChars isSpace s = true.
Proof.
  induction s as [|c s IH]; [reflexivity|]. cbn [TargetsCsv.trimStart].
  destruct (isSpace c) eqn:E; [|exact (fun H => H)].
  intros H. cbn [allChars]. now rewrite E, IH.
Qed.

Lemma linePadding_spaces pad : linePadding pad = true -> allChars isSpace pad = true.
Proof.
  apply allChars_impl. intros c H. apply andb_true_iff in H. apply H.
Qed.

Lemma linePadding_fields pad : linePadding pad = true -> allChars fieldChar pad = true.
Proof.
  apply allChars_impl. intros c H. apply andb_true_iff in H. apply H.
Qed.

(** Trimming takes the padding off a clean field. *)
Lemma trim_padded f pad :
  cleanField f = true -> linePadding pad = true ->
  TargetsCsv.trim (String.append f pad) = f.
Proof.
  unfold cleanField. intros Hf Hp. apply andb_true_iff in Hf.
  destruct Hf as [Hf Hend]. apply andb_true_iff in Hf. destruct Hf as [_ Hstart].
  apply negb_true_iff in Hstart, Hend. apply linePadding_spaces in Hp.
  unfold TargetsCsv.trim. destruct f as [|c f].
  - rewrite append_nil, (trimStart_spaces pad Hp). reflexivity.
  - rewrite (trimStart_fixed (String.append (String c f) pad))
      by (rewrite append_cons; exact Hstart).
    rewrite revString_app.
    rewrite (revString_append pad (revString EmptyString (String c f))).
    rewrite trimStart_skip by (rewrite allChars_rev; exact Hp).
    rewrite (trimStart_fixed _ Hend). apply revString_twice.
Qed.

Lemma trim_clean f : cleanField f = true -> TargetsCsv.trim f = f.
Proof.
  intros Hf. rewrite <- (append_empty_r f) at 1. now apply trim_padded.
Qed.

Lemma revString_empty s : revString EmptyString s = EmptyString -> s = EmptyString.
Proof.
  intros H. rewrite <- (revString_twice s), H. reflexivity.
Qed.

(** Only a line of white space trims to the empty string. *)
Lemma trim_empty s : TargetsCsv.trim s = EmptyString -> allChars isSpace s = true.
Proof.
  unfold TargetsCsv.trim. intros H. apply revString_empty in H.
  apply trimStart_all_space. rewrite <- allChars_rev.
  apply trimStart_all_space. now rewrite H.
Qed.

Lemma fieldChar_not c sep :
  sep = TargetsCsv.comma \/ sep = TargetsCsv.newline ->
  fieldChar c = true -> negb (Ascii.eqb c sep) = true.
Proof.
  unfold fieldChar. intros Hsep H. apply andb_true_iff in H.
  destruct H as [H1 H2]. now destruct Hsep as [-> | ->].
Qed.

Lemma cleanField_chars f : cleanField f = true -> allChars fieldChar f = true.
Proof.
  unfold cleanField. intros H. apply andb_true_iff in H. destruct H as [H _].
  apply andb_true_iff in H. apply H.
Qed.

(** The values of a rendered line. *)
Lemma split_row pad t :
  cleanTarget t -> linePadding pad = true ->
  TargetsCsv.split TargetsCsv.comma (renderRow pad t)
  = [Target.filename t; String.append (Target.category t) pad].
Proof.
  intros [Hf Hc] Hp. unfold TargetsCsv.split, renderRow.
  rewrite splitOn_piece
    by (apply (allChars_impl fieldChar); [|now apply cleanField_chars];
        intros c; apply fieldChar_not; now left).
  cbn [TargetsCsv.splitOn]. rewrite Ascii.eqb_refl, revString_twice.
  rewrite <- (append_empty_r (String.append (Target.category t) pad)) at 1.
  rewrite splitOn_piece.
  - cbn [TargetsCsv.splitOn]. now rewrite revString_twice.
  - rewrite allChars_append. apply andb_true_iff. split.
    + apply (allChars_impl fieldChar); [|now apply cleanField_chars].
      intros c; apply fieldChar_not; now left.
    + apply (allChars_impl fieldChar); [|now apply linePadding_fields].
      intros c; apply fieldChar_not; now left.
Qed.

Lemma renderRow_chars pad t :
  cleanTarget t -> linePadding pad = true ->
  allChars (fun c => negb (Ascii.eqb c TargetsCsv.newline)) (renderRow pad t) = true.
Proof.
  intros [Hf Hc] Hp. unfold renderRow.
  rewrite allChars_append. cbn [allChars]. rewrite allChars_append.
  rewrite !(allChars_impl fieldChar (fun c => negb (Ascii.eqb c TargetsCsv.newline)));
    try reflexivity;
    try (intros c; apply fieldChar_not; now right);
    auto using cleanField_chars, linePadding_fields.
Qed.

Lemma parseLine_row fi ci pad t :
  cleanTarget t -> linePadding pad = true ->
  TargetsCsv.parseLine fi ci (renderRow pad t)
  = [ {| TargetsCsv.filename := nth_error [Target.filename t; Target.category t] fi;
         TargetsCsv.category := nth_error [Target.filename t; Target.category t] ci |} ].
Proof.
  intros Ht Hp. unfold TargetsCsv.parseLine.
  destruct (nonEmptyString (TargetsCsv.trim (renderRow pad t))) eqn:E.
  - cbn [negb]. cbv zeta. rewrite (split_row pad t Ht Hp). cbn [map length].
    destruct Ht as [Hf Hc].
    rewrite (trim_clean _ Hf), (trim_padded _ _ Hc Hp). reflexivity.
  - exfalso.
    assert (Hempty : TargetsCsv.trim (renderRow pad t) = EmptyString).
    { destruct (TargetsCsv.trim (renderRow pad t)); [reflexivity|discriminate]. }
    apply trim_empty in Hempty. unfold renderRow in Hempty.
    rewrite allChars_append in Hempty. cbn [allChars] in Hempty.
    change (isSpace TargetsCsv.comma) with false in Hempty.
    now rewrite andb_false_r in Hempty.
Qed.

(** The lines of a rendered file. *)
Lemma split_rows pad targets (finalNewline : bool) :
  Forall cleanTarget targets -> linePadding pad = true ->
  forall cur,
    TargetsCsv.splitOn TargetsCsv.newline
      (renderRows pad targets
         (if finalNewline then String TargetsCsv.newline EmptyString else EmptyString))
      cur
    = revString EmptyString cur
      :: map (renderRow pad) targets
      ++ (if finalNewline then [EmptyString] else []).
Proof.
  intros Hall Hp.
  induction Hall as [|t rest Ht _ IH]; intros cur; cbn [renderRows map app].
  - destruct finalNewline; reflexivity.
  - cbn [TargetsCsv.splitOn]. rewrite Ascii.eqb_refl. f_equal.
    rewrite splitOn_piece by now apply renderRow_chars.
    rewrite IH. now rewrite revString_twice.
Qed.

Lemma flat_map_rows fi ci pad targets :
  Forall cleanTarget targets -> linePadding pad = true ->
  flat_map (TargetsCsv.parseLine fi ci) (map (renderRow pad) targets)
  = map (fun t =>
           {| TargetsCsv.filename := nth_error [Target.filename t; Target.category t] fi;
              TargetsCsv.category := nth_error [Target.filename t; Target.category t] ci |})
        targets.
Proof.
  intros Hall Hp. induction Hall as [|t rest Ht _ IH]; [reflexivity|].
  cbn [map flat_map]. rewrite (parseLine_row fi ci pad t Ht Hp), IH. reflexivity.
Qed.

(** X20: a file of labels written in the expected form - the header
    [file_name,category], one line per label with two fields free of commas,
    line feeds and outer white space, the lines ended by a line feed or by a
    carriage return and a line feed, with or without a last line end - is
    read back as exactly those labels, in order. *)
Theorem labels_csv_round_trip
    (pad : string) (finalNewline : bool) (targets : list Target.TargetData) :
  linePadding pad = true ->
  Forall cleanTarget targets ->
  TargetsCsv.parseTargets (renderCsv pad finalNewline targets)
  = Some (map rowOf targets).
Proof.
  intros Hp Hall. unfold TargetsCsv.parseTargets, renderCsv. cbv zeta.
  set (header := {| Target.filename := "file_name"; Target.category := "category" |}).
  assert (Hheader : cleanTarget header) by (split; reflexivity).
  change (String.append "file_name,category" pad) with (renderRow pad header).
  assert (Hlines :
            TargetsCsv.split TargetsCsv.newline
              (String.append (renderRow pad header)
                 (renderRows pad targets
                    (if finalNewline then String TargetsCsv.newline EmptyString
                     else EmptyString)))
            = renderRow pad header
              :: map (renderRow pad) targets
              ++ (if finalNewline then [EmptyString] else [])).
  { unfold TargetsCsv.split.
    rewrite splitOn_piece by now apply renderRow_chars.
    now rewrite (split_rows pad targets finalNewline Hall Hp), revString_twice. }
  assert (Hheaders :
            map TargetsCsv.trim (TargetsCsv.split TargetsCsv.comma (renderRow pad header))
            = ["file_name"; "category"]%string).
  { rewrite (split_row pad header Hheader Hp). cbn [map].
    destruct Hheader as [Hf Hc].
    now rewrite (trim_clean _ Hf), (trim_padded _ _ Hc Hp). }
  rewrite !Hlines. cbn [hd tl]. rewrite !Hheaders.
  change (TargetsCsv.findIndex TargetsCsv.isFilenameHeader
            ["file_name"; "category"]%string) with (Some 0).
  change (TargetsCsv.findIndex TargetsCsv.isCategoryHeader
            ["file_name"; "category"]%string) with (Some 1).
  cbv iota. rewrite flat_map_app, (flat_map_rows 0 1 pad targets Hall Hp).
  destruct finalNewline; cbn [flat_map]; rewrite ?app_nil_r; reflexivity.
Qed.

Lemma labels_csv_round_trip_witness :
  TargetsCsv.parseTargets
    (renderCsv (String "013"%char EmptyString) true sampleLabels)
  = Some (map rowOf sampleLabels).
Proof.
  apply labels_csv_round_trip.
  - reflexivity.
  - repeat constructor.
Defined.

(** ** Drawing a word cloud *)

Lemma mathMax_from m values :
  Forall (fun v => exists q, v = Fin q) values ->
  exists r,
    fold_left WordCloudView.max2 values (Fin m) = Fin r
    /\ (m <= r)%Q
    /\ Forall (fun v => (toQ v <= r)%Q) values
    /\ (Fin r = Fin m \/ In (Fin r) values).
Proof.
  intros Hall. revert m.
  induction Hall as [|v values [q ->] _ IH]; intros m; cbn [fold_left].
  - exists m. split; [reflexivity|]. split; [apply Qle_refl|]. split; [constructor|now left].
  - cbn [WordCloudView.max2]. destruct (gtb (Fin q) (Fin m)) eqn:E.
    + apply gtb_fin in E. destruct (IH q) as (r & R1 & R2 & R3 & R4).
      exists r. split; [exact R1|]. split.
      * apply Qle_trans with q; [now apply Qlt_le_weak|exact R2].
      * split; [constructor; [exact R2|exact R3]|].
        right. destruct R4 as [R4|R4]; [left; now rewrite R4|now right].
    + apply gtb_fin_false in E. destruct (IH m) as (r & R1 & R2 & R3 & R4).
      exists r. split; [exact R1|]. split; [exact R2|].
      split; [constructor; [cbn [toQ]; now apply Qle_trans with m|exact R3]|].
      destruct R4 as [R4|R4]; [now left|right; now right].
Qed.

Lemma positive_not_zero q : (0 < q)%Q -> isZeroQ q = false.
Proof.
  unfold Qlt, isZeroQ. destruct q as [n d]. cbn. intros H.
  destruct n; [lia|reflexivity|reflexivity].
Qed.

(** The scaling [low + (v / m) * span] of a value between 0 and the
    maximum. *)
Lemma scaled_within low span v m :
  (0 < v)%Q -> (v <= m)%Q -> (0 < span)%Q ->
  exists size,
    add (fin low) (mul (div (Fin v) (Fin m)) (fin span)) = Fin size
    /\ (low < size)%Q /\ (size <= low + span)%Q
    /\ ((m <= v)%Q -> Fin size = fin (low + span)).
Proof.
  intros Hv Hvm Hs.
  assert (Hm : (0 < m)%Q) by (apply Qlt_le_trans with v; assumption).
  cbn [div]. rewrite (positive_not_zero m Hm). unfold fin. cbn [mul add]. unfold fin.
  eexists. split; [reflexivity|].
  assert (Hpos : (0 < v / m)%Q) by (apply Qlt_shift_div_l; [exact Hm|now rewrite Qmult_0_l]).
  assert (Hle : (v / m <= 1)%Q) by (apply Qle_shift_div_r; [exact Hm|now rewrite Qmult_1_l]).
  split; [|split].
  - rewrite !Qred_correct. rewrite <- (Qplus_0_r low) at 1. apply Qplus_lt_r.
    apply Qmult_lt_0_compat; assumption.
  - rewrite !Qred_correct. apply Qplus_le_r. rewrite <- (Qmult_1_l span) at 2.
    apply Qmult_le_compat_r; [exact Hle|now apply Qlt_le_weak].
  - intros Hmv. assert (Heq : (v == m)%Q) by (apply Qle_antisym; assumption).
    f_equal. apply Qred_complete. rewrite !Qred_correct, Heq. field.
    intros H0. rewrite H0 in Hm. discriminate.
Qed.

Lemma firstn_sorted {A : Type} (R : A -> A -> Prop) n l :
  StronglySorted R l -> StronglySorted R (firstn n l).
Proof.
  intros H. rewrite <- (firstn_skipn n l) in H.
  now apply StronglySorted_app in H.
Qed.

Lemma Forall_firstn {A : Type} (P : A -> Prop) n l :
  Forall P l -> Forall P (firstn n l).
Proof.
  intros H. rewrite <- (firstn_skipn n l) in H. now apply Forall_app in H.
Qed.

Lemma positiveWord_finite w : positiveWord w -> finiteWord w.
Proof. intros (q & Hq & _). unfold finiteWord. now rewrite Hq. Qed.

(** The maximum of the values on display, and how each value compares. *)
Lemma display_maximum words maxWords :
  Forall positiveWord words ->
  WordCloud words maxWords = []
  \/ exists m,
       WordCloudView.mathMax (map value (WordCloud words maxWords)) = Fin m
       /\ Forall (fun w => exists q, value w = Fin q /\ (0 < q)%Q /\ (q <= m)%Q)
                 (WordCloud words maxWords)
       /\ forall w rest, WordCloud words maxWords = w :: rest ->
            exists q, value w = Fin q /\ (m <= q)%Q.
Proof.
  intros Hall.
  assert (Hpos : Forall positiveWord (WordCloud words maxWords)).
  { apply Forall_firstn. apply (Forall_perm _ words); [|exact Hall].
    symmetry. apply sortWords_perm. }
  assert (Hsorted : StronglySorted precedes (WordCloud words maxWords)).
  { apply firstn_sorted. apply sortWords_sorted.
    eapply List.Forall_impl; [|exact Hall]. apply positiveWord_finite. }
  destruct (WordCloud words maxWords) as [|w rest]; [now left|]. right.
  inversion Hpos as [|? ? (x & Hx & Hx0) Hrest]; subst.
  inversion Hsorted as [|? ? _ Hhead]; subst.
  unfold WordCloudView.mathMax. cbn [map fold_left]. rewrite Hx.
  cbn [WordCloudView.max2 gtb].
  destruct (mathMax_from x (map value rest)) as (m & M1 & M2 & M3 & M4).
  { apply Forall_map. eapply List.Forall_impl; [|exact Hrest].
    intros a (q & Hq & _). eauto. }
  assert (Hmx : (m <= x)%Q).
  { destruct M4 as [M4|M4]; [injection M4 as ->; apply Qle_refl|].
    apply in_map_iff in M4. destruct M4 as (b & Hb & Hin).
    rewrite List.Forall_forall in Hhead. specialize (Hhead b Hin).
    apply precedes_Q in Hhead.
    - rewrite Hb, Hx in Hhead. exact Hhead.
    - unfold finiteWord. now rewrite Hx.
    - unfold finiteWord. now rewrite Hb. }
  exists m. split; [exact M1|]. split.
  - constructor; [exists x; auto|].
    rewrite List.Forall_forall in Hrest, M3. apply List.Forall_forall.
    intros a Ha. destruct (Hrest a Ha) as (q & Hq & Hq0).
    exists q. split; [exact Hq|]. split; [exact Hq0|].
    specialize (M3 (value a) (in_map value _ _ Ha)). now rewrite Hq in M3.
  - intros w' rest' Heq. injection Heq as <- <-. exists x. auto.
Qed.

(** X21: when every word has a finite positive value, every word on display
    is drawn with a font size above 12 and at most 32 pixels and an opacity
    above 0.6 and at most 1, in the order of the display (by descending
    value, at most [maxWords] words), and the first word, one of highest
    value, is drawn at 32 pixels with opacity 1. *)
Theorem displayed_words_scale_within_bounds
    (words : list WordCloudWord) (maxWords : nat) :
  Forall positiveWord words ->
  let styled := WordCloudView.render words maxWords in
  map WordCloudView.word styled = WordCloud words maxWords
  /\ Forall withinBounds styled
  /\ forall s rest, styled = s :: rest ->
       WordCloudView.fontSize s = ofZ 32 /\ WordCloudView.opacity s = one.
Proof.
  intros Hall. cbv zeta. unfold WordCloudView.render. cbv zeta.
  split; [rewrite map_map; cbn [WordCloudView.word]; apply map_id|].
  destruct (display_maximum words maxWords Hall) as [Hnil|(m & Hm & Hle & Hhead)].
  - rewrite Hnil. cbn [map]. split; [constructor|]. intros s rest H. discriminate.
  - rewrite Hm. change (ofZ 12) with (fin (12 # 1)). change (ofZ 20) with (fin (20 # 1)).
    split.
    + apply Forall_map. eapply List.Forall_impl; [|exact Hle].
      intros w (q & Hq & Hq0 & Hqm). unfold withinBounds.
      cbn [WordCloudView.fontSize WordCloudView.opacity]. rewrite Hq.
      destruct (scaled_within (12 # 1) (20 # 1) q m Hq0 Hqm eq_refl)
        as (size & S1 & S2 & S3 & _).
      destruct (scaled_within (6 # 10) (4 # 10) q m Hq0 Hqm eq_refl)
        as (alpha & A1 & A2 & A3 & _).
      exists size, alpha.
      split; [exact S1|]. split; [exact S2|].
      split; [apply Qle_trans with ((12 # 1) + (20 # 1))%Q; [exact S3|discriminate]|].
      split; [exact A1|]. split; [exact A2|].
      apply Qle_trans with ((6 # 10) + (4 # 10))%Q; [exact A3|discriminate].
    + intros s rest Hs.
      destruct (WordCloud words maxWords) as [|w ws] eqn:Ew; [discriminate|].
      cbn [map] in Hs. injection Hs as <- _.
      cbn [WordCloudView.fontSize WordCloudView.opacity].
      destruct (Hhead w ws eq_refl) as (q & Hq & Hmq).
      inversion Hle as [|? ? (q' & Hq' & Hq0 & Hqm) _]; subst.
      rewrite Hq in Hq'. injection Hq' as <-. rewrite Hq.
      destruct (scaled_within (12 # 1) (20 # 1) q m Hq0 Hqm eq_refl)
        as (size & S1 & _ & _ & S4).
      destruct (scaled_within (6 # 10) (4 # 10) q m Hq0 Hqm eq_refl)
        as (alpha & A1 & _ & _ & A4).
      change (add (fin (12 # 1)) (mul (div (Fin q) (Fin m)) (fin (20 # 1))) = ofZ 32
              /\ add (fin (6 # 10)) (mul (div (Fin q) (Fin m)) (fin (4 # 10))) = one).
      rewrite S1, A1, (S4 Hmq), (A4 Hmq). split; reflexivity.
Qed.

Lemma displayed_words_scale_within_bounds_witness :
  Forall withinBounds (WordCloudView.render sampleWords 2).
Proof.
  refine (proj1 (proj2 (displayed_words_scale_within_bounds sampleWords 2 _))).
  repeat constructor; eexists; (split; reflexivity).
Defined.

(** ** The chart of the average confidence *)

Lemma totalFor_from c entries : forall a,
  Forall (fun e : string * num => isProbability (snd e)) entries ->
  exists r,
    fold_left (fun s (e : string * num) =>
                 if String.eqb (fst e) c then add s (snd e) else s)
              entries (Fin a) = Fin r
    /\ (a <= r)%Q
    /\ (r <= a + inject_Z (Z.of_nat (countFor c (map fst entries))))%Q.
Proof.
  induction entries as [|[k v] entries IH]; intros a Hall.
  - exists a. split; [reflexivity|]. split; [apply Qle_refl|].
    unfold countFor. cbn. rewrite Qplus_0_r. apply Qle_refl.
  - inversion Hall as [|? ? (q & Hq & Hq0 & Hq1) Hrest]; subst.
    cbn [fst snd] in Hq. subst v. cbn [fold_left fst snd map].
    unfold countFor. cbn [List.filter]. rewrite (String.eqb_sym c k).
    destruct (String.eqb k c).
    + cbn [add]. unfold fin. destruct (IH (Qred (a + q)) Hrest) as (r & R1 & R2 & R3).
      exists r. split; [exact R1|]. rewrite Qred_correct in R2, R3. split.
      * apply Qle_trans with (a + q)%Q; [|exact R2].
        rewrite <- (Qplus_0_r a) at 1. now apply Qplus_le_r.
      * eapply Qle_trans; [exact R3|]. unfold countFor. cbn [length].
        rewrite Nat2Z.inj_succ. unfold Z.succ. rewrite inject_Z_plus.
        rewrite <- Qplus_assoc. apply Qplus_le_r.
        rewrite (Qplus_comm (inject_Z (Z.of_nat _)) (inject_Z 1)).
        now apply Qplus_le_l.
    + destruct (IH a Hrest) as (r & R1 & R2 & R3). exists r. auto.
Qed.

Lemma average_probability total n :
  (exists r, total = Fin r /\ (0 <= r)%Q /\ (r <= inject_Z (Z.of_nat n))%Q) ->
  isProbability (average total n).
Proof.
  intros (r & -> & Hr0 & Hrn). unfold average. destruct n as [|n].
  - exists 0%Q. repeat split; discriminate.
  - cbn [Nat.eqb]. unfold ofNat, ofZ. cbn [div].
    assert (Hpos : (0 < inject_Z (Z.of_nat (S n)))%Q).
    { unfold Qlt, inject_Z. cbn [Qnum Qden]. lia. }
    change (Z.of_nat (S n) # 1) with (inject_Z (Z.of_nat (S n))).
    rewrite (positive_not_zero _ Hpos). unfold fin.
    eexists. split; [reflexivity|]. rewrite Qred_correct. split.
    + apply Qle_shift_div_l; [exact Hpos|now rewrite Qmult_0_l].
    + apply Qle_shift_div_r; [exact Hpos|now rewrite Qmult_1_l].
Qed.

Lemma percent_of_probability a :
  isProbability a -> isPercentage (mul (orZero (Some a)) (ofZ 100)).
Proof.
  intros (q & -> & Hq0 & Hq1). unfold orZero.
  destruct (truthy (Fin q)).
  - unfold ofZ. cbn [mul]. unfold fin. eexists. split; [reflexivity|].
    rewrite Qred_correct. split.
    + apply Qmult_le_0_compat; [exact Hq0|discriminate].
    + apply Qle_trans with (1 * (100 # 1))%Q; [|discriminate].
      apply Qmult_le_compat_r; [exact Hq1|discriminate].
  - exists 0%Q. repeat split; discriminate.
Qed.

(** X4: when every confidence is a probability (between 0 and 1), the chart
    of the average confidence has one value per registered category, each a
    percentage between 0 and 100. *)
Theorem confidence_chart_within_percent (docs : list DocumentType) :
  Forall probabilityDoc docs ->
  exists report,
    fetchData docs = Some report
    /\ length (Charts.avgScoreChartData (categoryAverageScores report))
       = length VALID_CATEGORIES
    /\ Forall isPercentage (Charts.avgScoreChartData (categoryAverageScores report)).
Proof.
  intros Hall.
  destruct (fetchData_report docs) as (report & Hr & _ & R2 & _).
  exists report. split; [exact Hr|]. unfold Charts.avgScoreChartData.
  split; [apply length_map|]. apply Forall_map. apply List.Forall_forall.
  intros c Hc.
  assert (Hfin : Forall finiteDoc docs).
  { eapply List.Forall_impl; [|exact Hall]. intros d Hd. apply Hd. }
  destruct (accumulate_lookup docs c Hfin Hc) as (_ & A2 & A3 & _).
  cbv zeta in A2, A3.
  rewrite R2, averages_lookup by assumption.
  rewrite (avgScore_average _ _ _ _ A2 A3).
  apply percent_of_probability, average_probability.
  unfold scoreTotal, totalFor, occurrenceCount.
  destruct (totalFor_from c (flat_map entriesOf docs) 0) as (r & R & Hr0 & Hrn).
  { apply Forall_flat_map. intros d Hd. rewrite List.Forall_forall in Hall.
    apply (Hall d Hd). }
  exists r. split; [exact R|]. split; [exact Hr0|].
  now rewrite Qplus_0_l in Hrn.
Qed.

Lemma confidence_chart_within_percent_witness :
  exists report,
    fetchData [technicalDocument] = Some report
    /\ Forall isPercentage (Charts.avgScoreChartData (categoryAverageScores report)).
Proof.
  destruct (confidence_chart_within_percent [technicalDocument])
    as (report & H1 & _ & H3).
  - constructor; [|constructor]. split.
    + split.
      * intros s Hs. injection Hs as <-. reflexivity.
      * repeat constructor.
    + repeat constructor; eexists; (split; [reflexivity|split; discriminate]).
  - exists report. split; assumption.
Defined.

(** ** From the upload service to the upload form *)

Lemma optGet_setIfTruthy_other fields k v k' :
  String.eqb k k' = false ->
  optGet (JObject (UploadDocument.setIfTruthy fields k v)) k'
  = optGet (JObject fields) k'.
Proof.
  intros Hne. unfold UploadDocument.setIfTruthy.
  destruct (jsTruthy v); [now apply optGet_setField_other|reflexivity].
Qed.

Lemma optGet_setIfTruthy_same fields k v :
  jsTruthy v = true ->
  optGet (JObject (UploadDocument.setIfTruthy fields k v)) k = v.
Proof.
  intros Hv. unfold UploadDocument.setIfTruthy. rewrite Hv.
  apply optGet_setField_same.
Qed.

(** What the service throws on for an error object with a response body:
    the same object, with the code of the body and its other fields of
    interest to the form left as they were. *)
Lemma rethrown_fields fields c :
  jsTruthy (optGet (optGet (JObject fields) "response") "data") = true ->
  optGet (optGet (optGet (JObject fields) "response") "data") "error" = JString c ->
  nonEmptyString c = true ->
  exists fields',
    UploadDocument.rethrown (JObject fields) = Some (JObject fields')
    /\ optGet (JObject fields') "code" = JString c
    /\ optGet (JObject fields') "status" = optGet (JObject fields) "status"
    /\ optGet (JObject fields') "originalError"
       = optGet (JObject fields) "originalError".
Proof.
  intros Hdata Hcode Hc. unfold UploadDocument.rethrown. cbn [get].
  cbv zeta. rewrite Hdata, Hcode. eexists. split; [reflexivity|].
  split; [|split].
  - rewrite 2!optGet_setIfTruthy_other by reflexivity.
    now apply optGet_setIfTruthy_same.
  - now rewrite 3!optGet_setIfTruthy_other by reflexivity.
  - now rewrite 3!optGet_setIfTruthy_other by reflexivity.
Qed.

(** X23: a file the server refuses as too large is reported as such.  When
    the request for the first selected file fails with an error object whose
    response body carries the code FILE_TOO_LARGE (and which is no
    duplicate conflict), the upload service passes the code on and the form
    shows the size message naming the file, shows no other error, sends no
    further file and clears the selection. *)
Theorem server_size_rejection_is_reported
    (apiUploadFile : nat -> FileUpload.File -> FileUpload.Settled)
    (s : FileUpload.State) (file : FileUpload.File) (rest : list FileUpload.File)
    (fields : list (string * jsval)) (err : jsval) :
  FileUpload.selectedFiles s = file :: rest ->
  optGet (optGet (optGet (JObject fields) "response") "data") "error"
  = JString "FILE_TOO_LARGE" ->
  isDuplicateUpload (JObject fields) = Some false ->
  UploadDocument.rethrown (JObject fields) = Some err ->
  apiUploadFile 0 file = FileUpload.Rejected err ->
  exists s',
    FileUpload.uploadFiles apiUploadFile s = FileUpload.Completed s'
    /\ FileUpload.fileValidationError s'
       = Some (String.append "File "
                 (String.append (FileUpload.quoted (FileUpload.name file))
                    " is too large. Maximum size is 10MB."))
    /\ FileUpload.error s' = None
    /\ FileUpload.isDuplicateFile s' = false
    /\ FileUpload.requested s' = FileUpload.requested s ++ [file]
    /\ FileUpload.selectedFiles s' = [].
Proof.
  intros Hsel Hcode Hdup Hthrown Hrej.
  assert (Hdata : jsTruthy (optGet (optGet (JObject fields) "response") "data") = true).
  { destruct (optGet (optGet (JObject fields) "response") "data");
      try discriminate; reflexivity. }
  destruct (rethrown_fields fields "FILE_TOO_LARGE" Hdata Hcode eq_refl)
    as (fields' & Hre & Hc & Hst & Hor).
  rewrite Hre in Hthrown. injection Hthrown as <-.
  assert (Hdup' : isDuplicateUpload (JObject fields') = Some false).
  { unfold isDuplicateUpload in *. cbn [get] in *. now rewrite Hst, Hor. }
  assert (Hhas : FileUpload.hasCode (JObject fields') "FILE_TOO_LARGE" = true).
  { unfold FileUpload.hasCode. now rewrite Hc. }
  unfold FileUpload.uploadFiles. rewrite Hsel.
  cbn [FileUpload.uploadFrom]. cbv zeta. rewrite Hrej.
  unfold FileUpload.handleFailure. rewrite Hdup', Hhas.
  eexists. split; [reflexivity|].
  repeat split.
Qed.

Lemma server_size_rejection_is_reported_witness :
  exists s',
    FileUpload.uploadFiles
      (fun _ _ =>
         FileUpload.Rejected
           (JObject [("response"%string,
                      JObject [("status"%string, JNumber 400);
                               ("data"%string,
                                JObject [("error"%string, JString "FILE_TOO_LARGE")])]);
                     ("code"%string, JString "FILE_TOO_LARGE")]))
      (idleUpload [reportFile; notesFile])
    = FileUpload.Completed s'
    /\ FileUpload.error s' = None
    /\ FileUpload.requested s' = [reportFile].
Proof.
  destruct (server_size_rejection_is_reported
              (fun _ _ =>
                 FileUpload.Rejected
                   (JObject [("response"%string,
                              JObject [("status"%string, JNumber 400);
                                       ("data"%string,
                                        JObject [("error"%string,
                                                  JString "FILE_TOO_LARGE")])]);
                             ("code"%string, JString "FILE_TOO_LARGE")]))
              (idleUpload [reportFile; notesFile]) reportFile [notesFile]
              [("response"%string,
                JObject [("status"%string, JNumber 400);
                         ("data"%string,
                          JObject [("error"%string, JString "FILE_TOO_LARGE")])])]
              _ eq_refl eq_refl eq_refl eq_refl eq_refl)
    as (s' & H1 & _ & H3 & _ & H5 & _).
  exists s'. repeat split; assumption.
Defined.

(** ** C8: the duplicate outcome *)




